(** * bug-butler: SLA evaluation and trend analysis core

    A shallow embedding of the evaluation core of bug-butler
    (internal/domain, internal/sla/evaluator.go, internal/stats/analyzer.go)
    together with the properties its specification states about it.

    Conventions of the embedding:
    - Go [int] values are counts of slice elements or configured ranks and are
      modelled as [Z]; none of the arithmetic on them can leave the 64-bit range.
    - Go [float64] is modelled bit-exactly by [spec_float] at precision 53 and
      exponent bound 1024 (IEEE 754 binary64, round to nearest even); every
      operation rounds on its own, as the amd64 compiler emits them (no fused
      multiply-add).
    - [time.Time] is an instant (nanoseconds since the Unix epoch) paired with
      the offset of its location; [time.Now()] is a parameter [now], so one
      evaluation sees one clock reading.
    - Go maps are [gmap]s; where the program ranges over a map the embedding
      uses [map_to_list], whose order is as unspecified as Go's. *)

From Stdlib Require Import ZArith Ascii String List Bool Lia Permutation Sorted.
From Stdlib Require Import DecimalString.
From Stdlib Require Import Floats.SpecFloat.
From stdpp Require Import gmap strings list fin_maps sorting.

Local Open Scope Z_scope.

(** ** float64 *)

Module F64.

Definition prec : Z := 53.
Definition emax : Z := 1024.

Definition float64 : Type := spec_float.

Definition add : float64 -> float64 -> float64 := SFadd prec emax.
Definition sub : float64 -> float64 -> float64 := SFsub prec emax.
Definition mul : float64 -> float64 -> float64 := SFmul prec emax.
Definition div : float64 -> float64 -> float64 := SFdiv prec emax.

(** [x < y], [x == y] and [x > y] of Go; all false on NaN. *)
Definition ltb : float64 -> float64 -> bool := SFltb.
Definition eqb : float64 -> float64 -> bool := SFeqb.
Definition gtb (x y : float64) : bool := SFltb y x.

(** The zero value of a [float64] variable. *)
Definition zero : float64 := S754_zero false.

(** [float64(n)] for an integer [n]: exact below 2^53, rounded to nearest
    even above. *)
Definition of_int (n : Z) : float64 := binary_normalize prec emax n 0 false.

(** The mathematical value is [m * 2^e]; [half_away m e] is that value
    rounded to the nearest integer, halves going away from zero. *)
Definition half_away (m : positive) (e : Z) : Z :=
  match e with
  | Zneg p =>
      let d := Z.pow_pos 2 p in
      let q := Z.pos m / d in
      let r := Z.pos m mod d in
      if d <=? 2 * r then q + 1 else q
  | _ => Z.pos m * 2 ^ e
  end.

(** [math.Round]: nearest integer, halves away from zero; zeros, infinities
    and NaN are returned unchanged. *)
Definition Round (x : float64) : float64 :=
  match x with
  | S754_finite s m e =>
      match half_away m e with
      | Z0 => S754_zero s
      | n => binary_normalize prec emax (if s then - n else n) 0 s
      end
  | _ => x
  end.

Definition min_int64 : Z := - 2 ^ 63.
Definition max_int64 : Z := 2 ^ 63 - 1.

(** [int(x)] on a 64-bit platform: truncation toward zero. Go leaves the
    result unspecified when the value does not fit; the amd64 compiler yields
    the smallest integer, which is what the embedding returns. *)
Definition to_int (x : float64) : Z :=
  match x with
  | S754_zero _ => 0
  | S754_finite s m e =>
      let a := match e with
               | Zneg p => Z.pos m / Z.pow_pos 2 p
               | _ => Z.pos m * 2 ^ e
               end in
      let n := if s then - a else a in
      if (min_int64 <=? n) && (n <=? max_int64) then n else min_int64
  | _ => min_int64
  end.

(** Exact rational value [num / den] of a finite float, as a pair. *)
Definition to_frac (x : float64) : option (Z * Z) :=
  match x with
  | S754_zero _ => Some (0, 1)
  | S754_finite s m e =>
      let n := if s then Z.neg m else Z.pos m in
      Some (match e with
            | Zneg p => (n, Z.pow_pos 2 p)
            | _ => (n * 2 ^ e, 1)
            end)
  | _ => None
  end.

End F64.

Abbreviation float64 := F64.float64.

#[global] Instance spec_float_eq_dec : EqDecision spec_float.
Proof. solve_decision. Defined.

(** ** time.Time and time.Duration *)

Module Time.

(** An instant with the offset of its location. [Before], [After] and
    [Equal] compare instants only; [Year] and [Month] read the civil date in
    the value's own location. *)
Record t : Type := mk {
  wall : Z;   (* nanoseconds since 1970-01-01T00:00:00Z *)
  zone : Z    (* offset of the location in seconds east of UTC *)
}.

#[global] Instance t_eq_dec : EqDecision t.
Proof. solve_decision. Defined.

Definition Before (a b : t) : bool := wall a <? wall b.
Definition After (a b : t) : bool := wall b <? wall a.
Definition Equal (a b : t) : bool := wall a =? wall b.

Definition nanosPerSecond : Z := 1000000000.
Definition secondsPerDay : Z := 86400.

(** Days since the epoch of the first-of-month-relative civil date
    [(y, m, d)] in the proleptic Gregorian calendar, [1 <= m <= 12]; linear
    in [d], so day 0 is the last day of the month before. *)
Definition days_from_civil (y m d : Z) : Z :=
  let y' := if m <=? 2 then y - 1 else y in
  let era := y' / 400 in
  let yoe := y' - era * 400 in
  let mp := if 2 <? m then m - 3 else m + 9 in
  let doy := (153 * mp + 2) / 5 + d - 1 in
  let doe := yoe * 365 + yoe / 4 - yoe / 100 + doy in
  era * 146097 + doe - 719468.

(** Civil date [(year, month, day)] of a day number. *)
Definition civil_from_days (z : Z) : Z * Z * Z :=
  let z' := z + 719468 in
  let era := z' / 146097 in
  let doe := z' - era * 146097 in
  let yoe := (doe - doe / 1460 + doe / 36524 - doe / 146096) / 365 in
  let doy := doe - (365 * yoe + yoe / 4 - yoe / 100) in
  let mp := (5 * doy + 2) / 153 in
  let d := doy - (153 * mp + 2) / 5 + 1 in
  let m := if mp <? 10 then mp + 3 else mp - 9 in
  let y := yoe + era * 400 in
  (if m <=? 2 then y + 1 else y, m, d).

Definition civil (x : t) : Z * Z * Z :=
  civil_from_days ((wall x / nanosPerSecond + zone x) / secondsPerDay).

Definition Year (x : t) : Z := fst (fst (civil x)).
Definition Month (x : t) : Z := snd (fst (civil x)).

(** [time.Date(year, month, day, hour, min, sec, nsec, loc)] for a location
    at a fixed offset: months outside 1..12 carry into the year, and every
    other field may overflow into the next larger one, as in Go. *)
Definition DateIn (year month day hour min sec nsec offset : Z) : t :=
  let m0 := month - 1 in
  let y := year + m0 / 12 in
  let m := m0 mod 12 + 1 in
  let days := days_from_civil y m 1 + (day - 1) in
  mk (((((days * 24 + hour) * 60 + min) * 60 + sec) - offset) * nanosPerSecond
      + nsec)
     offset.

(** The same in [time.UTC]. *)
Definition Date (year month day hour min sec nsec : Z) : t :=
  DateIn year month day hour min sec nsec 0.

(** [t.AddDate(years, months, days)]: the date and clock of [t] are read in
    its location, the date is shifted and the result is normalised by
    [Date] in the same location. *)
Definition AddDate (x : t) (years months days : Z) : t :=
  let '(y, m, d) := civil x in
  let secondOfDay := (wall x / nanosPerSecond + zone x) mod secondsPerDay in
  DateIn (y + years) (m + months) (d + days)
         (secondOfDay / 3600) (secondOfDay mod 3600 / 60) (secondOfDay mod 60)
         (wall x mod nanosPerSecond) (zone x).

(** [time.Duration]: signed 64-bit nanoseconds. *)
Definition Duration : Type := Z.

Definition minDuration : Duration := - 2 ^ 63.
Definition maxDuration : Duration := 2 ^ 63 - 1.

(** [a.Sub(b)]: the difference of the instants, saturated to the range of
    [Duration]. *)
Definition Sub (a b : t) : Duration :=
  Z.max minDuration (Z.min maxDuration (wall a - wall b)).

(** [time.Since(u)], with the clock reading passed in. *)
Definition Since (now u : t) : Duration := Sub now u.

Definition Hour : Z := 3600000000000.

(** [d.Hours()]: whole hours plus the remaining nanoseconds over the
    constant [60*60*1e9], the quotient and remainder truncating toward zero. *)
Definition Hours (d : Duration) : float64 :=
  let hour := Z.quot d Hour in
  let nsec := Z.rem d Hour in
  F64.add (F64.of_int hour) (F64.div (F64.of_int nsec) (F64.of_int Hour)).

End Time.

(** ** Domain model (internal/domain) *)

(** Modelled from the spec: the declaration of [domain.Bug] at hand predates
    the sprint aggregator; the fields [IssueType], [SprintID], [SprintName]
    and [StoryPoints] are taken from the specification's issue record, under
    the names the issue mapper assigns and the aggregator reads. The other
    nine fields are the declared ones. *)
Record Bug : Type := mkBug {
  Key : string;
  Summary : string;
  Priority : string;
  Status : string;
  IssueType : string;
  Created : Time.t;
  Updated : Time.t;
  Resolution : string;
  ResolutionDate : option Time.t;
  SprintID : string;
  SprintName : string;
  StoryPoints : float64;
  BaseURL : string
}.

#[global] Instance Bug_eq_dec : EqDecision Bug.
Proof. solve_decision. Defined.

(** [Bug.Age] and [Bug.AgeDays]: time since the last update, in days. *)
Definition Age (now : Time.t) (b : Bug) : Time.Duration :=
  Time.Since now (Updated b).

Definition AgeDays (now : Time.t) (b : Bug) : float64 :=
  F64.div (Time.Hours (Age now b)) (F64.of_int 24).

(** [domain.SLARule]. *)
Module SLARule.
Record t : Type := mk {
  Name : string;
  Priority : string;
  Status : list string;
  MaxAgeDays : float64;
  BucketName : string;
  Severity : Z
}.
End SLARule.

(** The status loop of [Matches]: some configured status equals the bug's. *)
Fixpoint statusMatch (statuses : list string) (status : string) : bool :=
  match statuses with
  | [] => false
  | s :: rest => if String.eqb s status then true else statusMatch rest status
  end.

(** [SLARule.Matches]. *)
Definition Matches (r : SLARule.t) (bug : Bug) : bool :=
  if negb (String.eqb (SLARule.Priority r) "") &&
     negb (String.eqb (SLARule.Priority r) (Priority bug))
  then false
  else if (0 <? Z.of_nat (length (SLARule.Status r))) &&
          negb (statusMatch (SLARule.Status r) (Status bug))
  then false
  else true.

(** [SLARule.Violates]. *)
Definition Violates (now : Time.t) (r : SLARule.t) (bug : Bug) : bool :=
  Matches r bug && F64.gtb (AgeDays now bug) (SLARule.MaxAgeDays r).

(** [domain.Bucket] and [domain.BucketGroup]. The group holds pointers to
    its buckets and nothing else aliases them, so updating a bucket in place
    is replacing the list element. *)
Record Bucket : Type := mkBucket {
  Name : string;
  Severity : Z;
  Bugs : list Bug
}.

#[global] Instance Bucket_eq_dec : EqDecision Bucket.
Proof. solve_decision. Defined.

Record BucketGroup : Type := mkGroup {
  Buckets : list Bucket
}.

(** The search loop of [AddToBucket]: the first bucket with the given name
    gets the bug appended; [None] when the loop falls through. *)
Fixpoint appendToNamed (bucketName : string) (bug : Bug) (bs : list Bucket)
  : option (list Bucket) :=
  match bs with
  | [] => None
  | b :: rest =>
      if String.eqb (Name b) bucketName
      then Some (mkBucket (Name b) (Severity b) (Bugs b ++ [bug]) :: rest)
      else option_map (cons b) (appendToNamed bucketName bug rest)
  end.

(** [BucketGroup.AddToBucket]. *)
Definition AddToBucket (bucketName : string) (severity : Z) (bug : Bug)
  (bg : BucketGroup) : BucketGroup :=
  match appendToNamed bucketName bug (Buckets bg) with
  | Some bs => mkGroup bs
  | None => mkGroup (Buckets bg ++ [mkBucket bucketName severity [bug]])
  end.

(** The body of the inner loop of [Sort]: exchange positions [j] and [j+1]
    when the left severity is strictly larger. *)
Definition swapStep (bs : list Bucket) (j : nat) : list Bucket :=
  match bs !! j, bs !! S j with
  | Some a, Some b =>
      if Severity b <? Severity a then <[S j := a]> (<[j := b]> bs) else bs
  | _, _ => bs
  end.

(** One iteration of the outer loop: [j] runs over [0 .. n-i-2]. *)
Definition sortPass (n : nat) (bs : list Bucket) (i : nat) : list Bucket :=
  fold_left swapStep (seq 0 (n - i - 1)) bs.

(** [BucketGroup.Sort]: the exchange sort, [i] running over [0 .. n-2]. *)
Definition sortBuckets (bs : list Bucket) : list Bucket :=
  let n := length bs in
  fold_left (sortPass n) (seq 0 (n - 1)) bs.

Definition Sort (bg : BucketGroup) : BucketGroup :=
  mkGroup (sortBuckets (Buckets bg)).

(** The inner loop read recursively: [bubble k bs] is the effect of the
    exchange steps at positions [0 .. k-1] ([sortPass_bubble] below). *)
Fixpoint bubble (k : nat) (bs : list Bucket) : list Bucket :=
  match k, bs with
  | S k', a :: b :: rest =>
      if Severity b <? Severity a then b :: bubble k' (a :: rest)
      else a :: bubble k' (b :: rest)
  | _, _ => bs
  end.

(** *** Reference: a stable sort by the integer severity key

    Insertion from the right; an element is placed before the first element
    whose severity is not smaller, so elements of equal severity keep their
    order. This follows the specification's wording and is what [Sort] is
    compared with. *)
Fixpoint insertBySeverity (b : Bucket) (bs : list Bucket) : list Bucket :=
  match bs with
  | [] => [b]
  | c :: rest =>
      if Severity b <=? Severity c then b :: c :: rest
      else c :: insertBySeverity b rest
  end.

Fixpoint stableSortBySeverity (bs : list Bucket) : list Bucket :=
  match bs with
  | [] => []
  | b :: rest => insertBySeverity b (stableSortBySeverity rest)
  end.

Definition severityLe (a b : Bucket) : Prop := Severity a <= Severity b.

Definition hasSeverity (s : Z) (b : Bucket) : bool := Severity b =? s.

(** ** SLA evaluator (internal/sla/evaluator.go) *)

(** [config.SLARule] and the conversion done by [NewEvaluator]. *)
Module ConfigRule.
Record t : Type := mk {
  Name : string;
  Priority : string;
  Status : list string;
  MaxAgeDays : float64;
  Bucket : string;
  Severity : Z
}.
End ConfigRule.

Definition NewEvaluator (rules : list ConfigRule.t) : list SLARule.t :=
  map (fun rule =>
         SLARule.mk (ConfigRule.Name rule) (ConfigRule.Priority rule)
                    (ConfigRule.Status rule) (ConfigRule.MaxAgeDays rule)
                    (ConfigRule.Bucket rule) (ConfigRule.Severity rule))
      rules.

(** The inner loop of [Evaluate] for one bug: rules are tried in order; the
    loop is left only in the branch that adds the bug to a bucket. A rule
    that matches without being violated only logs, and the loop goes on. *)
Fixpoint scanRules (now : Time.t) (rules : list SLARule.t) (bug : Bug)
  (bg : BucketGroup) : BucketGroup :=
  match rules with
  | [] => bg
  | rule :: rest =>
      if Matches rule bug then
        if Violates now rule bug
        then AddToBucket (SLARule.BucketName rule) (SLARule.Severity rule)
                         bug bg
        else scanRules now rest bug bg
      else scanRules now rest bug bg
  end.

(** The bucket group before the final sort. *)
Definition collect (now : Time.t) (rules : list SLARule.t) (bugs : list Bug)
  : BucketGroup :=
  fold_left (fun bg bug => scanRules now rules bug bg) bugs (mkGroup []).

(** [Evaluator.Evaluate]. *)
Definition Evaluate (now : Time.t) (rules : list SLARule.t) (bugs : list Bug)
  : BucketGroup :=
  Sort (collect now rules bugs).

(** Every bug held by the group, bucket after bucket. *)
Definition bucketed (bg : BucketGroup) : list Bug :=
  concat (map Bugs (Buckets bg)).

(** The bug violates at least one of the rules. *)
Definition violatesSome (now : Time.t) (rules : list SLARule.t) (bug : Bug)
  : bool :=
  existsb (fun r => Violates now r bug) rules.

(** The first rule, in configured order, whose criteria the bug matches. *)
Definition firstMatch (rules : list SLARule.t) (bug : Bug) : option SLARule.t :=
  find (fun r => Matches r bug) rules.

(** ** Trend analyzer (internal/stats/analyzer.go) *)

#[global] Instance time_countable : Countable Time.t :=
  inj_countable' (fun x => (Time.wall x, Time.zone x))
                 (fun p => Time.mk (fst p) (snd p))
                 (fun x => match x with Time.mk _ _ => eq_refl end).

(** [domain.MonthlyBugStats]. *)
Record MonthlyBugStats : Type := mkMonthly {
  Month : Time.t;
  TotalCreated : Z;
  TotalResolved : Z;
  TotalUnresolved : Z;
  NetChange : Z;
  ChangePercent : float64;
  ByPriority : gmap string Z
}.

(** Modelled from the spec: the declaration of [domain.SprintStats] is not
    part of the sources at hand; the fields are those the specification
    lists and [CalculateSprintStats] assigns. *)
Module Sprint.
Record SprintStats : Type := mk {
  SprintID : string;
  SprintName : string;
  BugCount : Z;
  OtherCount : Z;
  TotalCount : Z;
  BugPercentage : float64;
  BugStoryPoints : float64;
  TotalStoryPoints : float64;
  PointsPercentage : float64
}.
End Sprint.

(** [domain.TrendStats]. The two month references point into [MonthlyData]
    and are never written through; they are modelled by the entry itself. *)
Record TrendStats : Type := mkTrend {
  MonthlyData : list MonthlyBugStats;
  CurrentMonth : option MonthlyBugStats;
  LastYearSameMonth : option MonthlyBugStats;
  ReductionGoal : float64;
  GoalTarget : Z;
  OnTrack : bool;
  SprintStats : list Sprint.SprintStats
}.

(** [len(s)] as a Go [int]. *)
Definition len {A : Type} (l : list A) : Z := Z.of_nat (length l).

(** The month key of a bug: the first of its creation month, the year and
    month read in the creation time's own location and reassembled in UTC. *)
Definition monthKey (bug : Bug) : Time.t :=
  Time.Date (Time.Year (Created bug)) (Time.Month (Created bug)) 1 0 0 0 0.

(** [groupByMonth]; a missing key reads as the empty slice. *)
Definition groupByMonth (bugs : list Bug) : gmap Time.t (list Bug) :=
  fold_left
    (fun grouped bug =>
       <[monthKey bug := default [] (grouped !! monthKey bug) ++ [bug]]> grouped)
    bugs ∅.

(** [calculateGoalTarget]. *)
Definition calculateGoalTarget (lastYearCount : Z) (reductionPercent : float64)
  : Z :=
  let reduction :=
    F64.mul (F64.of_int lastYearCount)
            (F64.div reductionPercent (F64.of_int 100)) in
  let target := F64.sub (F64.of_int lastYearCount) reduction in
  F64.to_int (F64.Round target).

(** [buildPriorityBreakdown]. *)
Definition buildPriorityBreakdown (bugs : list Bug) : gmap string Z :=
  fold_left
    (fun breakdown bug =>
       <[Priority bug := default 0 (breakdown !! Priority bug) + 1]> breakdown)
    bugs ∅.

(** The test in the loop of [countUnresolvedAtDate]. *)
Definition unresolvedAt (date : Time.t) (bug : Bug) : bool :=
  if Time.After (Created bug) date then false
  else String.eqb (Resolution bug) "" ||
       match ResolutionDate bug with
       | Some d => Time.After d date
       | None => false
       end.

(** [countUnresolvedAtDate]. *)
Definition countUnresolvedAtDate (bugs : list Bug) (date : Time.t) : Z :=
  fold_left (fun count bug => if unresolvedAt date bug then count + 1 else count)
            bugs 0.

(** End of a month as the analyzer computes it: day 0 of the following
    month, that is the month's last day, at 23:59:59 UTC. *)
Definition monthEnd (month : Time.t) : Time.t :=
  Time.Date (Time.Year month) (Time.Month month + 1) 0 23 59 59 0.

(** The test in the loop of [countResolvedInMonth]. *)
Definition resolvedIn (month : Time.t) (bug : Bug) : bool :=
  match ResolutionDate bug with
  | Some d => negb (Time.Before d month) && negb (Time.After d (monthEnd month))
  | None => false
  end.

(** [countResolvedInMonth]. *)
Definition countResolvedInMonth (bugs : list Bug) (month : Time.t) : Z :=
  fold_left (fun count bug => if resolvedIn month bug then count + 1 else count)
            bugs 0.

(** The change-percent computation of the monthly loop. *)
Definition changePercentOf (created previousCreatedCount : Z) : float64 :=
  if 0 <? previousCreatedCount
  then F64.mul
         (F64.div (F64.sub (F64.of_int created) (F64.of_int previousCreatedCount))
                  (F64.of_int previousCreatedCount))
         (F64.of_int 100)
  else F64.zero.

(** The loop of [Analyze] that builds the monthly statistics, threading
    [previousCreatedCount]. *)
Fixpoint monthlyLoop (bugs : list Bug) (grouped : gmap Time.t (list Bug))
  (months : list Time.t) (previousCreatedCount : Z) : list MonthlyBugStats :=
  match months with
  | [] => []
  | month :: rest =>
      let bugsCreatedThisMonth := default [] (grouped !! month) in
      let created := len bugsCreatedThisMonth in
      mkMonthly month created
                (countResolvedInMonth bugs month)
                (countUnresolvedAtDate bugs (monthEnd month))
                (created - previousCreatedCount)
                (changePercentOf created previousCreatedCount)
                (buildPriorityBreakdown bugsCreatedThisMonth)
      :: monthlyLoop bugs grouped rest created
  end.

Definition monthLe (a b : Time.t) : Prop := Time.wall a <= Time.wall b.

#[global] Instance monthLe_dec (a b : Time.t) : Decision (monthLe a b).
Proof. unfold monthLe. apply _. Defined.

(** The keys of the grouping in chronological order. The keys are distinct
    instants, so the result does not depend on the sorting algorithm. *)
Definition sortedMonths (grouped : gmap Time.t (list Bug)) : list Time.t :=
  merge_sort monthLe (map fst (map_to_list grouped)).

(** The loop that looks a month up in the series; the last hit stays. *)
Definition findMonth (monthlyData : list MonthlyBugStats) (start : Time.t)
  : option MonthlyBugStats :=
  fold_left (fun found s => if Time.Equal (Month s) start then Some s else found)
            monthlyData None.

Definition currentMonthStart (now : Time.t) : Time.t :=
  Time.Date (Time.Year now) (Time.Month now) 1 0 0 0 0.

Definition lastYearMonthStart (now : Time.t) : Time.t :=
  Time.AddDate (currentMonthStart now) (-1) 0 0.

(** The goal block of [Analyze]: both values keep their zero value unless
    both reference months were found. *)
Definition goalProgress (reductionGoal : float64)
  (lastYearSameMonth currentMonth : option MonthlyBugStats) : Z * bool :=
  match lastYearSameMonth, currentMonth with
  | Some last, Some cur =>
      let goalTarget := calculateGoalTarget (TotalCreated last) reductionGoal in
      (goalTarget, TotalCreated cur <=? goalTarget)
  | _, _ => (0, false)
  end.

(** [Analyzer.Analyze]; the error it returns next to the statistics is
    always nil. *)
Definition Analyze (now : Time.t) (reductionGoal : float64) (bugs : list Bug)
  : TrendStats :=
  let grouped := groupByMonth bugs in
  let monthlyData := monthlyLoop bugs grouped (sortedMonths grouped) 0 in
  let currentMonth := findMonth monthlyData (currentMonthStart now) in
  let lastYearSameMonth := findMonth monthlyData (lastYearMonthStart now) in
  let progress := goalProgress reductionGoal lastYearSameMonth currentMonth in
  mkTrend monthlyData currentMonth lastYearSameMonth reductionGoal
          (fst progress) (snd progress) [].

(** ** Sprint aggregator (internal/stats/analyzer.go)

    Go's [regexp] package is outside the repository: the compiled-pattern
    type, [regexp.Compile] (here [None] when it returns an error),
    [MatchString] and [regexp.QuoteMeta] are parameters. *)
Section SprintAggregator.

Variable Regexp : Type.
Variable Compile : string -> option Regexp.
Variable MatchString : Regexp -> string -> bool.
Variable QuoteMeta : string -> string.

(** [ExtractSprintIDs]: the distinct non-empty sprint ids. *)
Definition ExtractSprintIDs (bugs : list Bug) : list string :=
  let sprintMap :=
    fold_left
      (fun (m : gmap string bool) bug =>
         if negb (String.eqb (SprintID bug) "") then <[SprintID bug := true]> m
         else m)
      bugs ∅ in
  map fst (map_to_list sprintMap).

(** The filter both functions build from the configuration: the pattern
    when one is configured, else the quoted prefix anchored at the start. A
    compile error is logged and leaves the filter nil. *)
Definition nameFilterOf (sprintNameBeginsWith sprintNamePattern : string)
  : option Regexp :=
  if negb (String.eqb sprintNamePattern "") then Compile sprintNamePattern
  else if negb (String.eqb sprintNameBeginsWith "")
       then Compile (String.append "^" (QuoteMeta sprintNameBeginsWith))
       else None.

(** The id-to-name map built by the first loop of [ExtractAndFilterSprints]. *)
Definition sprintNameMap (bugs : list Bug) : gmap string string :=
  fold_left
    (fun (m : gmap string string) bug =>
       if negb (String.eqb (SprintID bug) "")
       then <[SprintID bug := SprintName bug]> m
       else m)
    bugs ∅.

(** The test of the filtering loops: a nil filter lets every name through. *)
Definition passesFilter (nameFilter : option Regexp) (sprintName : string)
  : bool :=
  match nameFilter with
  | Some re => MatchString re sprintName
  | None => true
  end.

(** [ExtractAndFilterSprints]. *)
Definition ExtractAndFilterSprints (bugs : list Bug)
  (sprintNameBeginsWith sprintNamePattern : string) : list string :=
  let sprintMap := sprintNameMap bugs in
  let nameFilter := nameFilterOf sprintNameBeginsWith sprintNamePattern in
  map fst (List.filter (fun kv => passesFilter nameFilter (snd kv))
                       (map_to_list sprintMap)).

(** The grouping loop of [CalculateSprintStats]: issues per sprint id, in
    input order, and the sprint name last seen for the id. *)
Definition groupStep (nameFilter : option Regexp)
  (acc : gmap string (list Bug) * gmap string string) (issue : Bug)
  : gmap string (list Bug) * gmap string string :=
  if negb (String.eqb (SprintID issue) "") then
    if negb (passesFilter nameFilter (SprintName issue)) then acc
    else (<[SprintID issue :=
              default [] (fst acc !! SprintID issue) ++ [issue]]> (fst acc),
          <[SprintID issue := SprintName issue]> (snd acc))
  else acc.

Definition groupBySprint (nameFilter : option Regexp) (sprintIssues : list Bug)
  : gmap string (list Bug) * gmap string string :=
  fold_left (groupStep nameFilter) sprintIssues (∅, ∅).

(** The four running totals of the per-sprint loop. *)
Record Tally : Type := mkTally {
  bugCount : Z;
  otherCount : Z;
  bugStoryPoints : float64;
  totalStoryPoints : float64
}.

Definition tallyStep (acc : Tally) (issue : Bug) : Tally :=
  if String.eqb (IssueType issue) "Bug"
  then mkTally (bugCount acc + 1) (otherCount acc)
               (F64.add (bugStoryPoints acc) (StoryPoints issue))
               (F64.add (totalStoryPoints acc) (StoryPoints issue))
  else mkTally (bugCount acc) (otherCount acc + 1)
               (bugStoryPoints acc)
               (F64.add (totalStoryPoints acc) (StoryPoints issue)).

Definition tally (issues : list Bug) : Tally :=
  fold_left tallyStep issues (mkTally 0 0 F64.zero F64.zero).

(** The statistics record of one sprint group. *)
Definition statsOfSprint (sprintNames : gmap string string)
  (sprintID : string) (issues : list Bug) : Sprint.SprintStats :=
  let t := tally issues in
  let totalCount := bugCount t + otherCount t in
  let bugPercentage :=
    if 0 <? totalCount
    then F64.mul (F64.div (F64.of_int (bugCount t)) (F64.of_int totalCount))
                 (F64.of_int 100)
    else F64.zero in
  let pointsPercentage :=
    if F64.gtb (totalStoryPoints t) F64.zero
    then F64.mul (F64.div (bugStoryPoints t) (totalStoryPoints t))
                 (F64.of_int 100)
    else F64.zero in
  Sprint.mk sprintID (default "" (sprintNames !! sprintID))
                 (bugCount t) (otherCount t) totalCount bugPercentage
                 (bugStoryPoints t) (totalStoryPoints t) pointsPercentage.

Definition nameLe (a b : Sprint.SprintStats) : Prop :=
  String.leb (Sprint.SprintName a) (Sprint.SprintName b) = true.

#[global] Instance nameLe_dec (a b : Sprint.SprintStats) : Decision (nameLe a b).
Proof. unfold nameLe. apply _. Defined.

(** [Analyzer.CalculateSprintStats]. The final sort is by sprint name; Go's
    [sort.Slice] leaves the order of equal names open. *)
Definition CalculateSprintStats (sprintIssues : list Bug)
  (sprintNameBeginsWith sprintNamePattern : string) : list Sprint.SprintStats :=
  let nameFilter := nameFilterOf sprintNameBeginsWith sprintNamePattern in
  let '(sprintGroups, sprintNames) := groupBySprint nameFilter sprintIssues in
  merge_sort nameLe
    (map (fun kv => statsOfSprint sprintNames (fst kv) (snd kv))
         (map_to_list sprintGroups)).

(** The issues of one sprint that a filter lets through, in input order;
    issues without a sprint id belong to no sprint. *)
Definition inSprint (nameFilter : option Regexp) (sprintID : string)
  (issue : Bug) : bool :=
  negb (String.eqb (SprintID issue) "") &&
  String.eqb (SprintID issue) sprintID &&
  passesFilter nameFilter (SprintName issue).

Definition issuesOfSprint (nameFilter : option Regexp) (sprintID : string)
  (sprintIssues : list Bug) : list Bug :=
  List.filter (inSprint nameFilter sprintID) sprintIssues.

End SprintAggregator.

Arguments nameFilterOf {Regexp} Compile QuoteMeta _ _.
Arguments passesFilter {Regexp} MatchString nameFilter sprintName.
Arguments ExtractAndFilterSprints {Regexp} Compile MatchString QuoteMeta bugs _ _.
Arguments groupStep {Regexp} MatchString nameFilter acc issue.
Arguments groupBySprint {Regexp} MatchString nameFilter sprintIssues.
Arguments CalculateSprintStats {Regexp} Compile MatchString QuoteMeta sprintIssues _ _.
Arguments inSprint {Regexp} MatchString nameFilter sprintID issue.
Arguments issuesOfSprint {Regexp} MatchString nameFilter sprintID sprintIssues.

(** Sums of story points, added left to right from 0.0 as the loop does. *)
Definition sumStoryPoints (issues : list Bug) : float64 :=
  fold_left (fun acc issue => F64.add acc (StoryPoints issue)) issues F64.zero.

Definition isBug (issue : Bug) : bool := String.eqb (IssueType issue) "Bug".

(** ** Further code: violation summary (internal/sla, internal/output) *)

(** [Evaluator.GetViolationSummary]: bucket name to bucket size; a later
    bucket of the same name overwrites the entry. *)
Definition GetViolationSummary (bg : BucketGroup) : gmap string Z :=
  fold_left (fun summary bucket => <[Name bucket := len (Bugs bucket)]> summary)
            (Buckets bg) ∅.

(** The total that [displaySummary] adds up and prints. *)
Definition totalViolations (bg : BucketGroup) : Z :=
  fold_left (fun total bucket => total + len (Bugs bucket)) (Buckets bg) 0.

(** *** The terms in which the result of [Evaluate] is described

    These are not functions of the program: they say, directly in terms of
    the input, which bug goes where. The first rule, in configured order,
    that the bug violates, and the test whether that rule sends the bug to
    the bucket of a given name. *)
Definition firstViolated (now : Time.t) (rules : list SLARule.t) (bug : Bug)
  : option SLARule.t :=
  find (fun r => Violates now r bug) rules.

Definition assignedTo (now : Time.t) (rules : list SLARule.t) (name : string)
  (bug : Bug) : bool :=
  match firstViolated now rules bug with
  | Some r => String.eqb (SLARule.BucketName r) name
  | None => false
  end.

(** The bucket names in the order in which the input first uses them. *)
Definition bucketNames (now : Time.t) (rules : list SLARule.t)
  (bugs : list Bug) : list string :=
  fold_left
    (fun names bug =>
       match firstViolated now rules bug with
       | Some r =>
           if existsb (String.eqb (SLARule.BucketName r)) names then names
           else names ++ [SLARule.BucketName r]
       | None => names
       end)
    bugs [].

(** The severity of the rule that sends the first bug to the named bucket. *)
Definition severityOf (now : Time.t) (rules : list SLARule.t) (name : string)
  (bugs : list Bug) : Z :=
  match find (assignedTo now rules name) bugs with
  | Some bug =>
      match firstViolated now rules bug with
      | Some r => SLARule.Severity r
      | None => 0
      end
  | None => 0
  end.

(** The bucket of a name: the bugs sent to it, in input order. *)
Definition bucketOf (now : Time.t) (rules : list SLARule.t) (bugs : list Bug)
  (name : string) : Bucket :=
  mkBucket name (severityOf now rules name bugs)
           (List.filter (assignedTo now rules name) bugs).

(** ** Further code: configuration validation (internal/config) *)

Module Config.

(** [config.JiraConfig] and [config.Config]. *)
Record JiraConfig : Type := mkJira {
  BaseURL : string;
  Email : string;
  APIToken : string;
  ProjectKeys : list string;
  ProjectKey : string
}.

Record t : Type := mk {
  Jira : JiraConfig;
  SLARules : list ConfigRule.t
}.

(** The errors [Validate] returns; [message] is the text of each. *)
Inductive Error : Type :=
| BaseURLRequired
| EmailRequired
| APITokenRequired
| ProjectRequired
| RuleRequired
| NameRequired (i : nat)
| MaxAgeNegative (i : nat)
| BucketRequired (i : nat)
| SeverityTooLow (i : nat).

Definition decimal (i : nat) : string :=
  NilEmpty.string_of_uint (Nat.to_uint i).

Definition message (e : Error) : string :=
  match e with
  | BaseURLRequired => "jira.base_url is required"
  | EmailRequired => "jira.email is required"
  | APITokenRequired => "jira.api_token is required"
  | ProjectRequired =>
      "either jira.project_keys or jira.project_key is required"
  | RuleRequired => "at least one SLA rule is required"
  | NameRequired i =>
      String.append "sla_rules[" (String.append (decimal i) "].name is required")
  | MaxAgeNegative i =>
      String.append "sla_rules["
        (String.append (decimal i) "].max_age_days must be non-negative")
  | BucketRequired i =>
      String.append "sla_rules[" (String.append (decimal i) "].bucket is required")
  | SeverityTooLow i =>
      String.append "sla_rules["
        (String.append (decimal i) "].severity must be >= 1")
  end.

(** The checks of one rule, in the order of the loop body. *)
Definition checkRule (i : nat) (rule : ConfigRule.t) : option Error :=
  if String.eqb (ConfigRule.Name rule) "" then Some (NameRequired i)
  else if F64.ltb (ConfigRule.MaxAgeDays rule) F64.zero
  then Some (MaxAgeNegative i)
  else if String.eqb (ConfigRule.Bucket rule) "" then Some (BucketRequired i)
  else if ConfigRule.Severity rule <? 1 then Some (SeverityTooLow i)
  else None.

(** The loop over the rules, from index [i]: the first failing check ends it. *)
Fixpoint checkRules (i : nat) (rules : list ConfigRule.t) : option Error :=
  match rules with
  | [] => None
  | rule :: rest =>
      match checkRule i rule with
      | Some e => Some e
      | None => checkRules (S i) rest
      end
  end.

(** [Config.Validate]: the configuration as the call leaves it (a lone
    [project_key] is moved into [project_keys] before the rules are looked
    at) and the error, [None] for nil. *)
Definition Validate (c : t) : t * option Error :=
  if String.eqb (BaseURL (Jira c)) "" then (c, Some BaseURLRequired)
  else if String.eqb (Email (Jira c)) "" then (c, Some EmailRequired)
  else if String.eqb (APIToken (Jira c)) "" then (c, Some APITokenRequired)
  else if (len (ProjectKeys (Jira c)) =? 0) &&
          String.eqb (ProjectKey (Jira c)) ""
  then (c, Some ProjectRequired)
  else
    let c' :=
      if negb (String.eqb (ProjectKey (Jira c)) "") &&
         (len (ProjectKeys (Jira c)) =? 0)
      then mk (mkJira (BaseURL (Jira c)) (Email (Jira c)) (APIToken (Jira c))
                      [ProjectKey (Jira c)] (ProjectKey (Jira c)))
              (SLARules c)
      else c in
    if len (SLARules c') =? 0 then (c', Some RuleRequired)
    else (c', checkRules 0 (SLARules c')).

End Config.

(** ** Further code: report helpers (internal/output, internal/cli) *)

(** [truncateString]; strings are byte strings and [None] is the run-time
    panic of a slice expression with a negative bound. *)
Definition truncateString (s : string) (maxLen : Z) : option string :=
  if Z.of_nat (String.length s) <=? maxLen then Some s
  else if maxLen <=? 3 then
    if 0 <=? maxLen then Some (substring 0 (Z.to_nat maxLen) s) else None
  else Some (String.append (substring 0 (Z.to_nat (maxLen - 3)) s) "...").

(** [countBugsWithSprints]. *)
Definition countBugsWithSprints (bugs : list Bug) : Z :=
  fold_left
    (fun count bug =>
       if negb (String.eqb (SprintID bug) "") then count + 1 else count)
    bugs 0.

(** ** Further code: the outcome of the check command (internal/cli,
    internal/output)

    What the command prints is kept as the choice between its three reports,
    and how it ends as the choice between returning nil and [os.Exit]. *)
Inductive Printed : Type :=
| NoUnresolvedBugs                      (* "No unresolved bugs found!" *)
| AllCompliant                          (* "All bugs are compliant with SLA rules!" *)
| ViolationReport (bg : BucketGroup).   (* the tables and the summary *)

Inductive Ending : Type :=
| ReturnNil
| Exit (code : Z).

(** [output.DisplayBuckets]. *)
Definition DisplayBuckets (bucketGroup : BucketGroup) : Printed :=
  if len (Buckets bucketGroup) =? 0 then AllCompliant
  else ViolationReport bucketGroup.

(** [runCheck] from the point where the bugs have been fetched, with the
    rules of the loaded configuration. *)
Definition runCheck (now : Time.t) (SLARules : list ConfigRule.t)
  (bugs : list Bug) : Printed * Ending :=
  if len bugs =? 0 then (NoUnresolvedBugs, ReturnNil)
  else
    let bucketGroup := Evaluate now (NewEvaluator SLARules) bugs in
    let printed := DisplayBuckets bucketGroup in
    if 0 <? len (Buckets bucketGroup) then (printed, Exit 1)
    else (printed, ReturnNil).

(** ** Further code: the project banner of the check command (internal/cli)

    [runCheck] shortens the list of project keys it prints with [append] on
    a prefix of the configured slice. A slice is a view of a backing array
    that other slices may share, so the slice header and the store of arrays
    are kept apart. Only prefixes [s[:n]] occur: every slice starts at the
    first element of its array. *)
Module GoSlice.

Record t : Type := mk {
  ptr : nat;   (* the backing array *)
  len : nat;
  cap : nat
}.

Abbreviation Heap := (gmap nat (list string)).

Definition array (h : Heap) (s : t) : list string := default [] (h !! ptr s).

(** The elements of the slice as a reader of the store sees them. *)
Definition elems (h : Heap) (s : t) : list string := firstn (len s) (array h s).

(** The header describes an allocated array of its capacity. *)
Definition wf (h : Heap) (s : t) : Prop :=
  (exists a, h !! ptr s = Some a /\ length a = cap s) /\ (len s <= cap s)%nat.

(** [s[:n]]; [None] is the run-time panic when [n] exceeds the capacity. *)
Definition upto (s : t) (n : nat) : option t :=
  if (n <=? cap s)%nat then Some (mk (ptr s) n (cap s)) else None.

(** [append(s, x)]: the element is written into the backing array when the
    capacity allows, and into a new array otherwise. How much spare capacity
    a new array gets is left open by the language; none is modelled. *)
Definition append (h : Heap) (s : t) (x : string) : Heap * t :=
  if (len s <? cap s)%nat
  then (<[ptr s := <[len s := x]> (array h s)]> h,
        mk (ptr s) (S (len s)) (cap s))
  else
    let p := fresh (dom h) in
    (<[p := elems h s ++ [x]]> h, mk p (S (len s)) (S (len s))).

End GoSlice.

(** [fmt.Sprintf] of the banner's last entry, for a positive count. *)
Definition moreLabel (n : nat) : string :=
  String.append "... +" (String.append (Config.decimal n) " more").

(** The banner block of [runCheck]: the slice [projectNames] that is printed,
    and the store as the statements leave it. The configured slice
    [cfg.Jira.ProjectKeys] keeps its header; [None] is a run-time panic. *)
Definition projectNames (h : GoSlice.Heap) (projectKeys : GoSlice.t)
  : option (GoSlice.Heap * GoSlice.t) :=
  if (3 <? GoSlice.len projectKeys)%nat then
    match GoSlice.upto projectKeys 3 with
    | Some firstThree =>
        Some (GoSlice.append h firstThree
                (moreLabel (GoSlice.len projectKeys - 3)))
    | None => None
    end
  else Some (h, projectKeys).

(** ** Sign of a float64, for the further properties

    Zero of either sign, a negative number, negative infinity; NaN, which
    compares false with everything, is let through. *)
Definition notPositive (x : float64) : bool :=
  match x with
  | S754_zero _ => true
  | S754_finite s _ _ => s
  | S754_infinity s => s
  | S754_nan => true
  end.

(** The totals that [displaySprintStats] adds up for its summary: bugs and
    other issues over all the entries. *)
Definition sprintSummary (sprintStats : list Sprint.SprintStats) : Z * Z :=
  fold_left
    (fun totals s =>
       (fst totals + Sprint.BugCount s, snd totals + Sprint.OtherCount s))
    sprintStats (0, 0).

(** ** The specification's wording, for comparison with the code *)

(** The backlog test of the specification: created on or before the instant,
    and either no resolution or a resolution timestamp strictly after it. *)
Definition inBacklogAt (instant : Time.t) (bug : Bug) : bool :=
  (Time.wall (Created bug) <=? Time.wall instant) &&
  (String.eqb (Resolution bug) "" ||
   match ResolutionDate bug with
   | Some d => Time.wall instant <? Time.wall d
   | None => false
   end).

(** The final instant of a month as the specification words it: the last
    instant before the following month begins, one nanosecond being the
    resolution of a timestamp. *)
Definition finalInstant (month : Time.t) : Time.t :=
  Time.mk (Time.wall (Time.Date (Time.Year month) (Time.Month month + 1)
                                1 0 0 0 0) - 1)
          0.

(** The goal formula as the specification writes it,
    round(lastYear x (1 - goal/100)), evaluated in float64. *)
Definition goalTargetAsWritten (lastYearCount : Z) (reductionPercent : float64)
  : Z :=
  F64.to_int
    (F64.Round
       (F64.mul (F64.of_int lastYearCount)
                (F64.sub (F64.of_int 1)
                         (F64.div reductionPercent (F64.of_int 100))))).

(** The same product in exact arithmetic, as a fraction: with the goal
    [num/den] it is [lastYear * (100 * den - num) / (100 * den)]. *)
Definition goalProductExact (lastYearCount : Z) (reductionPercent : float64)
  : option (Z * Z) :=
  match F64.to_frac reductionPercent with
  | Some (num, den) => Some (lastYearCount * (100 * den - num), 100 * den)
  | None => None
  end.

(** [n] is an integer nearest to the fraction [q], whichever way halves go. *)
Definition nearestInteger (q : Z * Z) (n : Z) : bool :=
  2 * Z.abs (n * snd q - fst q) <=? Z.abs (snd q).

(** ** Sample data used by the examples below *)

Module Sample.

Definition now : Time.t := Time.Date 2024 6 15 12 0 0 0.

Definition hour : Z := 3600 * 1000000000.

(** An unresolved bug last updated [age] nanoseconds before [now]. *)
Definition agedBug (key priority status : string) (age : Z) : Bug :=
  mkBug key "" priority status "Bug"
        (Time.mk (Time.wall now - age) 0) (Time.mk (Time.wall now - age) 0)
        "" None "" "" F64.zero "".

Definition quarter : float64 := F64.div (F64.of_int 1) (F64.of_int 4).
Definition half : float64 := F64.div (F64.of_int 1) (F64.of_int 2).

Definition urgent : SLARule.t :=
  SLARule.mk "Critical bugs need immediate triage" "Critical" ["Needs Triage"]
         quarter "URGENT" 1.

Definition high : SLARule.t :=
  SLARule.mk "Critical bugs aging" "Critical" [] (F64.of_int 3) "HIGH" 2.

Definition stale : SLARule.t :=
  SLARule.mk "Anything untouched for half a day" "" [] half "STALE" 3.

Definition issue1 : Bug := agedBug "P-1" "Critical" "Needs Triage" (240 * hour).
Definition issue2 : Bug := agedBug "P-2" "Critical" "Backlog" (144 * 60 * 1000000000).
Definition issue3 : Bug := agedBug "P-3" "Low" "Backlog" (2400 * hour).

(** A critical bug one day old, and one exactly six hours old. *)
Definition dayOld : Bug := agedBug "P-4" "Critical" "Backlog" (24 * hour).
Definition sixHours : Bug := agedBug "P-5" "Critical" "Needs Triage" (6 * hour).

(** A history for the trend analyzer: 125 bugs created in June 2023, one of
    them resolved at 23:59:59 on the last day of that month, and three bugs
    created in June 2024, the month of [now]. *)
Definition lastJune : Time.t := Time.Date 2023 6 10 9 0 0 0.
Definition juneEnd : Time.t := Time.Date 2023 6 30 23 59 59 0.
Definition thisJune : Time.t := Time.Date 2024 6 2 9 0 0 0.

Definition createdBug (key : string) (created : Time.t) (resolution : string)
  (resolutionDate : option Time.t) : Bug :=
  mkBug key "" "High" "Backlog" "Bug" created created
        resolution resolutionDate "" "" F64.zero "".

Definition resolvedAtEnd : Bug := createdBug "H-0" lastJune "Done" (Some juneEnd).
Definition openBug : Bug := createdBug "H-1" lastJune "" None.
Definition freshBug : Bug := createdBug "N-1" thisJune "" None.

Definition history : list Bug :=
  resolvedAtEnd :: repeat openBug 124 ++ repeat freshBug 3.

(** A reduction goal of 92.4 percent. *)
Definition goal924 : float64 := F64.div (F64.of_int 924) (F64.of_int 10).

Definition trend : TrendStats := Analyze now goal924 history.

(** The first month of the sample series (June 2023). *)
Definition firstMonth : MonthlyBugStats :=
  nth 0 (MonthlyData trend) (mkMonthly now 0 0 0 0 F64.zero ∅).

(** The second month of the sample series (June 2024). *)
Definition secondMonth : MonthlyBugStats :=
  nth 1 (MonthlyData trend) (mkMonthly now 0 0 0 0 F64.zero ∅).

(** Issues of two sprints and one issue outside any sprint. *)
Definition sprintIssue (key issueType sprintID sprintName : string)
  (points : Z) : Bug :=
  mkBug key "" "High" "Done" issueType lastJune lastJune "Done" (Some juneEnd)
        sprintID sprintName (F64.of_int points) "".

Definition sprintIssues : list Bug :=
  [sprintIssue "T-1" "Bug" "42" "TOOLS Sprint 1" 3;
   sprintIssue "T-2" "Story" "42" "TOOLS Sprint 1" 5;
   sprintIssue "T-3" "Unknown" "42" "TOOLS Sprint 1" 2;
   sprintIssue "T-4" "bug" "43" "PLAT Sprint 9" 1;
   sprintIssue "T-5" "Bug" "" "" 8].

(** A stand-in for the regexp package in the examples: patterns are literal
    prefixes, and the pattern "[" does not compile. *)
Definition compilePrefix (pattern : string) : option string :=
  if String.eqb pattern "[" then None else Some pattern.

Definition quoteNothing (text : string) : string := text.

Definition hasPrefix (pattern name : string) : bool :=
  String.prefix (match pattern with
                 | String "^"%char rest => rest
                 | _ => pattern
                 end) name.

Definition sprintStats : list Sprint.SprintStats :=
  CalculateSprintStats compilePrefix hasPrefix quoteNothing sprintIssues "" "[".

Definition firstSprint : Sprint.SprintStats :=
  nth 0 sprintStats
      (Sprint.mk "" "" 0 0 0 F64.zero F64.zero F64.zero F64.zero).

Definition secondSprint : Sprint.SprintStats :=
  nth 1 sprintStats
      (Sprint.mk "" "" 0 0 0 F64.zero F64.zero F64.zero F64.zero).

(** A configuration that still uses the single, older project key. *)
Definition configRule : ConfigRule.t :=
  ConfigRule.mk "Critical bugs need immediate triage" "Critical"
                ["Needs Triage"] quarter "URGENT" 1.

Definition config : Config.t :=
  Config.mk (Config.mkJira "https://example.atlassian.net" "dev@example.com"
                           "token" [] "TOOLS")
            [configRule].

(** A bug whose last update lies one hour after [now]. *)
Definition ahead : Bug := agedBug "P-6" "Critical" "Needs Triage" (- hour).

(** Five configured project keys in an array of capacity five. *)
Definition keysHeap : GoSlice.Heap := {[ 0%nat := ["A"; "B"; "C"; "D"; "E"] ]}.
Definition keys : GoSlice.t := GoSlice.mk 0 5 5.

(** A configuration whose second rule names no bucket. *)
Definition badConfig : Config.t :=
  Config.mk (Config.mkJira "https://example.atlassian.net" "dev@example.com"
                           "token" ["TOOLS"] "")
            [configRule;
             ConfigRule.mk "No bucket" "" [] half "" 0].

(** A bug resolved half a second before July 2023 begins. *)
Definition lastHalfSecond : Time.t := Time.Date 2023 6 30 23 59 59 500000000.
Definition lateResolved : Bug :=
  createdBug "H-2" lastJune "Done" (Some lastHalfSecond).

(** Two issues of one sprint, neither with story points. *)
Definition unestimated : list Bug :=
  [sprintIssue "U-1" "Bug" "7" "PLAT Sprint 1" 0;
   sprintIssue "U-2" "Story" "7" "PLAT Sprint 1" 0].

Definition unestimatedSprint : Sprint.SprintStats :=
  nth 0 (CalculateSprintStats compilePrefix hasPrefix quoteNothing
                              unestimated "" "")
      (Sprint.mk "" "" 0 0 0 F64.zero F64.zero F64.zero F64.zero).

(** An unresolved bug created half a second before July 2023 begins. *)
Definition lateCreated : Bug := createdBug "H-3" lastHalfSecond "" None.

End Sample.

(** * Properties *)

(** ** Rule matcher *)

Lemma SFltb_irrefl_eq (x y : spec_float) :
  SFeqb x y = true -> SFltb y x = false.
Proof.
  unfold SFeqb, SFltb.
  destruct x as [sx | sx | | sx mx ex], y as [sy | sy | | sy my ey];
    simpl; try discriminate; try reflexivity;
    try (destruct sx; simpl; (discriminate || reflexivity));
    try (destruct sy; simpl; (discriminate || reflexivity));
    try (destruct sx, sy; simpl; (discriminate || reflexivity)).
  destruct sx, sy; simpl; try discriminate.
  all: rewrite (Z.compare_antisym ey ex).
  all: destruct (ey ?= ex)%Z eqn:He; simpl; try discriminate.
  all: change (Pos.compare_cont Eq my mx)
         with (Pos.compare_cont (CompOpp Eq) my mx).
  all: rewrite <- (Pos.compare_cont_antisym mx my Eq).
  all: destruct (Pos.compare_cont Eq mx my); simpl;
    (discriminate || reflexivity).
Qed.

Lemma statusMatch_In (statuses : list string) (status : string) :
  statusMatch statuses status = true <-> In status statuses.
Proof.
  induction statuses as [| s rest IH]; simpl.
  - split; [discriminate | tauto].
  - destruct (String.eqb s status) eqn:E.
    + apply String.eqb_eq in E. tauto.
    + apply String.eqb_neq in E. rewrite IH. split; [tauto |].
      intros [H | H]; [contradiction | exact H].
Qed.

Lemma Matches_bool (r : SLARule.t) (bug : Bug) :
  Matches r bug =
  (String.eqb (SLARule.Priority r) "" ||
   String.eqb (SLARule.Priority r) (Priority bug)) &&
  match SLARule.Status r with
  | [] => true
  | s :: rest => statusMatch (s :: rest) (Status bug)
  end.
Proof.
  unfold Matches.
  destruct (String.eqb (SLARule.Priority r) "");
    destruct (String.eqb (SLARule.Priority r) (Priority bug));
    simpl; try reflexivity.
  all: destruct (SLARule.Status r) as [| s rest]; [reflexivity |].
  all: change (0 <? Z.of_nat (length (s :: rest))) with true.
  all: change (if String.eqb s (Status bug) then true
               else statusMatch rest (Status bug))
         with (statusMatch (s :: rest) (Status bug)).
  all: destruct (statusMatch (s :: rest) (Status bug)); reflexivity.
Qed.

(** [Matches] holds iff the rule's priority is empty or equal to the bug's,
    and its status list is empty or contains the bug's status. *)
Lemma Matches_spec (r : SLARule.t) (bug : Bug) :
  Matches r bug = true <->
  (SLARule.Priority r = "" \/ SLARule.Priority r = Priority bug) /\
  (SLARule.Status r = [] \/ In (Status bug) (SLARule.Status r)).
Proof.
  rewrite Matches_bool, andb_true_iff, orb_true_iff, !String.eqb_eq.
  destruct (SLARule.Status r) as [| s rest].
  - intuition.
  - rewrite statusMatch_In. intuition discriminate.
Qed.

(** C4. [Violates] is true iff [Matches] holds and the age in days is
    strictly greater than [MaxAgeDays]; an issue whose age in days equals
    [MaxAgeDays] never violates. The evaluation time [now] is fixed. *)
Theorem Violates_iff_matches_and_older
  (now : Time.t) (r : SLARule.t) (bug : Bug) :
  (Violates now r bug = true <->
   Matches r bug = true /\
   F64.gtb (AgeDays now bug) (SLARule.MaxAgeDays r) = true) /\
  (F64.eqb (AgeDays now bug) (SLARule.MaxAgeDays r) = true ->
   Violates now r bug = false).
Proof.
  unfold Violates. split.
  - apply andb_true_iff.
  - intros H. unfold F64.gtb, F64.eqb in *.
    rewrite (SFltb_irrefl_eq _ _ H). apply andb_false_r.
Qed.

(** ** Bucket aggregator *)

Lemma appendToNamed_None (name : string) (bug : Bug) (bs : list Bucket) :
  appendToNamed name bug bs = None <-> Forall (fun c => Name c <> name) bs.
Proof.
  induction bs as [| b rest IH]; simpl.
  - split; [constructor | reflexivity].
  - destruct (String.eqb (Name b) name) eqn:E.
    + apply String.eqb_eq in E. split; [discriminate |].
      intros H. inversion H; subst. contradiction.
    + apply String.eqb_neq in E.
      destruct (appendToNamed name bug rest) as [bs' |]; simpl.
      * split; [discriminate |]. intros H. inversion H; subst.
        apply IH in H3. discriminate.
      * split; [| reflexivity]. intros _. constructor; [exact E |].
        apply IH. reflexivity.
Qed.

Lemma appendToNamed_Some (name : string) (bug : Bug)
  (pre : list Bucket) (b : Bucket) (post : list Bucket) :
  Forall (fun c => Name c <> name) pre -> Name b = name ->
  appendToNamed name bug (pre ++ b :: post) =
  Some (pre ++ mkBucket (Name b) (Severity b) (Bugs b ++ [bug]) :: post).
Proof.
  intros Hpre Hb. induction Hpre as [| c pre Hc Hpre IH]; simpl.
  - apply String.eqb_eq in Hb. rewrite Hb. reflexivity.
  - apply String.eqb_neq in Hc. rewrite Hc, IH. reflexivity.
Qed.

Lemma first_named_split (name : string) (bs : list Bucket) :
  Exists (fun c => Name c = name) bs ->
  exists pre b post,
    bs = pre ++ b :: post /\
    Forall (fun c => Name c <> name) pre /\ Name b = name.
Proof.
  induction bs as [| a rest IH]; intros H.
  - inversion H.
  - destruct (decide (Name a = name)) as [Ha | Ha].
    + exists [], a, rest. repeat split; [constructor | exact Ha].
    + assert (Hrest : Exists (fun c => Name c = name) rest)
        by (inversion H; subst; [contradiction | assumption]).
      destruct (IH Hrest) as (pre & b & post & Hbs & Hpre & Hb).
      exists (a :: pre), b, post. subst rest.
      repeat split; [constructor; assumption | exact Hb].
Qed.

(** C6. When a bucket of the given name exists, [AddToBucket] appends the
    issue to the end of the first such bucket and leaves its name, its
    severity, every other bucket and the number of buckets as they were,
    whatever severity is passed; when none exists it appends a new bucket
    with the given name and severity holding just the issue. *)
Theorem AddToBucket_appends_or_creates
  (bucketName : string) (severity : Z) (bug : Bug) (bg : BucketGroup) :
  (forall pre b post,
     Buckets bg = pre ++ b :: post ->
     Forall (fun c => Name c <> bucketName) pre ->
     Name b = bucketName ->
     Buckets (AddToBucket bucketName severity bug bg) =
       pre ++ mkBucket bucketName (Severity b) (Bugs b ++ [bug]) :: post) /\
  (Forall (fun c => Name c <> bucketName) (Buckets bg) ->
   Buckets (AddToBucket bucketName severity bug bg) =
     Buckets bg ++ [mkBucket bucketName severity [bug]]) /\
  (Exists (fun c => Name c = bucketName) (Buckets bg) ->
   length (Buckets (AddToBucket bucketName severity bug bg)) =
     length (Buckets bg) /\
   map Severity (Buckets (AddToBucket bucketName severity bug bg)) =
     map Severity (Buckets bg)).
Proof.
  assert (Hfirst : forall pre b post,
     Buckets bg = pre ++ b :: post ->
     Forall (fun c => Name c <> bucketName) pre ->
     Name b = bucketName ->
     Buckets (AddToBucket bucketName severity bug bg) =
       pre ++ mkBucket bucketName (Severity b) (Bugs b ++ [bug]) :: post).
  { intros pre b post Hbs Hpre Hb. unfold AddToBucket. rewrite Hbs.
    rewrite (appendToNamed_Some _ _ _ _ _ Hpre Hb). simpl. now rewrite Hb. }
  split; [exact Hfirst | split].
  - intros Hall. unfold AddToBucket.
    apply (appendToNamed_None bucketName bug) in Hall. now rewrite Hall.
  - intros Hex.
    destruct (first_named_split _ _ Hex) as (pre & b & post & Hbs & Hpre & Hb).
    rewrite (Hfirst pre b post Hbs Hpre Hb), Hbs.
    rewrite !length_app, !map_app. split; reflexivity.
Qed.

Example AddToBucket_keeps_severity :
  AddToBucket "URGENT" 7 Sample.issue2
    (AddToBucket "URGENT" 1 Sample.issue1 (mkGroup [])) =
  mkGroup [mkBucket "URGENT" 1 [Sample.issue1; Sample.issue2]].
Proof. reflexivity. Qed.

(** ** SLA evaluator *)

(** The scan of one bug ends at the first rule the bug violates: a rule that
    matches without being violated does not stop it. *)
Lemma scanRules_first_violation (now : Time.t) (rules : list SLARule.t)
  (bug : Bug) (bg : BucketGroup) :
  scanRules now rules bug bg =
  match find (fun r => Violates now r bug) rules with
  | Some r => AddToBucket (SLARule.BucketName r) (SLARule.Severity r) bug bg
  | None => bg
  end.
Proof.
  induction rules as [| r rest IH]; simpl; [reflexivity |].
  unfold Violates at 2.
  destruct (Matches r bug) eqn:HM; simpl.
  - destruct (Violates now r bug) eqn:HV.
    + unfold Violates in HV. rewrite HM in HV. simpl in HV. now rewrite HV.
    + unfold Violates in HV. rewrite HM in HV. simpl in HV. now rewrite HV.
  - exact IH.
Qed.

(** C1, counterexample to the first-match reading. The rule [high] is the
    first that matches the day-old critical bug and it is not violated, yet
    the scan goes on to the later rule [stale], which the bug violates, and
    the bug is bucketed. *)
Theorem Evaluate_scans_past_compliant_match :
  firstMatch [Sample.high; Sample.stale] Sample.dayOld = Some Sample.high /\
  Violates Sample.now Sample.high Sample.dayOld = false /\
  Violates Sample.now Sample.stale Sample.dayOld = true /\
  Evaluate Sample.now [Sample.high; Sample.stale] [Sample.dayOld] =
    mkGroup [mkBucket "STALE" 3 [Sample.dayOld]].
Proof. vm_compute. repeat split; reflexivity. Qed.

(** The scenario of the specification: three issues, two rules, one bucket. *)
Example Evaluate_scenario :
  Evaluate Sample.now [Sample.urgent; Sample.high]
           [Sample.issue1; Sample.issue2; Sample.issue3] =
  mkGroup [mkBucket "URGENT" 1 [Sample.issue1]].
Proof. vm_compute. reflexivity. Qed.

(** At the threshold: a bug exactly six hours old matches a rule whose limit
    is a quarter of a day, its age equals the limit, and it does not violate
    the rule. *)
Lemma Violates_at_threshold_witness :
  Matches Sample.urgent Sample.sixHours = true /\
  F64.eqb (AgeDays Sample.now Sample.sixHours)
          (SLARule.MaxAgeDays Sample.urgent) = true /\
  Violates Sample.now Sample.urgent Sample.sixHours = false.
Proof.
  split; [vm_compute; reflexivity | split; [vm_compute; reflexivity |]].
  apply (proj2 (Violates_iff_matches_and_older
                  Sample.now Sample.urgent Sample.sixHours)).
  vm_compute. reflexivity.
Defined.

(** ** Sorting the buckets *)

Lemma swapStep_cons (a : Bucket) (l : list Bucket) (j : nat) :
  swapStep (a :: l) (S j) = a :: swapStep l j.
Proof.
  unfold swapStep. simpl.
  destruct (l !! j) as [x |], (l !! S j) as [y |]; try reflexivity.
  destruct (Severity y <? Severity x); reflexivity.
Qed.

Lemma swapStep_head (a b : Bucket) (rest : list Bucket) :
  swapStep (a :: b :: rest) 0 =
  if Severity b <? Severity a then b :: a :: rest else a :: b :: rest.
Proof. reflexivity. Qed.

Lemma fold_swapStep_shift (js : list nat) (a : Bucket) (l : list Bucket) :
  fold_left swapStep (map S js) (a :: l) = a :: fold_left swapStep js l.
Proof.
  revert l. induction js as [| j js IH]; intros l; simpl; [reflexivity |].
  rewrite swapStep_cons. apply IH.
Qed.

Lemma fold_swapStep_short (js : list nat) (l : list Bucket) :
  (length l <= 1)%nat -> fold_left swapStep js l = l.
Proof.
  intros Hl. induction js as [| j js IH]; simpl; [reflexivity |].
  replace (swapStep l j) with l; [exact IH |].
  destruct l as [| a [| b rest]]; simpl in Hl; try lia.
  - reflexivity.
  - unfold swapStep. simpl. destruct j; reflexivity.
Qed.

(** The index loop and its recursive reading agree. *)
Lemma fold_swapStep_bubble (k : nat) (l : list Bucket) :
  fold_left swapStep (seq 0 k) l = bubble k l.
Proof.
  revert l. induction k as [| k IH]; intros l; [reflexivity |].
  destruct l as [| a [| b rest]].
  - apply fold_swapStep_short. simpl. lia.
  - apply fold_swapStep_short. simpl. lia.
  - rewrite <- cons_seq, <- seq_shift. simpl fold_left.
    rewrite swapStep_head. simpl bubble.
    destruct (Severity b <? Severity a);
      rewrite fold_swapStep_shift, IH; reflexivity.
Qed.

Lemma sortPass_bubble (n : nat) (bs : list Bucket) (i : nat) :
  sortPass n bs i = bubble (n - i - 1) bs.
Proof. apply fold_swapStep_bubble. Qed.

Lemma bubble_Permutation (k : nat) (l : list Bucket) :
  Permutation (bubble k l) l.
Proof.
  revert l. induction k as [| k IH]; intros l; [destruct l; reflexivity |].
  destruct l as [| a [| b rest]]; try reflexivity. simpl.
  destruct (Severity b <? Severity a).
  - rewrite IH. apply perm_swap.
  - rewrite IH. reflexivity.
Qed.

Lemma bubble_length (k : nat) (l : list Bucket) :
  length (bubble k l) = length l.
Proof. apply Permutation_length, bubble_Permutation. Qed.

(** A pass never changes the order of the buckets of any one severity. *)
Lemma bubble_filter (s : Z) (k : nat) (l : list Bucket) :
  List.filter (hasSeverity s) (bubble k l) = List.filter (hasSeverity s) l.
Proof.
  revert l. induction k as [| k IH]; intros l; [destruct l; reflexivity |].
  destruct l as [| a [| b rest]]; try reflexivity. simpl bubble.
  destruct (Severity b <? Severity a) eqn:E.
  - apply Z.ltb_lt in E. simpl. rewrite IH. simpl. unfold hasSeverity.
    destruct (Severity b =? s) eqn:Eb, (Severity a =? s) eqn:Ea;
      try reflexivity.
    apply Z.eqb_eq in Ea, Eb. lia.
  - simpl. rewrite IH. reflexivity.
Qed.

(** A pass of [k] steps leaves everything after position [k] alone. *)
Lemma bubble_app (k : nat) (pre suf : list Bucket) :
  (k < length pre)%nat -> bubble k (pre ++ suf) = bubble k pre ++ suf.
Proof.
  revert pre. induction k as [| k IH]; intros pre Hk.
  - destruct pre; reflexivity.
  - destruct pre as [| a [| b rest]]; simpl in Hk; try lia.
    simpl. destruct (Severity b <? Severity a).
    + exact (f_equal (cons b) (IH (a :: rest) ltac:(simpl; lia))).
    + exact (f_equal (cons a) (IH (b :: rest) ltac:(simpl; lia))).
Qed.

(** A full pass moves a bucket of largest severity to the end. *)
Lemma bubble_last (k : nat) (l : list Bucket) :
  length l = S k ->
  exists l' m, bubble k l = l' ++ [m] /\
               Forall (fun x => Severity x <= Severity m) l'.
Proof.
  revert l. induction k as [| k IH]; intros l Hl.
  - destruct l as [| a [| b rest]]; simpl in Hl; try lia.
    exists [], a. split; [reflexivity | constructor].
  - destruct l as [| a [| b rest]]; simpl in Hl; try lia.
    simpl. destruct (Severity b <? Severity a) eqn:E.
    + apply Z.ltb_lt in E.
      destruct (IH (a :: rest)) as (l' & m & Heq & Hle); [simpl; lia |].
      exists (b :: l'), m. rewrite Heq. split; [reflexivity |].
      constructor; [| exact Hle].
      assert (Ha : In a (l' ++ [m])).
      { rewrite <- Heq.
        apply (Permutation_in a
                 (Permutation_sym (bubble_Permutation k (a :: rest)))).
        now left. }
      apply in_app_or in Ha. destruct Ha as [Ha | [Ha | []]].
      * rewrite List.Forall_forall in Hle. specialize (Hle a Ha). lia.
      * subst. lia.
    + apply Z.ltb_ge in E.
      destruct (IH (b :: rest)) as (l' & m & Heq & Hle); [simpl; lia |].
      exists (a :: l'), m. rewrite Heq. split; [reflexivity |].
      constructor; [| exact Hle].
      assert (Hb : In b (l' ++ [m])).
      { rewrite <- Heq.
        apply (Permutation_in b
                 (Permutation_sym (bubble_Permutation k (b :: rest)))).
        now left. }
      apply in_app_or in Hb. destruct Hb as [Hb | [Hb | []]].
      * rewrite List.Forall_forall in Hle. specialize (Hle b Hb). lia.
      * subst. lia.
Qed.

Lemma fold_sortPass_Permutation (n : nat) (passes : list nat) (bs : list Bucket) :
  Permutation (fold_left (sortPass n) passes bs) bs.
Proof.
  revert bs. induction passes as [| i passes IH]; intros bs; simpl.
  - reflexivity.
  - rewrite IH, sortPass_bubble. apply bubble_Permutation.
Qed.

Lemma fold_sortPass_filter (s : Z) (n : nat) (passes : list nat)
  (bs : list Bucket) :
  List.filter (hasSeverity s) (fold_left (sortPass n) passes bs) =
  List.filter (hasSeverity s) bs.
Proof.
  revert bs. induction passes as [| i passes IH]; intros bs; simpl.
  - reflexivity.
  - rewrite IH, sortPass_bubble. apply bubble_filter.
Qed.

(** Invariant of the outer loop: after [c] passes the last [c] buckets are
    sorted and every bucket before them has a severity no larger than theirs. *)
Lemma outer_loop_invariant (n c : nat) (bs : list Bucket) :
  length bs = n -> (c <= n - 1)%nat ->
  exists pre suf,
    fold_left (sortPass n) (seq 0 c) bs = pre ++ suf /\
    length suf = c /\ length (pre ++ suf) = n /\
    StronglySorted severityLe suf /\
    Forall (fun x => Forall (fun y => Severity x <= Severity y) suf) pre.
Proof.
  intros Hn. induction c as [| c IH]; intros Hc.
  - exists bs, []. rewrite app_nil_r. simpl.
    repeat split; try assumption; try constructor.
    apply List.Forall_forall. intros x _. constructor.
  - destruct IH as (pre & suf & Hfold & Hsuf & Hlen & Hsorted & Hpre); [lia |].
    rewrite seq_S, fold_left_app, Hfold. simpl.
    rewrite sortPass_bubble.
    rewrite length_app in Hlen.
    rewrite bubble_app by lia.
    destruct (bubble_last (n - c - 1) pre) as (l' & m & Heq & Hle); [lia |].
    rewrite Heq, <- app_assoc. simpl.
    assert (Hperm : Permutation (l' ++ [m]) pre)
      by (rewrite <- Heq; apply bubble_Permutation).
    assert (Hin : forall x, In x (l' ++ [m]) -> In x pre)
      by (intros x; apply Permutation_in; exact Hperm).
    rewrite List.Forall_forall in Hpre.
    exists l', (m :: suf). repeat split.
    + simpl. lia.
    + apply Permutation_length in Hperm. rewrite !length_app in *.
      simpl in *. lia.
    + constructor; [exact Hsorted |].
      apply Hpre, Hin, in_or_app. right. now left.
    + apply List.Forall_forall. intros x Hx. constructor.
      * rewrite List.Forall_forall in Hle. apply Hle, Hx.
      * apply Hpre, Hin, in_or_app. now left.
Qed.

Lemma sortBuckets_StronglySorted (bs : list Bucket) :
  StronglySorted severityLe (sortBuckets bs).
Proof.
  unfold sortBuckets.
  destruct (outer_loop_invariant (length bs) (length bs - 1) bs eq_refl)
    as (pre & suf & Hfold & Hsuf & Hlen & Hsorted & Hpre); [lia |].
  rewrite Hfold. rewrite length_app in Hlen.
  destruct pre as [| x [| y pre]]; simpl in *.
  - exact Hsorted.
  - constructor; [exact Hsorted |]. now inversion Hpre.
  - lia.
Qed.

Lemma sortBuckets_Permutation (bs : list Bucket) :
  Permutation (sortBuckets bs) bs.
Proof. apply fold_sortPass_Permutation. Qed.

Lemma sortBuckets_filter (s : Z) (bs : list Bucket) :
  List.filter (hasSeverity s) (sortBuckets bs) = List.filter (hasSeverity s) bs.
Proof. apply fold_sortPass_filter. Qed.

(** The reference sort is sorted and keeps the order within a severity. *)
Lemma insertBySeverity_In (b x : Bucket) (l : list Bucket) :
  In x (insertBySeverity b l) -> x = b \/ In x l.
Proof.
  induction l as [| c rest IH]; simpl.
  - intros [H | []]. now left.
  - destruct (Severity b <=? Severity c); simpl.
    + intros [H | H]; [now left | now right].
    + intros [H | H]; [right; now left |].
      destruct (IH H) as [H' | H']; [now left | right; now right].
Qed.

Lemma insertBySeverity_StronglySorted (b : Bucket) (l : list Bucket) :
  StronglySorted severityLe l -> StronglySorted severityLe (insertBySeverity b l).
Proof.
  induction 1 as [| c rest Hs IH Hc]; simpl.
  - repeat constructor.
  - destruct (Severity b <=? Severity c) eqn:E.
    + apply Z.leb_le in E. constructor; [now constructor |].
      constructor; [exact E |].
      rewrite List.Forall_forall in *. intros x Hx. specialize (Hc x Hx).
      unfold severityLe in *. lia.
    + apply Z.leb_gt in E. constructor; [exact IH |].
      rewrite List.Forall_forall in *. intros x Hx.
      apply insertBySeverity_In in Hx. destruct Hx as [-> | Hx].
      * unfold severityLe. lia.
      * now apply Hc.
Qed.

Lemma stableSort_StronglySorted (l : list Bucket) :
  StronglySorted severityLe (stableSortBySeverity l).
Proof.
  induction l as [| b rest IH]; simpl; [constructor |].
  now apply insertBySeverity_StronglySorted.
Qed.

Lemma insertBySeverity_filter (s : Z) (b : Bucket) (l : list Bucket) :
  List.filter (hasSeverity s) (insertBySeverity b l) =
  List.filter (hasSeverity s) (b :: l).
Proof.
  induction l as [| c rest IH]; [reflexivity |]. simpl insertBySeverity.
  destruct (Severity b <=? Severity c) eqn:E; [reflexivity |].
  apply Z.leb_gt in E. simpl. rewrite IH. simpl. unfold hasSeverity.
  destruct (Severity b =? s) eqn:Eb, (Severity c =? s) eqn:Ec; try reflexivity.
  apply Z.eqb_eq in Eb, Ec. lia.
Qed.

Lemma stableSort_filter (s : Z) (l : list Bucket) :
  List.filter (hasSeverity s) (stableSortBySeverity l) =
  List.filter (hasSeverity s) l.
Proof.
  induction l as [| b rest IH]; [reflexivity |]. simpl stableSortBySeverity.
  rewrite insertBySeverity_filter. simpl. now rewrite IH.
Qed.

(** Two sorted lists that agree on the sub-list of every severity are equal:
    sortedness and stability determine the result of a sort. *)
Lemma sorted_stable_unique (l1 l2 : list Bucket) :
  StronglySorted severityLe l1 -> StronglySorted severityLe l2 ->
  (forall s, List.filter (hasSeverity s) l1 = List.filter (hasSeverity s) l2) ->
  l1 = l2.
Proof.
  intros H1. revert l2.
  induction H1 as [| a t1 Ht1 IH Ha]; intros l2 H2 Hf.
  - destruct l2 as [| b t2]; [reflexivity |].
    specialize (Hf (Severity b)). simpl in Hf. unfold hasSeverity in Hf.
    rewrite Z.eqb_refl in Hf. discriminate.
  - destruct l2 as [| b t2].
    + specialize (Hf (Severity a)). simpl in Hf. unfold hasSeverity in Hf.
      rewrite Z.eqb_refl in Hf. discriminate.
    + inversion H2 as [| b' t2' Ht2 Hb]; subst.
      destruct (Z.eq_dec (Severity a) (Severity b)) as [E | E].
      * assert (Hab : a = b).
        { specialize (Hf (Severity a)). simpl in Hf. unfold hasSeverity in Hf.
          rewrite Z.eqb_refl, <- E, Z.eqb_refl in Hf. congruence. }
        subst b. f_equal. apply IH; [exact Ht2 |].
        intros s. specialize (Hf s). simpl in Hf.
        destruct (hasSeverity s a); congruence.
      * exfalso.
        assert (Hb1 : In b t1).
        { specialize (Hf (Severity b)). simpl in Hf. unfold hasSeverity in Hf.
          rewrite Z.eqb_refl in Hf.
          apply Z.eqb_neq in E. rewrite E in Hf.
          assert (Hin : In b (List.filter (fun c => Severity c =? Severity b) t1))
            by (rewrite Hf; now left).
          apply filter_In in Hin. tauto. }
        assert (Ha2 : In a t2).
        { specialize (Hf (Severity a)). simpl in Hf. unfold hasSeverity in Hf.
          rewrite Z.eqb_refl in Hf.
          assert (E' : Severity b <> Severity a) by congruence.
          apply Z.eqb_neq in E'. rewrite E' in Hf.
          assert (Hin : In a (List.filter (fun c => Severity c =? Severity a) t2))
            by (rewrite <- Hf; now left).
          apply filter_In in Hin. tauto. }
        rewrite List.Forall_forall in Ha, Hb.
        specialize (Ha b Hb1). specialize (Hb a Ha2).
        unfold severityLe in *. lia.
Qed.

(** C5. [Sort] reorders the buckets into non-decreasing severity order,
    buckets of equal severity keep their relative order (for every severity
    the sub-list of its buckets is unchanged), and the result is that of the
    stable sort by the integer severity key. *)
Theorem Sort_is_stable_sort (bg : BucketGroup) :
  Permutation (Buckets (Sort bg)) (Buckets bg) /\
  Sorted severityLe (Buckets (Sort bg)) /\
  (forall s, List.filter (hasSeverity s) (Buckets (Sort bg)) =
             List.filter (hasSeverity s) (Buckets bg)) /\
  Buckets (Sort bg) = stableSortBySeverity (Buckets bg).
Proof.
  simpl. split; [| split; [| split]].
  - apply sortBuckets_Permutation.
  - apply StronglySorted_Sorted, sortBuckets_StronglySorted.
  - intros s. apply sortBuckets_filter.
  - apply sorted_stable_unique.
    + apply sortBuckets_StronglySorted.
    + apply stableSort_StronglySorted.
    + intros s. now rewrite sortBuckets_filter, stableSort_filter.
Qed.

Example Sort_keeps_creation_order :
  Buckets (Sort (mkGroup [mkBucket "c" 3 []; mkBucket "a" 2 [];
                          mkBucket "b" 2 []; mkBucket "u" 1 []])) =
  [mkBucket "u" 1 []; mkBucket "a" 2 []; mkBucket "b" 2 []; mkBucket "c" 3 []].
Proof. reflexivity. Qed.

(** ** Exclusivity of the evaluation *)

Lemma bucketed_app (l1 l2 : list Bucket) :
  bucketed (mkGroup (l1 ++ l2)) = bucketed (mkGroup l1) ++ bucketed (mkGroup l2).
Proof. unfold bucketed. simpl. now rewrite map_app, concat_app. Qed.

Lemma bucketed_AddToBucket (name : string) (sev : Z) (bug : Bug)
  (bg : BucketGroup) :
  Permutation (bucketed (AddToBucket name sev bug bg)) (bug :: bucketed bg).
Proof.
  unfold AddToBucket. destruct bg as [bs]. simpl.
  destruct (appendToNamed name bug bs) as [bs' |] eqn:E.
  - revert bs' E. induction bs as [| b rest IH]; intros bs' E; simpl in E.
    + discriminate.
    + destruct (String.eqb (Name b) name).
      * injection E as <-. unfold bucketed. simpl.
        rewrite <- app_assoc. simpl.
        symmetry. apply Permutation_middle.
      * destruct (appendToNamed name bug rest) as [bs'' |]; [| discriminate].
        injection E as <-. specialize (IH bs'' eq_refl).
        unfold bucketed in *. simpl in *. rewrite IH.
        symmetry. apply Permutation_middle.
  - rewrite bucketed_app. unfold bucketed at 2. simpl.
    symmetry. apply Permutation_cons_append.
Qed.

Lemma find_existsb {A : Type} (f : A -> bool) (l : list A) :
  existsb f l = match find f l with Some _ => true | None => false end.
Proof.
  induction l as [| a rest IH]; simpl; [reflexivity |].
  destruct (f a); simpl; [reflexivity | exact IH].
Qed.

Lemma bucketed_scanRules (now : Time.t) (rules : list SLARule.t) (bug : Bug)
  (bg : BucketGroup) :
  Permutation (bucketed (scanRules now rules bug bg))
              (if violatesSome now rules bug then bug :: bucketed bg
               else bucketed bg).
Proof.
  rewrite scanRules_first_violation. unfold violatesSome.
  rewrite find_existsb.
  destruct (find (fun r => Violates now r bug) rules) as [r |].
  - apply bucketed_AddToBucket.
  - reflexivity.
Qed.

Lemma bucketed_fold (now : Time.t) (rules : list SLARule.t) (bugs : list Bug)
  (bg : BucketGroup) :
  Permutation
    (bucketed (fold_left (fun bg bug => scanRules now rules bug bg) bugs bg))
    (bucketed bg ++ List.filter (violatesSome now rules) bugs).
Proof.
  revert bg. induction bugs as [| bug rest IH]; intros bg; simpl.
  - now rewrite app_nil_r.
  - rewrite IH, bucketed_scanRules.
    destruct (violatesSome now rules bug).
    + simpl. apply Permutation_middle.
    + reflexivity.
Qed.

Lemma bucketed_Sort (bg : BucketGroup) :
  Permutation (bucketed (Sort bg)) (bucketed bg).
Proof.
  unfold bucketed. simpl. rewrite <- !flat_map_concat_map.
  apply Permutation_flat_map, sortBuckets_Permutation.
Qed.

(** C3. The bugs held by the buckets [Evaluate] returns are, up to order,
    the input bugs that violate some rule, each as often as it occurs in the
    input: no pass over the rules adds a bug twice. So no bug occurs in the
    buckets more often than in the input, and for an input without
    repetitions no bug is in two buckets or twice in one. *)
Theorem Evaluate_exclusive (now : Time.t) (rules : list SLARule.t)
  (bugs : list Bug) :
  Permutation (bucketed (Evaluate now rules bugs))
              (List.filter (violatesSome now rules) bugs) /\
  (forall b, (count_occ Bug_eq_dec (bucketed (Evaluate now rules bugs)) b <=
              count_occ Bug_eq_dec bugs b)%nat) /\
  (NoDup bugs -> NoDup (bucketed (Evaluate now rules bugs))).
Proof.
  assert (HP : Permutation (bucketed (Evaluate now rules bugs))
                           (List.filter (violatesSome now rules) bugs)).
  { unfold Evaluate, collect. rewrite bucketed_Sort, bucketed_fold.
    reflexivity. }
  split; [exact HP | split].
  - intros b. rewrite (Permutation_count_occ Bug_eq_dec) in HP.
    rewrite HP. clear HP.
    induction bugs as [| a rest IH]; simpl; [lia |].
    destruct (violatesSome now rules a); simpl;
      destruct (Bug_eq_dec a b); lia.
  - intros Hnd. apply NoDup_ListNoDup.
    apply (Permutation_NoDup (Permutation_sym HP)).
    apply List.NoDup_filter, NoDup_ListNoDup, Hnd.
Qed.

Lemma Evaluate_exclusive_witness :
  NoDup (bucketed (Evaluate Sample.now [Sample.urgent; Sample.stale]
                            [Sample.issue1; Sample.issue2; Sample.issue3])).
Proof.
  apply (proj2 (proj2 (Evaluate_exclusive Sample.now
                         [Sample.urgent; Sample.stale]
                         [Sample.issue1; Sample.issue2; Sample.issue3]))).
  apply NoDup_ListNoDup.
  repeat constructor; simpl; intuition discriminate.
Defined.

(** ** Calendar facts *)

Module TimeFacts.

Ltac divlia := Z.to_euclidean_division_equations; lia.

(** The month of a civil date is between 1 and 12. *)
Lemma civil_month_range (z : Z) :
  1 <= snd (fst (Time.civil_from_days z)) <= 12.
Proof.
  unfold Time.civil_from_days. cbv zeta. cbn [fst snd].
  set (z' := z + 719468).
  set (era := z' / 146097).
  set (doe := z' - era * 146097).
  assert (Hdoe : 0 <= doe <= 146096) by (subst doe era; divlia).
  clearbody doe. clear z' era.
  set (yoe := (doe - doe / 1460 + doe / 36524 - doe / 146096) / 365).
  set (doy := doe - (365 * yoe + yoe / 4 - yoe / 100)).
  assert (Hdoy : 0 <= doy <= 365) by (subst doy yoe; divlia).
  clearbody doy.
  set (mp := (5 * doy + 2) / 153).
  assert (Hmp : 0 <= mp <= 11) by (subst mp; divlia).
  clearbody mp.
  destruct (mp <? 10) eqn:E; [apply Z.ltb_lt in E | apply Z.ltb_ge in E]; lia.
Qed.

Lemma year_of_era_roundtrip (yoe doy : Z) :
  0 <= yoe <= 399 -> 0 <= doy <= 337 ->
  let doe := yoe * 365 + yoe / 4 - yoe / 100 + doy in
  (doe - doe / 1460 + doe / 36524 - doe / 146096) / 365 = yoe.
Proof. intros Hy Hd. cbv zeta. divlia. Qed.

(** Reading back the first day of a month gives that month. *)
Lemma civil_roundtrip (y m : Z) :
  1 <= m <= 12 ->
  Time.civil_from_days (Time.days_from_civil y m 1) = (y, m, 1).
Proof.
  intros Hm. unfold Time.days_from_civil. cbv zeta.
  set (y' := if m <=? 2 then y - 1 else y).
  set (era := y' / 400).
  set (yoe := y' - era * 400).
  assert (Hyoe : 0 <= yoe <= 399) by (subst yoe era; divlia).
  set (mp := if 2 <? m then m - 3 else m + 9).
  assert (Hmp : 0 <= mp <= 11) by (subst mp; destruct (2 <? m) eqn:E; lia).
  set (doy := (153 * mp + 2) / 5 + 1 - 1).
  assert (Hdoy : 0 <= doy <= 337) by (subst doy; divlia).
  set (doe := yoe * 365 + yoe / 4 - yoe / 100 + doy).
  assert (Hdoe : 0 <= doe <= 146096) by (subst doe; divlia).
  unfold Time.civil_from_days. cbv zeta.
  replace (era * 146097 + doe - 719468 + 719468) with (era * 146097 + doe) by lia.
  replace ((era * 146097 + doe) / 146097) with era by divlia.
  replace (era * 146097 + doe - era * 146097) with doe by lia.
  replace ((doe - doe / 1460 + doe / 36524 - doe / 146096) / 365) with yoe
    by (symmetry; apply year_of_era_roundtrip; assumption).
  replace (doe - (365 * yoe + yoe / 4 - yoe / 100)) with doy by (subst doe; lia).
  replace ((5 * doy + 2) / 153) with mp by (subst doy; divlia).
  replace (doy - (153 * mp + 2) / 5 + 1) with 1 by (subst doy; lia).
  assert (Hm' : (if mp <? 10 then mp + 3 else mp - 9) = m).
  { subst mp. destruct (2 <? m) eqn:E.
    - apply Z.ltb_lt in E. destruct (m - 3 <? 10) eqn:E2; lia.
    - apply Z.ltb_ge in E. destruct (m + 9 <? 10) eqn:E2; lia. }
  rewrite Hm'. f_equal. f_equal.
  subst yoe era y'. destruct (m <=? 2); lia.
Qed.

(** The first of the following month is a later day. *)
Lemma next_month_later (y m : Z) :
  1 <= m <= 12 ->
  Time.days_from_civil y m 1 <
  Time.days_from_civil (y + m / 12) (m mod 12 + 1) 1.
Proof.
  intros Hm.
  assert (Hcases : m = 1 \/ m = 2 \/ m = 3 \/ m = 4 \/ m = 5 \/ m = 6 \/
                   m = 7 \/ m = 8 \/ m = 9 \/ m = 10 \/ m = 11 \/ m = 12)
    by lia.
  unfold Time.days_from_civil.
  repeat (destruct Hcases as [-> | Hcases]); try subst m; simpl; divlia.
Qed.

(** A first-of-month midnight reads back as its own year and month. *)
Lemma civil_month_start (y m : Z) :
  1 <= m <= 12 -> Time.civil (Time.Date y m 1 0 0 0 0) = (y, m, 1).
Proof.
  intros Hm. unfold Time.civil, Time.Date, Time.DateIn. cbv zeta.
  simpl Time.wall. simpl Time.zone.
  replace (y + (m - 1) / 12) with y by divlia.
  replace ((m - 1) mod 12 + 1) with m by divlia.
  rewrite <- (civil_roundtrip y m Hm). f_equal.
  unfold Time.nanosPerSecond, Time.secondsPerDay.
  generalize (Time.days_from_civil y m 1). intros d. divlia.
Qed.

(** The analyzer's end of month is one second before the next month starts,
    and not before the month's own start. *)
Lemma monthEnd_of_month_start (y m : Z) :
  1 <= m <= 12 ->
  Time.wall (monthEnd (Time.Date y m 1 0 0 0 0)) + Time.nanosPerSecond =
    Time.wall (Time.Date y (m + 1) 1 0 0 0 0) /\
  Time.wall (Time.Date y m 1 0 0 0 0) <
    Time.wall (monthEnd (Time.Date y m 1 0 0 0 0)).
Proof.
  intros Hm. unfold monthEnd, Time.Year, Time.Month.
  rewrite (civil_month_start y m Hm). simpl fst. simpl snd.
  pose proof (next_month_later y m Hm) as Hlt.
  unfold Time.Date, Time.DateIn. cbv zeta. simpl Time.wall.
  replace (m + 1 - 1) with m by lia.
  replace (y + (m - 1) / 12) with y by divlia.
  replace ((m - 1) mod 12 + 1) with m by divlia.
  unfold Time.nanosPerSecond. split; lia.
Qed.

End TimeFacts.

(** ** Trend analyzer *)

Lemma count_fold (f : Bug -> bool) (bugs : list Bug) (c : Z) :
  fold_left (fun count bug => if f bug then count + 1 else count) bugs c =
  c + len (List.filter f bugs).
Proof.
  unfold len. revert c. induction bugs as [| b rest IH]; intros c; simpl.
  - lia.
  - rewrite IH. destruct (f b); simpl length; lia.
Qed.

Lemma countUnresolvedAtDate_filter (bugs : list Bug) (date : Time.t) :
  countUnresolvedAtDate bugs date = len (List.filter (unresolvedAt date) bugs).
Proof. unfold countUnresolvedAtDate. now rewrite count_fold. Qed.

Lemma countResolvedInMonth_filter (bugs : list Bug) (month : Time.t) :
  countResolvedInMonth bugs month = len (List.filter (resolvedIn month) bugs).
Proof. unfold countResolvedInMonth. now rewrite count_fold. Qed.

(** The test of the code is the backlog test of the specification. *)
Lemma unresolvedAt_inBacklogAt (date : Time.t) (bug : Bug) :
  unresolvedAt date bug = inBacklogAt date bug.
Proof.
  unfold unresolvedAt, inBacklogAt, Time.After.
  rewrite (Z.leb_antisym (Time.wall date) (Time.wall (Created bug))).
  destruct (Time.wall date <? Time.wall (Created bug)); reflexivity.
Qed.

(** The group of a month is the list of the bugs with that month key, in
    input order; months without a bug have no entry. *)
Lemma groupByMonth_lookup (bugs : list Bug) (k : Time.t) :
  groupByMonth bugs !! k =
  match List.filter (fun b => bool_decide (monthKey b = k)) bugs with
  | [] => None
  | l => Some l
  end.
Proof.
  unfold groupByMonth.
  induction bugs as [| b l IH] using rev_ind; [apply lookup_empty |].
  rewrite fold_left_app, List.filter_app. simpl.
  destruct (decide (monthKey b = k)) as [-> | Hne].
  - rewrite lookup_insert_eq, IH, bool_decide_eq_true_2 by reflexivity.
    destruct (List.filter _ l); reflexivity.
  - rewrite lookup_insert_ne, IH, bool_decide_eq_false_2 by assumption.
    now rewrite app_nil_r.
Qed.

Lemma sortedMonths_In (grouped : gmap Time.t (list Bug)) (month : Time.t) :
  In month (sortedMonths grouped) <-> is_Some (grouped !! month).
Proof.
  unfold sortedMonths. rewrite <- list_elem_of_In, merge_sort_Permutation.
  rewrite list_elem_of_In, in_map_iff. split.
  - intros [[k v] [Hk Hin]]. simpl in Hk. subst k.
    apply list_elem_of_In, elem_of_map_to_list in Hin. now exists v.
  - intros [v Hv]. exists (month, v). split; [reflexivity |].
    now apply list_elem_of_In, elem_of_map_to_list.
Qed.

(** Every month of the series is the month key of some input bug. *)
Lemma sortedMonths_monthKey (bugs : list Bug) (month : Time.t) :
  In month (sortedMonths (groupByMonth bugs)) ->
  exists b, In b bugs /\ monthKey b = month.
Proof.
  rewrite sortedMonths_In, groupByMonth_lookup.
  destruct (List.filter _ bugs) as [| b l] eqn:E; intros [v Hv]; [discriminate |].
  assert (Hb : In b (List.filter (fun b => bool_decide (monthKey b = month)) bugs))
    by (rewrite E; now left).
  apply filter_In in Hb. destruct Hb as [Hb1 Hb2].
  apply bool_decide_eq_true_1 in Hb2. now exists b.
Qed.

Lemma monthlyLoop_In (bugs : list Bug) (grouped : gmap Time.t (list Bug))
  (months : list Time.t) (prev : Z) (s : MonthlyBugStats) :
  In s (monthlyLoop bugs grouped months prev) ->
  In (Month s) months /\
  TotalCreated s = len (default [] (grouped !! Month s)) /\
  TotalResolved s = countResolvedInMonth bugs (Month s) /\
  TotalUnresolved s = countUnresolvedAtDate bugs (monthEnd (Month s)).
Proof.
  revert prev. induction months as [| m rest IH]; intros prev; simpl.
  - intros [].
  - intros [<- | H]; simpl.
    + repeat split; try reflexivity. now left.
    + destruct (IH _ H) as (H1 & H2). split; [now right | exact H2].
Qed.

(** The months of the series start a calendar month, so the analyzer's end
    of month lies after their start. *)
Lemma series_month_before_end (now : Time.t) (goal : float64)
  (bugs : list Bug) (s : MonthlyBugStats) :
  In s (MonthlyData (Analyze now goal bugs)) ->
  Time.wall (Month s) < Time.wall (monthEnd (Month s)).
Proof.
  unfold Analyze. cbn [MonthlyData].
  intros Hs. apply monthlyLoop_In in Hs. destruct Hs as [Hs _].
  apply sortedMonths_monthKey in Hs. destruct Hs as (b & _ & <-).
  unfold monthKey. apply TimeFacts.monthEnd_of_month_start.
  apply TimeFacts.civil_month_range.
Qed.

(** C2. For every month of the computed series, [TotalUnresolved] is the
    number of input bugs created on or before 23:59:59.000 UTC on the month's
    last day, the instant the analyzer takes as the end of the month, whose
    resolution is empty or whose resolution timestamp is strictly after that
    instant. That instant lies one second before the next month begins, so
    999,999,999 nanoseconds before the month's final instant, and a bug
    created after it is not in the month's count. A bug whose resolution
    timestamp is that very instant is among those counted as resolved in the
    month and, its resolution being set, is not among the unresolved. *)
Theorem TotalUnresolved_is_backlog_at_month_end
  (now : Time.t) (goal : float64) (bugs : list Bug) (s : MonthlyBugStats) :
  In s (MonthlyData (Analyze now goal bugs)) ->
  TotalUnresolved s =
    len (List.filter (inBacklogAt (monthEnd (Month s))) bugs) /\
  TotalResolved s = len (List.filter (resolvedIn (Month s)) bugs) /\
  (forall b d,
     ResolutionDate b = Some d ->
     Time.Equal d (monthEnd (Month s)) = true ->
     resolvedIn (Month s) b = true /\
     (Resolution b <> "" -> inBacklogAt (monthEnd (Month s)) b = false)) /\
  Time.wall (monthEnd (Month s)) + Time.nanosPerSecond =
    Time.wall (finalInstant (Month s)) + 1 /\
  (forall b,
     Time.wall (monthEnd (Month s)) < Time.wall (Created b) ->
     inBacklogAt (monthEnd (Month s)) b = false).
Proof.
  intros Hs. pose proof (series_month_before_end _ _ _ _ Hs) as Hlt.
  assert (Hend : Time.wall (monthEnd (Month s)) + Time.nanosPerSecond =
                 Time.wall (finalInstant (Month s)) + 1).
  { unfold Analyze in Hs. cbn [MonthlyData] in Hs.
    apply monthlyLoop_In in Hs. destruct Hs as [Hm _].
    apply sortedMonths_monthKey in Hm. destruct Hm as (b & _ & <-).
    unfold monthKey.
    set (y := Time.Year (Created b)). set (m := Time.Month (Created b)).
    assert (Hm : 1 <= m <= 12) by apply TimeFacts.civil_month_range.
    destruct (TimeFacts.monthEnd_of_month_start y m Hm) as [He _].
    rewrite He. unfold finalInstant, Time.Year, Time.Month.
    rewrite (TimeFacts.civil_month_start y m Hm). simpl. lia. }
  unfold Analyze in Hs. cbn [MonthlyData] in Hs.
  apply monthlyLoop_In in Hs. destruct Hs as (_ & _ & Hres & Hunres).
  split; [| split; [| split; [| split]]].
  - rewrite Hunres, countUnresolvedAtDate_filter.
    f_equal. apply filter_ext. intros b. apply unresolvedAt_inBacklogAt.
  - rewrite Hres. apply countResolvedInMonth_filter.
  - intros b d Hd Heq. unfold Time.Equal in Heq. apply Z.eqb_eq in Heq.
    split.
    + unfold resolvedIn, Time.Before, Time.After. rewrite Hd, Heq.
      rewrite Z.ltb_irrefl.
      destruct (Time.wall (monthEnd (Month s)) <? Time.wall (Month s)) eqn:E;
        [apply Z.ltb_lt in E; lia | reflexivity].
    + intros Hr. unfold inBacklogAt. rewrite Hd, Heq, Z.ltb_irrefl.
      apply String.eqb_neq in Hr. rewrite Hr. apply andb_false_r.
  - exact Hend.
  - intros b Hb. unfold inBacklogAt.
    replace (Time.wall (Created b) <=? Time.wall (monthEnd (Month s)))
      with false by (symmetry; apply Z.leb_gt; exact Hb).
    reflexivity.
Qed.

Lemma TotalUnresolved_witness :
  TotalUnresolved Sample.firstMonth =
    len (List.filter (inBacklogAt (monthEnd (Month Sample.firstMonth)))
                     Sample.history) /\
  TotalUnresolved Sample.firstMonth = 124 /\
  monthEnd (Month Sample.firstMonth) = Sample.juneEnd /\
  In Sample.resolvedAtEnd Sample.history.
Proof.
  assert (Hin : In Sample.firstMonth
                   (MonthlyData (Analyze Sample.now Sample.goal924
                                         Sample.history)))
    by (vm_compute; left; reflexivity).
  split.
  - exact (proj1 (TotalUnresolved_is_backlog_at_month_end
                    Sample.now Sample.goal924 Sample.history
                    Sample.firstMonth Hin)).
  - split; [vm_compute; reflexivity |].
    split; [vm_compute; reflexivity |].
    left. reflexivity.
Defined.

(** C2, counterexample to the reading with the month's final instant. An
    unresolved bug created at 23:59:59.5 UTC on 30 June 2023 is created
    before the final instant of June and is counted as created in June, yet
    June's [TotalUnresolved] is 0. *)
Lemma TotalUnresolved_skips_last_second :
  exists s,
    MonthlyData (Analyze Sample.now Sample.goal924 [Sample.lateCreated]) = [s] /\
    Month s = Time.Date 2023 6 1 0 0 0 0 /\
    TotalCreated s = 1 /\
    TotalUnresolved s = 0 /\
    Resolution Sample.lateCreated = "" /\
    (Time.wall (Created Sample.lateCreated) <=?
     Time.wall (finalInstant (Month s))) = true /\
    len (List.filter (inBacklogAt (finalInstant (Month s)))
                     [Sample.lateCreated]) = 1.
Proof.
  eexists. split; [vm_compute; reflexivity |].
  repeat split; vm_compute; reflexivity.
Qed.

(** Each entry of the monthly loop is computed from the created count of the
    entry before it, the first from the initial [previousCreatedCount]. *)
Lemma monthlyLoop_lookup (bugs : list Bug) (grouped : gmap Time.t (list Bug))
  (months : list Time.t) (prev : Z) (i : nat) (s : MonthlyBugStats) :
  monthlyLoop bugs grouped months prev !! i = Some s ->
  match i with
  | O => NetChange s = TotalCreated s - prev /\
         ChangePercent s = changePercentOf (TotalCreated s) prev
  | S j => exists p,
      monthlyLoop bugs grouped months prev !! j = Some p /\
      NetChange s = TotalCreated s - TotalCreated p /\
      ChangePercent s = changePercentOf (TotalCreated s) (TotalCreated p)
  end.
Proof.
  revert prev i. induction months as [| m rest IH]; intros prev i Hi.
  - destruct i; discriminate.
  - destruct i as [| j]; simpl in Hi.
    + injection Hi as <-. simpl. split; reflexivity.
    + specialize (IH _ _ Hi). destruct j as [| j'].
      * eexists. split; [reflexivity |]. exact IH.
      * destruct IH as (p & Hp & Hrest). exists p. split; assumption.
Qed.

(** Every month of the series has at least one created bug. *)
Lemma series_created_positive (now : Time.t) (goal : float64)
  (bugs : list Bug) (s : MonthlyBugStats) :
  In s (MonthlyData (Analyze now goal bugs)) -> 0 < TotalCreated s.
Proof.
  unfold Analyze. cbn [MonthlyData]. intros Hs.
  apply monthlyLoop_In in Hs. destruct Hs as (Hm & Hc & _).
  rewrite Hc. apply sortedMonths_In in Hm. destruct Hm as [l Hl].
  rewrite Hl. simpl. rewrite groupByMonth_lookup in Hl.
  destruct (List.filter _ bugs); [discriminate |].
  injection Hl as <-. unfold len. simpl length. lia.
Qed.

Lemma monthLe_total : Total monthLe.
Proof. intros a b. unfold monthLe. lia. Qed.

Lemma monthlyLoop_months (bugs : list Bug) (grouped : gmap Time.t (list Bug))
  (months : list Time.t) (prev : Z) :
  map Month (monthlyLoop bugs grouped months prev) = months.
Proof.
  revert prev. induction months as [| m rest IH]; intros prev; simpl.
  - reflexivity.
  - now rewrite IH.
Qed.

(** The series is in chronological order and holds every month once, so the
    entry before a month is the previous month of the series. *)
Lemma series_chronological (now : Time.t) (goal : float64) (bugs : list Bug) :
  Sorted monthLe (map Month (MonthlyData (Analyze now goal bugs))) /\
  NoDup (map Month (MonthlyData (Analyze now goal bugs))).
Proof.
  unfold Analyze. cbn [MonthlyData]. rewrite monthlyLoop_months.
  unfold sortedMonths. split.
  - apply (@Sorted_merge_sort _ monthLe _ monthLe_total).
  - rewrite merge_sort_Permutation. apply NoDup_fst_map_to_list.
Qed.

(** C8. The first month of the series (so the only month of a single-month
    series) has [NetChange] equal to its created count and [ChangePercent]
    exactly 0. Every later month has a previous month, whose created count is
    positive, and its [ChangePercent] is
    ((created - previousCreated) / previousCreated) x 100 in float64. The
    quotient is computed only under the guard [previousCreatedCount > 0]:
    with a previous count of 0 the result is 0 whatever the created count. *)
Theorem ChangePercent_guarded
  (now : Time.t) (goal : float64) (bugs : list Bug)
  (i : nat) (s : MonthlyBugStats) :
  MonthlyData (Analyze now goal bugs) !! i = Some s ->
  match i with
  | O => NetChange s = TotalCreated s /\ ChangePercent s = F64.zero
  | S j => exists p,
      MonthlyData (Analyze now goal bugs) !! j = Some p /\
      0 < TotalCreated p /\
      NetChange s = TotalCreated s - TotalCreated p /\
      ChangePercent s =
        F64.mul
          (F64.div (F64.sub (F64.of_int (TotalCreated s))
                            (F64.of_int (TotalCreated p)))
                   (F64.of_int (TotalCreated p)))
          (F64.of_int 100)
  end /\
  (forall created, changePercentOf created 0 = F64.zero).
Proof.
  intros Hi. split; [| reflexivity].
  pose proof Hi as Hl. unfold Analyze in Hl. cbn [MonthlyData] in Hl.
  apply monthlyLoop_lookup in Hl. destruct i as [| j].
  - destruct Hl as [Hn Hc]. split; [lia | exact Hc].
  - destruct Hl as (p & Hp & Hn & Hc). exists p.
    assert (Hpos : 0 < TotalCreated p).
    { apply (series_created_positive now goal bugs).
      apply list_elem_of_In. eapply list_elem_of_lookup_2. exact Hp. }
    repeat split; try assumption.
    rewrite Hc. unfold changePercentOf.
    destruct (0 <? TotalCreated p) eqn:E; [reflexivity |].
    apply Z.ltb_ge in E. lia.
Qed.

Lemma ChangePercent_guarded_witness :
  exists p,
    MonthlyData (Analyze Sample.now Sample.goal924 Sample.history) !! 0%nat =
      Some p /\
    0 < TotalCreated p /\
    NetChange Sample.secondMonth =
      TotalCreated Sample.secondMonth - TotalCreated p /\
    ChangePercent Sample.secondMonth =
      F64.mul
        (F64.div (F64.sub (F64.of_int (TotalCreated Sample.secondMonth))
                          (F64.of_int (TotalCreated p)))
                 (F64.of_int (TotalCreated p)))
        (F64.of_int 100).
Proof.
  assert (Hl : MonthlyData (Analyze Sample.now Sample.goal924 Sample.history)
                 !! 1%nat = Some Sample.secondMonth)
    by (vm_compute; reflexivity).
  exact (proj1 (ChangePercent_guarded Sample.now Sample.goal924
                  Sample.history 1 Sample.secondMonth Hl)).
Defined.

Example single_month_series :
  map (fun s => (TotalCreated s, NetChange s, ChangePercent s))
      (MonthlyData (Analyze Sample.now Sample.goal924
                            (repeat Sample.freshBug 3))) =
  [(3, 3, F64.zero)].
Proof. vm_compute. reflexivity. Qed.

Lemma findMonth_snoc (data : list MonthlyBugStats) (s : MonthlyBugStats)
  (start : Time.t) :
  findMonth (data ++ [s]) start =
  if Time.Equal (Month s) start then Some s else findMonth data start.
Proof. unfold findMonth. now rewrite fold_left_app. Qed.

(** A reference month is absent exactly when no entry of the series has its
    instant; when present it is an entry of the series with that instant. *)
Lemma findMonth_None (data : list MonthlyBugStats) (start : Time.t) :
  findMonth data start = None <->
  Forall (fun s => Time.Equal (Month s) start = false) data.
Proof.
  induction data as [| s l IH] using rev_ind.
  - split; [constructor | reflexivity].
  - rewrite findMonth_snoc, List.Forall_app.
    destruct (Time.Equal (Month s) start) eqn:E.
    + split; [discriminate |]. intros [_ H]. inversion H; subst. congruence.
    + rewrite IH. split; [| tauto]. intros H. split; [exact H |].
      constructor; [exact E | constructor].
Qed.

Lemma findMonth_Some (data : list MonthlyBugStats) (start : Time.t)
  (s : MonthlyBugStats) :
  findMonth data start = Some s ->
  In s data /\ Time.Equal (Month s) start = true.
Proof.
  induction data as [| x l IH] using rev_ind.
  - discriminate.
  - rewrite findMonth_snoc, in_app_iff.
    destruct (Time.Equal (Month x) start) eqn:E.
    + intros [= <-]. split; [right; now left | exact E].
    + intros H. destruct (IH H) as [H1 H2]. split; [now left | exact H2].
Qed.

(** C7, as the code has it. The two reference months are the entries of the
    series at the first instant of the current month and of the same month a
    year before. When both are present, [GoalTarget] is the float64 value
    lastYear - lastYear x (goal / 100), each operation rounded to float64,
    then rounded to the nearest integer with halves away from zero, and
    [OnTrack] holds iff the current month's created count is at most
    [GoalTarget]; a count of 100 with a goal of 20 percent gives 80. When
    either month is absent, [GoalTarget] is 0 and [OnTrack] is false. *)
Theorem GoalTarget_and_OnTrack (now : Time.t) (goal : float64)
  (bugs : list Bug) :
  (CurrentMonth (Analyze now goal bugs) = None <->
   Forall (fun s => Time.Equal (Month s) (currentMonthStart now) = false)
          (MonthlyData (Analyze now goal bugs))) /\
  (LastYearSameMonth (Analyze now goal bugs) = None <->
   Forall (fun s => Time.Equal (Month s) (lastYearMonthStart now) = false)
          (MonthlyData (Analyze now goal bugs))) /\
  match LastYearSameMonth (Analyze now goal bugs),
        CurrentMonth (Analyze now goal bugs) with
  | Some last, Some cur =>
      GoalTarget (Analyze now goal bugs) =
        F64.to_int
          (F64.Round
             (F64.sub (F64.of_int (TotalCreated last))
                      (F64.mul (F64.of_int (TotalCreated last))
                               (F64.div goal (F64.of_int 100))))) /\
      (OnTrack (Analyze now goal bugs) = true <->
       TotalCreated cur <= GoalTarget (Analyze now goal bugs))
  | _, _ =>
      GoalTarget (Analyze now goal bugs) = 0 /\
      OnTrack (Analyze now goal bugs) = false
  end /\
  calculateGoalTarget 100 (F64.of_int 20) = 80.
Proof.
  unfold Analyze. cbn [CurrentMonth LastYearSameMonth MonthlyData GoalTarget OnTrack].
  split; [apply findMonth_None | split; [apply findMonth_None | split]].
  - unfold goalProgress.
    set (data := monthlyLoop bugs (groupByMonth bugs)
                             (sortedMonths (groupByMonth bugs)) 0).
    destruct (findMonth data (lastYearMonthStart now)) as [last |];
      destruct (findMonth data (currentMonthStart now)) as [cur |];
      cbn [fst snd]; try (split; reflexivity).
    split; [reflexivity | apply Z.leb_le].
  - vm_compute. reflexivity.
Qed.

(** Counterexample to C7 as stated. With 125 bugs in June 2023, bugs in June 2024 and
    a goal of 92.4 percent (the float64 nearest to it, a little above 92.4)
    both reference months are present and [GoalTarget] is 10, while
    round(125 x (1 - goal/100)) is 9: evaluated in float64 as written it
    gives 9, and in exact arithmetic on the same inputs the product is below
    9.5, nearest to 9 and not to 10. *)
Lemma GoalTarget_not_the_rounded_product :
  (exists last cur,
     LastYearSameMonth Sample.trend = Some last /\
     CurrentMonth Sample.trend = Some cur /\
     TotalCreated last = 125) /\
  ReductionGoal Sample.trend = Sample.goal924 /\
  GoalTarget Sample.trend = 10 /\
  goalTargetAsWritten 125 Sample.goal924 = 9 /\
  (exists q, goalProductExact 125 Sample.goal924 = Some q /\
             nearestInteger q 9 = true /\ nearestInteger q 10 = false).
Proof.
  split; [| split; [reflexivity | split; [vm_compute; reflexivity |
            split; [vm_compute; reflexivity |]]]].
  - exists Sample.firstMonth, Sample.secondMonth.
    split; [vm_compute; reflexivity |].
    split; [vm_compute; reflexivity |]. vm_compute. reflexivity.
  - eexists. split; [vm_compute; reflexivity |].
    split; vm_compute; reflexivity.
Qed.

(** The two ways the code's value leaves the written formula, on whole
    numbers. With a count of 5 and a goal of 90 the code rounds 5 - 4.5 = 0.5
    to 1, while 5 x (1 - 0.9) is just below 0.5 in float64 and rounds to 0.
    With a count of 50 and a goal of 55 the exact product is 22.5, but the
    code's float64 value is just below it and rounds to 22. *)
Example goal_target_rounding :
  calculateGoalTarget 5 (F64.of_int 90) = 1 /\
  goalTargetAsWritten 5 (F64.of_int 90) = 0 /\
  calculateGoalTarget 50 (F64.of_int 55) = 22 /\
  (exists q, goalProductExact 50 (F64.of_int 55) = Some q /\
             2 * fst q = 45 * snd q).
Proof.
  repeat split; try (vm_compute; reflexivity).
  eexists. split; vm_compute; reflexivity.
Qed.

(** ** Sprint aggregator *)

Section SprintFacts.

Context {Regexp : Type}.
Variable Compile : string -> option Regexp.
Variable MatchString : Regexp -> string -> bool.
Variable QuoteMeta : string -> string.

(** A pattern that does not compile leaves the filter nil, as when nothing
    is configured. *)
Lemma nameFilterOf_invalid (prefix pattern : string) :
  pattern <> "" -> Compile pattern = None ->
  nameFilterOf Compile QuoteMeta prefix pattern = None.
Proof.
  intros Hne Hc. unfold nameFilterOf.
  apply String.eqb_neq in Hne. now rewrite Hne.
Qed.

Lemma nameFilterOf_unset :
  nameFilterOf Compile QuoteMeta "" "" = None.
Proof. reflexivity. Qed.

(** The sprint ids the name map knows are the non-empty ids of the input. *)
Lemma sprintNameMap_is_Some (bugs : list Bug) (id : string) :
  is_Some (sprintNameMap bugs !! id) <->
  id <> "" /\ exists b, In b bugs /\ SprintID b = id.
Proof.
  unfold sprintNameMap.
  induction bugs as [| b l IH] using rev_ind.
  - simpl. rewrite lookup_empty. split.
    + intros [x Hx]. discriminate.
    + intros [_ (b & [] & _)].
  - rewrite fold_left_app. simpl.
    destruct (String.eqb (SprintID b) "") eqn:E; simpl.
    + apply String.eqb_eq in E. rewrite IH. split.
      * intros [Hid (c & Hc & Hs)]. split; [exact Hid |].
        exists c. split; [apply in_or_app; now left | exact Hs].
      * intros [Hid (c & Hc & Hs)]. split; [exact Hid |].
        exists c. split; [| exact Hs].
        apply in_app_or in Hc. destruct Hc as [Hc | [<- | []]]; [exact Hc |].
        congruence.
    + apply String.eqb_neq in E.
      destruct (decide (SprintID b = id)) as [<- | Hne].
      * rewrite lookup_insert_eq. split; [| intros _; eexists; reflexivity].
        intros _. split; [exact E |].
        exists b. split; [apply in_or_app; right; now left | reflexivity].
      * rewrite lookup_insert_ne by exact Hne. rewrite IH. split.
        -- intros [Hid (c & Hc & Hs)]. split; [exact Hid |].
           exists c. split; [apply in_or_app; now left | exact Hs].
        -- intros [Hid (c & Hc & Hs)]. split; [exact Hid |].
           exists c. split; [| exact Hs].
           apply in_app_or in Hc. destruct Hc as [Hc | [<- | []]]; [exact Hc |].
           contradiction.
Qed.

(** The group of a sprint id is the list of its issues that pass the
    filter, in input order; ids without such an issue have no group. *)
Lemma groupBySprint_lookup (nameFilter : option Regexp)
  (sprintIssues : list Bug) (id : string) :
  fst (groupBySprint MatchString nameFilter sprintIssues) !! id =
  match issuesOfSprint MatchString nameFilter id sprintIssues with
  | [] => None
  | l => Some l
  end.
Proof.
  unfold groupBySprint, issuesOfSprint.
  induction sprintIssues as [| b l IH] using rev_ind; [apply lookup_empty |].
  rewrite fold_left_app, List.filter_app. simpl.
  unfold groupStep at 1. unfold inSprint at 2.
  destruct (String.eqb (SprintID b) "") eqn:E; simpl.
  - rewrite app_nil_r. exact IH.
  - destruct (passesFilter MatchString nameFilter (SprintName b)) eqn:P; simpl.
    + destruct (decide (SprintID b = id)) as [<- | Hne].
      * rewrite lookup_insert_eq, IH, String.eqb_refl.
        destruct (List.filter _ l); reflexivity.
      * rewrite lookup_insert_ne by exact Hne.
        apply String.eqb_neq in Hne. rewrite Hne, app_nil_r. exact IH.
    + rewrite andb_false_r, app_nil_r. exact IH.
Qed.

(** The entries of the result are the statistics of the sprint groups. *)
Lemma CalculateSprintStats_In (sprintIssues : list Bug)
  (prefix pattern : string) (s : Sprint.SprintStats) :
  In s (CalculateSprintStats Compile MatchString QuoteMeta
                             sprintIssues prefix pattern) <->
  exists id issues,
    fst (groupBySprint MatchString
           (nameFilterOf Compile QuoteMeta prefix pattern) sprintIssues)
      !! id = Some issues /\
    s = statsOfSprint
          (snd (groupBySprint MatchString
                  (nameFilterOf Compile QuoteMeta prefix pattern)
                  sprintIssues))
          id issues.
Proof.
  unfold CalculateSprintStats.
  destruct (groupBySprint MatchString _ sprintIssues) as [groups names].
  cbn [fst snd].
  rewrite <- list_elem_of_In, merge_sort_Permutation, list_elem_of_In.
  rewrite in_map_iff. split.
  - intros [[id issues] [Hs Hin]]. exists id, issues. split; [| now symmetry].
    now apply list_elem_of_In, elem_of_map_to_list in Hin.
  - intros (id & issues & Hl & ->). exists (id, issues). split; [reflexivity |].
    now apply list_elem_of_In, elem_of_map_to_list.
Qed.

Lemma fold_add_filter (issues : list Bug) (acc : Tally) :
  fold_left tallyStep issues acc =
  mkTally (bugCount acc + len (List.filter isBug issues))
          (otherCount acc + len (List.filter (fun b => negb (isBug b)) issues))
          (fold_left (fun a issue => F64.add a (StoryPoints issue))
                     (List.filter isBug issues) (bugStoryPoints acc))
          (fold_left (fun a issue => F64.add a (StoryPoints issue))
                     issues (totalStoryPoints acc)).
Proof.
  unfold len. revert acc. induction issues as [| b rest IH]; intros acc; simpl.
  - destruct acc. simpl. f_equal; lia.
  - rewrite IH. unfold tallyStep, isBug.
    destruct (String.eqb (IssueType b) "Bug"); simpl; f_equal; lia.
Qed.

(** The totals of a group: bug issues, other issues, and the story points
    of the bug issues and of all issues. *)
Lemma tally_spec (issues : list Bug) :
  tally issues =
  mkTally (len (List.filter isBug issues))
          (len (List.filter (fun b => negb (isBug b)) issues))
          (sumStoryPoints (List.filter isBug issues))
          (sumStoryPoints issues).
Proof. unfold tally. rewrite fold_add_filter. reflexivity. Qed.

Lemma filter_partition_length (f : Bug -> bool) (l : list Bug) :
  len (List.filter f l) + len (List.filter (fun b => negb (f b)) l) = len l.
Proof.
  unfold len. induction l as [| b rest IH]; simpl; [reflexivity |].
  destruct (f b); simpl length; lia.
Qed.

End SprintFacts.

Section SprintClaims.

Context {Regexp : Type}.
Variable Compile : string -> option Regexp.
Variable MatchString : Regexp -> string -> bool.
Variable QuoteMeta : string -> string.

Lemma filter_all {A : Type} (l : list A) :
  List.filter (fun _ => true) l = l.
Proof. induction l as [| a rest IH]; simpl; [reflexivity | now rewrite IH]. Qed.

Lemma issuesOfSprint_unfiltered (id : string) (bugs : list Bug) :
  issuesOfSprint MatchString None id bugs <> [] <->
  id <> "" /\ exists b, In b bugs /\ SprintID b = id.
Proof.
  unfold issuesOfSprint. split.
  - intros Hne. destruct (List.filter _ bugs) as [| b l] eqn:E; [congruence |].
    assert (Hb : In b (List.filter (inSprint MatchString None id) bugs))
      by (rewrite E; now left).
    apply filter_In in Hb. destruct Hb as [Hb1 Hb2].
    unfold inSprint in Hb2. simpl in Hb2. rewrite andb_true_r in Hb2.
    apply andb_true_iff in Hb2. destruct Hb2 as [H1 H2].
    apply String.eqb_eq in H2. apply negb_true_iff, String.eqb_neq in H1.
    split; [congruence | now exists b].
  - intros [Hid (b & Hb & Hs)] Hnil.
    assert (Hin : In b (List.filter (inSprint MatchString None id) bugs)).
    { apply filter_In. split; [exact Hb |].
      unfold inSprint. simpl. rewrite Hs, String.eqb_refl.
      apply String.eqb_neq in Hid. now rewrite Hid. }
    rewrite Hnil in Hin. exact Hin.
Qed.

(** With a nil filter the result holds one entry for every non-empty sprint
    id of the input. *)
Lemma stats_unfiltered (bugs : list Bug) (prefix pattern : string)
  (id : string) :
  nameFilterOf Compile QuoteMeta prefix pattern = None ->
  (exists s, In s (CalculateSprintStats Compile MatchString QuoteMeta
                                        bugs prefix pattern) /\
             Sprint.SprintID s = id) <->
  id <> "" /\ exists b, In b bugs /\ SprintID b = id.
Proof.
  intros Hnil. rewrite <- issuesOfSprint_unfiltered. split.
  - intros (s & Hs & Hid). apply CalculateSprintStats_In in Hs.
    destruct Hs as (id' & issues & Hl & ->). simpl in Hid. subst id'.
    rewrite Hnil, groupBySprint_lookup in Hl.
    destruct (issuesOfSprint MatchString None id bugs); congruence.
  - intros Hne.
    destruct (issuesOfSprint MatchString None id bugs) as [| b l] eqn:E;
      [congruence |].
    eexists. split.
    + apply CalculateSprintStats_In. exists id, (b :: l).
      split; [| reflexivity].
      now rewrite Hnil, groupBySprint_lookup, E.
    + reflexivity.
Qed.

(** C9. When the configured sprint-name pattern does not compile, both
    functions return as with no filter configured: [ExtractAndFilterSprints]
    returns every non-empty sprint id of the input once, and
    [CalculateSprintStats] returns an entry for every one of them. Neither
    function has an error result. *)
Theorem invalid_pattern_disables_filter (bugs : list Bug)
  (prefix pattern : string) :
  pattern <> "" -> Compile pattern = None ->
  (forall id,
     In id (ExtractAndFilterSprints Compile MatchString QuoteMeta
                                    bugs prefix pattern) <->
     id <> "" /\ exists b, In b bugs /\ SprintID b = id) /\
  NoDup (ExtractAndFilterSprints Compile MatchString QuoteMeta
                                 bugs prefix pattern) /\
  ExtractAndFilterSprints Compile MatchString QuoteMeta bugs prefix pattern =
    ExtractAndFilterSprints Compile MatchString QuoteMeta bugs "" "" /\
  (forall id,
     (exists s, In s (CalculateSprintStats Compile MatchString QuoteMeta
                                           bugs prefix pattern) /\
                Sprint.SprintID s = id) <->
     id <> "" /\ exists b, In b bugs /\ SprintID b = id) /\
  CalculateSprintStats Compile MatchString QuoteMeta bugs prefix pattern =
    CalculateSprintStats Compile MatchString QuoteMeta bugs "" "".
Proof.
  intros Hne Hc.
  pose proof (nameFilterOf_invalid Compile QuoteMeta prefix pattern Hne Hc)
    as Hnil.
  assert (Hall : ExtractAndFilterSprints Compile MatchString QuoteMeta
                   bugs prefix pattern =
                 map fst (map_to_list (sprintNameMap bugs))).
  { unfold ExtractAndFilterSprints. rewrite Hnil. simpl.
    now rewrite filter_all. }
  split; [| split; [| split; [| split]]].
  - intros id. rewrite Hall, <- sprintNameMap_is_Some, in_map_iff. split.
    + intros [[k v] [Hk Hin]]. simpl in Hk. subst k. exists v.
      now apply list_elem_of_In, elem_of_map_to_list in Hin.
    + intros [v Hv]. exists (id, v). split; [reflexivity |].
      now apply list_elem_of_In, elem_of_map_to_list.
  - rewrite Hall. apply NoDup_fst_map_to_list.
  - rewrite Hall. unfold ExtractAndFilterSprints.
    rewrite nameFilterOf_unset. simpl. now rewrite filter_all.
  - intros id. now apply stats_unfiltered.
  - unfold CalculateSprintStats. now rewrite Hnil, nameFilterOf_unset.
Qed.

(** C10. Every entry of the result describes the issues of its sprint that
    passed the name filter: [BugCount] counts those whose type is exactly
    "Bug", [OtherCount] all the others, [TotalCount] is their sum and the
    number of issues, [BugStoryPoints] adds up the story points of the bug
    issues and [TotalStoryPoints] those of all the issues. *)
Theorem sprint_counts_bugs_exactly (sprintIssues : list Bug)
  (prefix pattern : string) (s : Sprint.SprintStats) :
  In s (CalculateSprintStats Compile MatchString QuoteMeta
                             sprintIssues prefix pattern) ->
  (issuesOfSprint MatchString (nameFilterOf Compile QuoteMeta prefix pattern)
                  (Sprint.SprintID s) sprintIssues <> [] /\
   Sprint.BugCount s =
     len (List.filter isBug
            (issuesOfSprint MatchString
               (nameFilterOf Compile QuoteMeta prefix pattern)
               (Sprint.SprintID s) sprintIssues)) /\
   Sprint.OtherCount s =
     len (List.filter (fun b => negb (isBug b))
            (issuesOfSprint MatchString
               (nameFilterOf Compile QuoteMeta prefix pattern)
               (Sprint.SprintID s) sprintIssues)) /\
   Sprint.TotalCount s =
     len (issuesOfSprint MatchString
            (nameFilterOf Compile QuoteMeta prefix pattern)
            (Sprint.SprintID s) sprintIssues) /\
   Sprint.BugCount s + Sprint.OtherCount s =
     Sprint.TotalCount s /\
   Sprint.BugStoryPoints s =
     sumStoryPoints
       (List.filter isBug
          (issuesOfSprint MatchString
             (nameFilterOf Compile QuoteMeta prefix pattern)
             (Sprint.SprintID s) sprintIssues)) /\
   Sprint.TotalStoryPoints s =
     sumStoryPoints
       (issuesOfSprint MatchString
          (nameFilterOf Compile QuoteMeta prefix pattern)
          (Sprint.SprintID s) sprintIssues)) /\
  (forall b, isBug b = true <-> IssueType b = "Bug").
Proof.
  intros Hs. split; [| intros b; apply String.eqb_eq].
  apply CalculateSprintStats_In in Hs.
  destruct Hs as (id & issues & Hl & ->).
  rewrite groupBySprint_lookup in Hl. cbn [Sprint.SprintID statsOfSprint].
  destruct (issuesOfSprint MatchString _ id sprintIssues) as [| b l] eqn:E;
    [discriminate |].
  injection Hl as <-.
  unfold statsOfSprint. rewrite tally_spec.
  cbn [Sprint.BugCount Sprint.OtherCount Sprint.TotalCount
       Sprint.BugStoryPoints Sprint.TotalStoryPoints
       bugCount otherCount bugStoryPoints totalStoryPoints].
  pose proof (filter_partition_length isBug (b :: l)) as Hp.
  repeat split; try reflexivity; try discriminate; exact Hp.
Qed.

End SprintClaims.

Lemma invalid_pattern_witness :
  ExtractAndFilterSprints Sample.compilePrefix Sample.hasPrefix
    Sample.quoteNothing Sample.sprintIssues "TOOLS" "[" =
  ExtractAndFilterSprints Sample.compilePrefix Sample.hasPrefix
    Sample.quoteNothing Sample.sprintIssues "" "" /\
  CalculateSprintStats Sample.compilePrefix Sample.hasPrefix
    Sample.quoteNothing Sample.sprintIssues "TOOLS" "[" =
  CalculateSprintStats Sample.compilePrefix Sample.hasPrefix
    Sample.quoteNothing Sample.sprintIssues "" "".
Proof.
  assert (Hne : "[" <> "") by discriminate.
  assert (Hc : Sample.compilePrefix "[" = None) by reflexivity.
  split.
  - exact (proj1 (proj2 (proj2
      (invalid_pattern_disables_filter Sample.compilePrefix Sample.hasPrefix
         Sample.quoteNothing Sample.sprintIssues "TOOLS" "[" Hne Hc)))).
  - exact (proj2 (proj2 (proj2 (proj2
      (invalid_pattern_disables_filter Sample.compilePrefix Sample.hasPrefix
         Sample.quoteNothing Sample.sprintIssues "TOOLS" "[" Hne Hc))))).
Defined.

(** A pattern that compiles does filter; the invalid one keeps both sprints. *)
Example valid_prefix_filters :
  ExtractAndFilterSprints Sample.compilePrefix Sample.hasPrefix
    Sample.quoteNothing Sample.sprintIssues "TOOLS" "" = ["42"] /\
  ExtractAndFilterSprints Sample.compilePrefix Sample.hasPrefix
    Sample.quoteNothing Sample.sprintIssues "TOOLS" "[" = ["43"; "42"].
Proof. split; vm_compute; reflexivity. Qed.

Lemma sprint_counts_witness :
  Sprint.BugCount Sample.secondSprint =
    len (List.filter isBug
           (issuesOfSprint Sample.hasPrefix
              (nameFilterOf Sample.compilePrefix Sample.quoteNothing "" "[")
              (Sprint.SprintID Sample.secondSprint)
              Sample.sprintIssues)) /\
  Sprint.SprintID Sample.secondSprint = "42" /\
  Sprint.BugCount Sample.secondSprint = 1 /\
  Sprint.OtherCount Sample.secondSprint = 2 /\
  Sprint.TotalCount Sample.secondSprint = 3.
Proof.
  assert (Hin : In Sample.secondSprint
                   (CalculateSprintStats Sample.compilePrefix Sample.hasPrefix
                      Sample.quoteNothing Sample.sprintIssues "" "["))
    by (vm_compute; right; left; reflexivity).
  split.
  - exact (proj1 (proj2 (proj1
      (sprint_counts_bugs_exactly Sample.compilePrefix Sample.hasPrefix
         Sample.quoteNothing Sample.sprintIssues "" "["
         Sample.secondSprint Hin)))).
  - repeat split; vm_compute; reflexivity.
Defined.

(** The type test is exact: "Unknown" and a lower-case "bug" are not bugs. *)
Example other_issue_types :
  isBug (Sample.sprintIssue "X-1" "Unknown" "1" "S" 0) = false /\
  isBug (Sample.sprintIssue "X-2" "bug" "1" "S" 0) = false /\
  isBug (Sample.sprintIssue "X-3" "Bug" "1" "S" 0) = true /\
  Sprint.BugCount Sample.firstSprint = 0 /\
  Sprint.OtherCount Sample.firstSprint = 1.
Proof. repeat split; vm_compute; reflexivity. Qed.

(** * Further properties of the code *)

(** ** What [Evaluate] returns *)

Lemma collect_snoc (now : Time.t) (rules : list SLARule.t) (l : list Bug)
  (x : Bug) :
  collect now rules (l ++ [x]) = scanRules now rules x (collect now rules l).
Proof. unfold collect. now rewrite fold_left_app. Qed.

Lemma existsb_eqb_In (n : string) (names : list string) :
  existsb (String.eqb n) names = true <-> In n names.
Proof.
  rewrite existsb_exists. split.
  - intros (m & Hm & E). apply String.eqb_eq in E. now subst.
  - intros H. exists n. split; [exact H | apply String.eqb_refl].
Qed.

Lemma bucketNames_snoc (now : Time.t) (rules : list SLARule.t) (l : list Bug)
  (x : Bug) :
  bucketNames now rules (l ++ [x]) =
  match firstViolated now rules x with
  | Some r =>
      if existsb (String.eqb (SLARule.BucketName r)) (bucketNames now rules l)
      then bucketNames now rules l
      else bucketNames now rules l ++ [SLARule.BucketName r]
  | None => bucketNames now rules l
  end.
Proof. unfold bucketNames. now rewrite fold_left_app. Qed.

(** A name is in use iff some bug is sent to it, and no name is listed twice. *)
Lemma bucketNames_In (now : Time.t) (rules : list SLARule.t) (l : list Bug)
  (n : string) :
  In n (bucketNames now rules l) <->
  exists bug, In bug l /\ assignedTo now rules n bug = true.
Proof.
  induction l as [| x l IH] using rev_ind.
  - simpl. split; [intros [] | intros (bug & [] & _)].
  - rewrite bucketNames_snoc. unfold assignedTo in *.
    destruct (firstViolated now rules x) as [r |] eqn:E.
    + destruct (existsb _ (bucketNames now rules l)) eqn:Ex.
      * apply existsb_eqb_In in Ex. rewrite IH. split.
        -- intros (bug & Hb & Ha). exists bug. split; [| exact Ha].
           apply in_or_app. now left.
        -- intros (bug & Hb & Ha). apply in_app_or in Hb.
           destruct Hb as [Hb | [<- | []]]; [now exists bug |].
           rewrite E in Ha. apply String.eqb_eq in Ha. subst n.
           now apply IH.
      * rewrite in_app_iff, IH. split.
        -- intros [(bug & Hb & Ha) | [<- | []]].
           ++ exists bug. split; [apply in_or_app; now left | exact Ha].
           ++ exists x. split; [apply in_or_app; right; now left |].
              rewrite E. apply String.eqb_refl.
        -- intros (bug & Hb & Ha). apply in_app_or in Hb.
           destruct Hb as [Hb | [<- | []]]; [left; now exists bug |].
           rewrite E in Ha. apply String.eqb_eq in Ha. right. now left.
    + rewrite IH. split.
      * intros (bug & Hb & Ha). exists bug. split; [| exact Ha].
        apply in_or_app. now left.
      * intros (bug & Hb & Ha). apply in_app_or in Hb.
        destruct Hb as [Hb | [<- | []]]; [now exists bug |].
        rewrite E in Ha. discriminate.
Qed.

Lemma bucketNames_NoDup (now : Time.t) (rules : list SLARule.t) (l : list Bug) :
  List.NoDup (bucketNames now rules l).
Proof.
  induction l as [| x l IH] using rev_ind; [constructor |].
  rewrite bucketNames_snoc.
  destruct (firstViolated now rules x) as [r |]; [| exact IH].
  destruct (existsb _ (bucketNames now rules l)) eqn:Ex; [exact IH |].
  apply NoDup_ListNoDup, NoDup_app. repeat split.
  - apply NoDup_ListNoDup, IH.
  - intros n Hn Hn'. apply list_elem_of_In in Hn, Hn'.
    destruct Hn' as [<- | []].
    apply existsb_eqb_In in Hn. congruence.
  - apply NoDup_ListNoDup. repeat constructor. intros [].
Qed.

Lemma find_app {A : Type} (f : A -> bool) (l1 l2 : list A) :
  find f (l1 ++ l2) =
  match find f l1 with
  | Some a => Some a
  | None => find f l2
  end.
Proof.
  induction l1 as [| a l1 IH]; simpl; [reflexivity |].
  destruct (f a); [reflexivity | exact IH].
Qed.

(** A bug that is not sent to a name leaves the bucket of that name alone. *)
Lemma bucketOf_other (now : Time.t) (rules : list SLARule.t) (l : list Bug)
  (x : Bug) (m : string) :
  assignedTo now rules m x = false ->
  bucketOf now rules (l ++ [x]) m = bucketOf now rules l m.
Proof.
  intros Hx. unfold bucketOf, severityOf.
  rewrite List.filter_app, find_app. simpl. rewrite Hx, app_nil_r.
  destruct (find (assignedTo now rules m) l); reflexivity.
Qed.

(** A bug sent to a name in use is appended and the severity stays. *)
Lemma bucketOf_same (now : Time.t) (rules : list SLARule.t) (l : list Bug)
  (x : Bug) (m : string) :
  assignedTo now rules m x = true ->
  In m (bucketNames now rules l) ->
  bucketOf now rules (l ++ [x]) m =
  mkBucket m (Severity (bucketOf now rules l m))
           (Bugs (bucketOf now rules l m) ++ [x]).
Proof.
  intros Hx Hm. unfold bucketOf, severityOf.
  rewrite List.filter_app, find_app. simpl. rewrite Hx.
  apply bucketNames_In in Hm. destruct Hm as (bug & Hb & Ha).
  destruct (find (assignedTo now rules m) l) eqn:F; [reflexivity |].
  exfalso. apply (find_none _ _ F) in Hb. congruence.
Qed.

(** A bug sent to an unused name starts the bucket with its rule's severity. *)
Lemma bucketOf_new (now : Time.t) (rules : list SLARule.t) (l : list Bug)
  (x : Bug) (r : SLARule.t) :
  firstViolated now rules x = Some r ->
  ~ In (SLARule.BucketName r) (bucketNames now rules l) ->
  bucketOf now rules (l ++ [x]) (SLARule.BucketName r) =
  mkBucket (SLARule.BucketName r) (SLARule.Severity r) [x].
Proof.
  intros Hr Hn. unfold bucketOf, severityOf.
  assert (Hx : assignedTo now rules (SLARule.BucketName r) x = true)
    by (unfold assignedTo; rewrite Hr; apply String.eqb_refl).
  assert (Hnone : forall bug, In bug l ->
            assignedTo now rules (SLARule.BucketName r) bug = false).
  { intros bug Hb.
    destruct (assignedTo now rules (SLARule.BucketName r) bug) eqn:E;
      [| reflexivity].
    exfalso. apply Hn, bucketNames_In. now exists bug. }
  assert (Hf : List.filter (assignedTo now rules (SLARule.BucketName r)) l = []).
  { clear -Hnone. induction l as [| a l IH]; [reflexivity |]. simpl.
    rewrite (Hnone a) by now left. apply IH. intros bug Hb. apply Hnone.
    now right. }
  assert (Hfind : find (assignedTo now rules (SLARule.BucketName r)) l = None).
  { clear -Hnone. induction l as [| a l IH]; [reflexivity |]. simpl.
    rewrite (Hnone a) by now left. apply IH. intros bug Hb. apply Hnone.
    now right. }
  rewrite List.filter_app, find_app, Hf, Hfind. simpl. now rewrite Hx, Hr.
Qed.

Lemma appendToNamed_map_absent (f : string -> Bucket) (n : string) (x : Bug)
  (names : list string) :
  (forall m, Name (f m) = m) -> ~ In n names ->
  appendToNamed n x (map f names) = None.
Proof.
  intros Hf Hn. apply appendToNamed_None, List.Forall_forall.
  intros c Hc. apply in_map_iff in Hc. destruct Hc as (m & <- & Hm).
  rewrite Hf. congruence.
Qed.

Lemma appendToNamed_map_present (f : string -> Bucket) (n : string) (x : Bug)
  (names : list string) :
  (forall m, Name (f m) = m) -> List.NoDup names -> In n names ->
  appendToNamed n x (map f names) =
  Some (map (fun m => if String.eqb m n
                      then mkBucket m (Severity (f m)) (Bugs (f m) ++ [x])
                      else f m) names).
Proof.
  intros Hf Hnd Hn. induction names as [| a rest IH]; [destruct Hn |].
  inversion Hnd as [| a' rest' Ha Hrest]; subst. simpl. rewrite Hf.
  destruct (String.eqb a n) eqn:E.
  - apply String.eqb_eq in E. subst a. do 2 f_equal.
    apply map_ext_in. intros m Hm.
    destruct (String.eqb m n) eqn:E'; [| reflexivity].
    apply String.eqb_eq in E'. subst m. contradiction.
  - apply String.eqb_neq in E. destruct Hn as [Hn | Hn]; [contradiction |].
    now rewrite (IH Hrest Hn).
Qed.

(** The bucket group before the sort, in closed form: one bucket for every
    name in use, in order of first use, holding in input order the bugs whose
    first violated rule names it, with the severity of the rule that sent the
    first of them. *)
Lemma collect_closed_form (now : Time.t) (rules : list SLARule.t)
  (bugs : list Bug) :
  Buckets (collect now rules bugs) =
  map (bucketOf now rules bugs) (bucketNames now rules bugs).
Proof.
  induction bugs as [| x l IH] using rev_ind; [reflexivity |].
  rewrite collect_snoc, scanRules_first_violation, bucketNames_snoc.
  fold (firstViolated now rules x).
  destruct (firstViolated now rules x) as [r |] eqn:E.
  - unfold AddToBucket. rewrite IH.
    destruct (existsb _ (bucketNames now rules l)) eqn:Ex.
    + apply existsb_eqb_In in Ex.
      rewrite (appendToNamed_map_present (bucketOf now rules l) _ x _
                 (fun m => eq_refl) (bucketNames_NoDup now rules l) Ex).
      simpl. apply map_ext_in. intros m Hm.
      destruct (String.eqb m (SLARule.BucketName r)) eqn:E'.
      * apply String.eqb_eq in E'. subst m. symmetry.
        apply bucketOf_same; [| exact Hm].
        unfold assignedTo. rewrite E. apply String.eqb_refl.
      * symmetry. apply bucketOf_other. unfold assignedTo. rewrite E.
        rewrite String.eqb_sym. exact E'.
    + assert (Hn : ~ In (SLARule.BucketName r) (bucketNames now rules l)).
      { intros H. apply existsb_eqb_In in H. congruence. }
      rewrite (appendToNamed_map_absent (bucketOf now rules l) _ x _
                 (fun m => eq_refl) Hn).
      simpl. rewrite map_app. simpl. rewrite (bucketOf_new _ _ _ _ _ E Hn).
      f_equal. apply map_ext_in. intros m Hm. symmetry.
      apply bucketOf_other. unfold assignedTo. rewrite E.
      apply String.eqb_neq. intros Heq. rewrite <- Heq in Hm. contradiction.
  - rewrite IH. apply map_ext_in. intros m Hm. symmetry.
    apply bucketOf_other. unfold assignedTo. now rewrite E.
Qed.

Lemma Evaluate_In (now : Time.t) (rules : list SLARule.t) (bugs : list Bug)
  (b : Bucket) :
  In b (Buckets (Evaluate now rules bugs)) <->
  In (Name b) (bucketNames now rules bugs) /\
  b = bucketOf now rules bugs (Name b).
Proof.
  unfold Evaluate. simpl.
  assert (HP := sortBuckets_Permutation (Buckets (collect now rules bugs))).
  rewrite collect_closed_form in *. split.
  - intros Hb. apply (Permutation_in _ HP) in Hb.
    apply in_map_iff in Hb. destruct Hb as (m & <- & Hm). simpl. now split.
  - intros [Hm Hb]. apply (Permutation_in _ (Permutation_sym HP)).
    rewrite Hb. apply in_map. exact Hm.
Qed.

(** ** First violation wins *)

Lemma find_first {A : Type} (f : A -> bool) (pre : list A) (x : A)
  (post : list A) :
  Forall (fun a => f a = false) pre -> f x = true ->
  find f (pre ++ x :: post) = Some x.
Proof.
  intros Hpre Hx. induction Hpre as [| a pre Ha Hpre IH]; simpl.
  - now rewrite Hx.
  - now rewrite Ha.
Qed.

Lemma find_none_Forall {A : Type} (f : A -> bool) (l : list A) :
  Forall (fun a => f a = false) l -> find f l = None.
Proof.
  induction 1 as [| a l Ha Hl IH]; simpl; [reflexivity |]. now rewrite Ha.
Qed.

Lemma Evaluate_holds (now : Time.t) (rules : list SLARule.t)
  (bugs : list Bug) (b : Bucket) (bug : Bug) :
  In b (Buckets (Evaluate now rules bugs)) -> In bug (Bugs b) ->
  assignedTo now rules (Name b) bug = true.
Proof.
  intros Hb Hbug. apply Evaluate_In in Hb. destruct Hb as [_ Hb].
  assert (HB : Bugs b = List.filter (assignedTo now rules (Name b)) bugs)
    by (rewrite Hb at 1; reflexivity).
  rewrite HB in Hbug. apply List.filter_In in Hbug. apply Hbug.
Qed.

(** C1. In [Evaluate] the first rule, in configured order, that a bug
    violates decides where the bug goes: the bug is put into the bucket that
    this rule names and into no other, whether or not rules before it match
    the bug; a rule that matches without being violated does not end the
    scan. A bug is left out of every bucket only when it violates none of
    the rules. *)
Theorem Evaluate_first_violation_wins (now : Time.t) (rules : list SLARule.t)
  (bugs : list Bug) (bug : Bug) :
  In bug bugs ->
  (forall pre r post,
     rules = pre ++ r :: post ->
     Forall (fun earlier => Violates now earlier bug = false) pre ->
     Violates now r bug = true ->
     (exists b,
        In b (Buckets (Evaluate now rules bugs)) /\
        Name b = SLARule.BucketName r /\ In bug (Bugs b)) /\
     (forall b,
        In b (Buckets (Evaluate now rules bugs)) -> In bug (Bugs b) ->
        Name b = SLARule.BucketName r)) /\
  (Forall (fun r => Violates now r bug = false) rules ->
   forall b, In b (Buckets (Evaluate now rules bugs)) -> ~ In bug (Bugs b)).
Proof.
  intros Hin. split.
  - intros pre r post Hrules Hpre Hr.
    assert (Hfirst : firstViolated now rules bug = Some r)
      by (unfold firstViolated; rewrite Hrules; now apply find_first).
    assert (Ha : assignedTo now rules (SLARule.BucketName r) bug = true)
      by (unfold assignedTo; rewrite Hfirst; apply String.eqb_refl).
    split.
    + exists (bucketOf now rules bugs (SLARule.BucketName r)).
      split; [| split; [reflexivity |]].
      * apply Evaluate_In. split; [| reflexivity]. simpl.
        apply bucketNames_In. exists bug. split; assumption.
      * simpl. apply List.filter_In. split; assumption.
    + intros b Hb Hbug.
      pose proof (Evaluate_holds _ _ _ _ _ Hb Hbug) as Hab.
      unfold assignedTo in Hab. rewrite Hfirst in Hab.
      apply String.eqb_eq in Hab. now symmetry.
  - intros Hnone b Hb Hbug.
    pose proof (Evaluate_holds _ _ _ _ _ Hb Hbug) as Hab.
    unfold assignedTo, firstViolated in Hab.
    rewrite (find_none_Forall _ _ Hnone) in Hab. discriminate.
Qed.

Lemma Evaluate_first_violation_witness :
  exists b,
    In b (Buckets (Evaluate Sample.now [Sample.high; Sample.stale]
                            [Sample.dayOld])) /\
    Name b = "STALE" /\ In Sample.dayOld (Bugs b).
Proof.
  assert (Hin : In Sample.dayOld [Sample.dayOld]) by (left; reflexivity).
  assert (Hpre : Forall (fun earlier =>
                           Violates Sample.now earlier Sample.dayOld = false)
                        [Sample.high])
    by (constructor; [vm_compute; reflexivity | constructor]).
  assert (Hv : Violates Sample.now Sample.stale Sample.dayOld = true)
    by (vm_compute; reflexivity).
  exact (proj1 (proj1 (Evaluate_first_violation_wins Sample.now
                         [Sample.high; Sample.stale] [Sample.dayOld]
                         Sample.dayOld Hin)
                  [Sample.high] Sample.stale [] eq_refl Hpre Hv)).
Defined.

(** X1. Every bucket [Evaluate] returns holds exactly the input bugs whose
    first violated rule names the bucket, in input order, and is not empty. *)
Theorem Evaluate_bucket_contents (now : Time.t) (rules : list SLARule.t)
  (bugs : list Bug) (b : Bucket) :
  In b (Buckets (Evaluate now rules bugs)) ->
  Bugs b = List.filter (assignedTo now rules (Name b)) bugs /\ Bugs b <> [].
Proof.
  intros Hb. apply Evaluate_In in Hb. destruct Hb as [Hm Hb].
  assert (HB : Bugs b = List.filter (assignedTo now rules (Name b)) bugs)
    by (rewrite Hb at 1; reflexivity).
  split; [exact HB |]. rewrite HB.
  apply bucketNames_In in Hm. destruct Hm as (bug & Hin & Ha).
  intros Hnil.
  assert (Hf : In bug (List.filter (assignedTo now rules (Name b)) bugs))
    by (apply filter_In; now split).
  rewrite Hnil in Hf. exact Hf.
Qed.

Lemma Evaluate_names (now : Time.t) (rules : list SLARule.t)
  (bugs : list Bug) :
  Permutation (map Name (Buckets (Evaluate now rules bugs)))
              (bucketNames now rules bugs).
Proof.
  unfold Evaluate. simpl.
  rewrite (Permutation_map Name
             (sortBuckets_Permutation (Buckets (collect now rules bugs)))).
  rewrite collect_closed_form, map_map. simpl. now rewrite map_id.
Qed.

(** X2. The buckets [Evaluate] returns have pairwise different names, and a
    name occurs among them iff the first violated rule of some input bug
    names it. *)
Theorem Evaluate_bucket_names (now : Time.t) (rules : list SLARule.t)
  (bugs : list Bug) :
  NoDup (map Name (Buckets (Evaluate now rules bugs))) /\
  (forall n,
     In n (map Name (Buckets (Evaluate now rules bugs))) <->
     exists bug, In bug bugs /\ assignedTo now rules n bug = true).
Proof.
  pose proof (Evaluate_names now rules bugs) as HP. split.
  - apply NoDup_ListNoDup.
    apply (Permutation_NoDup (Permutation_sym HP)), bucketNames_NoDup.
  - intros n. rewrite <- bucketNames_In. split.
    + apply Permutation_in. exact HP.
    + apply Permutation_in. symmetry. exact HP.
Qed.

Lemma violatesSome_firstViolated (now : Time.t) (rules : list SLARule.t)
  (bug : Bug) :
  violatesSome now rules bug =
  match firstViolated now rules bug with Some _ => true | None => false end.
Proof. apply find_existsb. Qed.

Lemma len_zero {A : Type} (l : list A) : (len l =? 0) = true <-> l = [].
Proof.
  unfold len. rewrite Z.eqb_eq. destruct l; simpl; [tauto |].
  split; [lia | discriminate].
Qed.

Lemma len_zero_false {A : Type} (l : list A) : (len l =? 0) = false <-> l <> [].
Proof.
  rewrite <- len_zero. destruct (len l =? 0); split; congruence.
Qed.

(** [Evaluate] returns no bucket at all iff no input bug violates any rule. *)
Lemma Evaluate_nil_iff (now : Time.t)
  (rules : list SLARule.t) (bugs : list Bug) :
  Buckets (Evaluate now rules bugs) = [] <->
  (forall bug, In bug bugs -> violatesSome now rules bug = false).
Proof.
  pose proof (Evaluate_names now rules bugs) as HP. split.
  - intros Hnil bug Hb. rewrite Hnil in HP. simpl in HP.
    apply Permutation_nil in HP.
    rewrite violatesSome_firstViolated.
    destruct (firstViolated now rules bug) as [r |] eqn:E; [| reflexivity].
    exfalso.
    assert (Hin : In (SLARule.BucketName r) (bucketNames now rules bugs)).
    { apply bucketNames_In. exists bug. split; [exact Hb |].
      unfold assignedTo. rewrite E. apply String.eqb_refl. }
    rewrite HP in Hin. exact Hin.
  - intros Hall.
    destruct (bucketNames now rules bugs) as [| n names] eqn:E.
    + apply Permutation_sym, Permutation_nil in HP.
      now apply map_eq_nil in HP.
    + exfalso.
      assert (Hin : In n (bucketNames now rules bugs))
        by (rewrite E; now left).
      apply bucketNames_In in Hin. destruct Hin as (bug & Hb & Ha).
      specialize (Hall bug Hb). rewrite violatesSome_firstViolated in Hall.
      unfold assignedTo in Ha.
      destruct (firstViolated now rules bug); discriminate.
Qed.

(** X3. Once the bugs are fetched the check command ends in one of three
    ways. With no bug at all it says that there are no unresolved bugs and
    returns. With bugs of which none violates a rule, [Evaluate] returns no
    bucket, the compliance message is printed and the command returns. When
    some bug violates a rule the violation report of the evaluation is
    printed and the command exits with status 1. *)
Theorem runCheck_outcome (now : Time.t) (SLARules : list ConfigRule.t)
  (bugs : list Bug) :
  (runCheck now SLARules bugs = (NoUnresolvedBugs, ReturnNil) <-> bugs = []) /\
  (runCheck now SLARules bugs = (AllCompliant, ReturnNil) <->
   bugs <> [] /\
   forall bug, In bug bugs ->
     violatesSome now (NewEvaluator SLARules) bug = false) /\
  (runCheck now SLARules bugs =
     (ViolationReport (Evaluate now (NewEvaluator SLARules) bugs), Exit 1) <->
   exists bug, In bug bugs /\
     violatesSome now (NewEvaluator SLARules) bug = true) /\
  (runCheck now SLARules bugs = (NoUnresolvedBugs, ReturnNil) \/
   runCheck now SLARules bugs = (AllCompliant, ReturnNil) \/
   runCheck now SLARules bugs =
     (ViolationReport (Evaluate now (NewEvaluator SLARules) bugs), Exit 1)).
Proof.
  pose proof (Evaluate_nil_iff now (NewEvaluator SLARules) bugs) as Hnil.
  assert (Hex : (exists bug, In bug bugs /\
                   violatesSome now (NewEvaluator SLARules) bug = true) <->
                ~ (forall bug, In bug bugs ->
                     violatesSome now (NewEvaluator SLARules) bug = false)).
  { split.
    - intros (bug & Hb & Hv) Hall. rewrite (Hall bug Hb) in Hv. discriminate.
    - intros Hnot. clear Hnil.
      induction bugs as [| x l IH].
      + exfalso. apply Hnot. intros bug [].
      + destruct (violatesSome now (NewEvaluator SLARules) x) eqn:E.
        * exists x. split; [left; reflexivity | exact E].
        * destruct IH as (bug & Hb & Hv).
          -- intros Hall. apply Hnot. intros bug [<- | Hb]; [exact E |].
             now apply Hall.
          -- exists bug. split; [right; exact Hb | exact Hv]. }
  unfold runCheck, DisplayBuckets.
  destruct (len bugs =? 0) eqn:Eb.
  - apply len_zero in Eb. subst bugs.
    split; [tauto | split; [| split; [| tauto]]].
    + split; [discriminate | intros [H _]; contradiction].
    + split; [discriminate | intros (bug & [] & _)].
  - apply len_zero_false in Eb.
    set (bg := Evaluate now (NewEvaluator SLARules) bugs) in *.
    destruct (Buckets bg) as [| b rest] eqn:EB.
    + assert (Hall := proj1 Hnil eq_refl).
      change (len (@nil Bucket)) with 0. simpl.
      split; [split; [discriminate | contradiction] |].
      split; [split; [intros _; split; assumption | reflexivity] |].
      split; [| right; left; reflexivity].
      split; [discriminate |]. intros Hsome. apply Hex in Hsome. contradiction.
    + assert (Hnot : ~ (forall bug, In bug bugs ->
                          violatesSome now (NewEvaluator SLARules) bug = false))
        by (intros Hall; apply Hnil in Hall; discriminate).
      assert (Hz : (len (b :: rest) =? 0) = false)
        by (apply len_zero_false; discriminate).
      assert (Hp : (0 <? len (b :: rest)) = true)
        by (apply Z.ltb_lt; unfold len; simpl length; lia).
      rewrite Hz, Hp.
      split; [split; [discriminate | contradiction] |].
      split; [split; [discriminate | intros [_ Hall]; contradiction] |].
      split; [| right; right; reflexivity].
      split; [intros _; now apply Hex | reflexivity].
Qed.

Lemma find_hd_filter {A : Type} (f : A -> bool) (l : list A) :
  find f l = hd_error (List.filter f l).
Proof.
  induction l as [| a l IH]; simpl; [reflexivity |].
  destruct (f a); [reflexivity | exact IH].
Qed.

(** The rule behind a bucket: the first violated rule of its first bug. *)
Lemma Evaluate_first_rule (now : Time.t) (rules : list SLARule.t)
  (bugs : list Bug) (b : Bucket) :
  In b (Buckets (Evaluate now rules bugs)) ->
  exists bug r,
    hd_error (Bugs b) = Some bug /\
    firstViolated now rules bug = Some r /\
    In r rules /\
    SLARule.BucketName r = Name b /\
    Severity b = SLARule.Severity r.
Proof.
  intros Hb. apply Evaluate_In in Hb. destruct Hb as [Hm Hb].
  apply bucketNames_In in Hm. destruct Hm as (bug0 & Hin0 & Ha0).
  destruct (find (assignedTo now rules (Name b)) bugs) as [bug |] eqn:F.
  - pose proof (find_some _ _ F) as [Hin Ha].
    unfold assignedTo in Ha.
    destruct (firstViolated now rules bug) as [r |] eqn:E; [| discriminate].
    apply String.eqb_eq in Ha. exists bug, r.
    assert (HB : Bugs b = List.filter (assignedTo now rules (Name b)) bugs)
      by (rewrite Hb at 1; reflexivity).
    assert (HS : Severity b = severityOf now rules (Name b) bugs)
      by (rewrite Hb at 1; reflexivity).
    repeat split.
    + now rewrite HB, <- find_hd_filter.
    + exact E.
    + unfold firstViolated in E. apply find_some in E. exact (proj1 E).
    + exact Ha.
    + rewrite HS. unfold severityOf. now rewrite F, E.
  - exfalso. apply (find_none _ _ F) in Hin0. congruence.
Qed.

(** X4. The severity of a bucket [Evaluate] returns is the severity of the
    rule that sent the bucket's first bug there: the first violated rule of
    that bug, which is a configured rule naming the bucket. Later rules that
    name the same bucket with another severity do not change it. *)
Theorem Evaluate_bucket_severity (now : Time.t) (rules : list SLARule.t)
  (bugs : list Bug) (b : Bucket) :
  In b (Buckets (Evaluate now rules bugs)) ->
  exists bug r,
    hd_error (Bugs b) = Some bug /\
    firstViolated now rules bug = Some r /\
    In r rules /\
    SLARule.BucketName r = Name b /\
    Severity b = SLARule.Severity r.
Proof. apply Evaluate_first_rule. Qed.

Lemma Evaluate_bucket_witness :
  exists b,
    In b (Buckets (Evaluate Sample.now [Sample.urgent; Sample.stale]
                            [Sample.issue1; Sample.issue2; Sample.issue3])) /\
    Bugs b =
      List.filter (assignedTo Sample.now [Sample.urgent; Sample.stale] (Name b))
                  [Sample.issue1; Sample.issue2; Sample.issue3] /\
    Bugs b = [Sample.issue3].
Proof.
  exists (mkBucket "STALE" 3 [Sample.issue3]).
  assert (Hin : In (mkBucket "STALE" 3 [Sample.issue3])
                   (Buckets (Evaluate Sample.now [Sample.urgent; Sample.stale]
                      [Sample.issue1; Sample.issue2; Sample.issue3])))
    by (vm_compute; right; left; reflexivity).
  split; [exact Hin | split; [| reflexivity]].
  exact (proj1 (Evaluate_bucket_contents _ _ _ _ Hin)).
Defined.

Lemma Evaluate_severity_witness :
  exists bug r,
    hd_error [Sample.issue3] = Some bug /\
    firstViolated Sample.now [Sample.urgent; Sample.stale] bug = Some r /\
    In r [Sample.urgent; Sample.stale] /\
    SLARule.BucketName r = "STALE" /\
    3 = SLARule.Severity r.
Proof.
  assert (Hin : In (mkBucket "STALE" 3 [Sample.issue3])
                   (Buckets (Evaluate Sample.now [Sample.urgent; Sample.stale]
                      [Sample.issue1; Sample.issue2; Sample.issue3])))
    by (vm_compute; right; left; reflexivity).
  exact (Evaluate_bucket_severity _ _ _ _ Hin).
Defined.

(** ** The violation summary and the printed total *)

Lemma GetViolationSummary_fold (bs : list Bucket) (acc : gmap string Z)
  (n : string) :
  fold_left (fun summary bucket => <[Name bucket := len (Bugs bucket)]> summary)
            bs acc !! n =
  match find (fun b => String.eqb (Name b) n) (rev bs) with
  | Some b => Some (len (Bugs b))
  | None => acc !! n
  end.
Proof.
  revert acc. induction bs as [| b bs IH] using rev_ind; intros acc.
  - reflexivity.
  - rewrite fold_left_app, rev_app_distr. simpl.
    destruct (String.eqb (Name b) n) eqn:E.
    + apply String.eqb_eq in E. subst n. apply lookup_insert_eq.
    + apply String.eqb_neq in E. rewrite lookup_insert_ne by exact E.
      apply IH.
Qed.

(** X5. The violation summary of an evaluation maps a bucket name to the
    number of input bugs whose first violated rule names that bucket, and has
    no entry for a name that no bug is sent to. *)
Theorem GetViolationSummary_of_Evaluate (now : Time.t)
  (rules : list SLARule.t) (bugs : list Bug) (n : string) :
  GetViolationSummary (Evaluate now rules bugs) !! n =
  match List.filter (assignedTo now rules n) bugs with
  | [] => None
  | sent => Some (len sent)
  end.
Proof.
  unfold GetViolationSummary. rewrite GetViolationSummary_fold.
  destruct (find _ (rev (Buckets (Evaluate now rules bugs)))) as [b |] eqn:F.
  - apply find_some in F. destruct F as [Hin Hn].
    apply in_rev, Evaluate_In in Hin. destruct Hin as [Hm Hb].
    apply String.eqb_eq in Hn. subst n.
    assert (HB : Bugs b = List.filter (assignedTo now rules (Name b)) bugs)
      by (rewrite Hb at 1; reflexivity).
    rewrite <- HB.
    apply bucketNames_In in Hm. destruct Hm as (bug & Hbug & Ha).
    assert (Hf : In bug (Bugs b))
      by (rewrite HB; apply List.filter_In; split; assumption).
    destruct (Bugs b); [destruct Hf | reflexivity].
  - rewrite lookup_empty.
    destruct (List.filter (assignedTo now rules n) bugs) as [| bug sent] eqn:E;
      [reflexivity | exfalso].
    assert (Hf : In bug (List.filter (assignedTo now rules n) bugs))
      by (rewrite E; left; reflexivity).
    apply List.filter_In in Hf.
    assert (Hm : In n (bucketNames now rules bugs))
      by (apply bucketNames_In; exists bug; exact Hf).
    apply (Permutation_in _ (Permutation_sym (Evaluate_names now rules bugs)))
      in Hm.
    apply in_map_iff in Hm. destruct Hm as (b & Hn & Hb).
    apply in_rev in Hb. apply (find_none _ _ F) in Hb.
    simpl in Hb. rewrite Hn, String.eqb_refl in Hb. discriminate.
Qed.

Lemma totalViolations_bucketed (bg : BucketGroup) :
  totalViolations bg = len (bucketed bg).
Proof.
  unfold totalViolations, bucketed, len.
  assert (H : forall bs t,
             fold_left (fun total bucket => total + len (Bugs bucket)) bs t =
             t + Z.of_nat (length (concat (map Bugs bs)))).
  { induction bs as [| b bs IH]; intros t; simpl.
    - lia.
    - rewrite IH, length_app. unfold len. lia. }
  now rewrite H.
Qed.

(** X6. The total that the report prints under an evaluation, the sum of the
    bucket sizes, is the number of input bugs that violate at least one rule:
    no bug is counted twice, however many rules it violates. *)
Theorem totalViolations_of_Evaluate (now : Time.t) (rules : list SLARule.t)
  (bugs : list Bug) :
  totalViolations (Evaluate now rules bugs) =
  len (List.filter (violatesSome now rules) bugs).
Proof.
  rewrite totalViolations_bucketed. unfold len. f_equal.
  apply Permutation_length.
  unfold Evaluate, collect. rewrite bucketed_Sort, bucketed_fold.
  reflexivity.
Qed.

(** ** Configuration validation *)

Lemma checkRule_None (i : nat) (rule : ConfigRule.t) :
  Config.checkRule i rule = None <->
  ConfigRule.Name rule <> "" /\
  F64.ltb (ConfigRule.MaxAgeDays rule) F64.zero = false /\
  ConfigRule.Bucket rule <> "" /\
  1 <= ConfigRule.Severity rule.
Proof.
  unfold Config.checkRule.
  destruct (String.eqb (ConfigRule.Name rule) "") eqn:En.
  { apply String.eqb_eq in En. split; [discriminate | tauto]. }
  apply String.eqb_neq in En.
  destruct (F64.ltb (ConfigRule.MaxAgeDays rule) F64.zero).
  { split; [discriminate | intros (_ & H & _); discriminate]. }
  destruct (String.eqb (ConfigRule.Bucket rule) "") eqn:Eb.
  { apply String.eqb_eq in Eb. split; [discriminate | tauto]. }
  apply String.eqb_neq in Eb.
  destruct (ConfigRule.Severity rule <? 1) eqn:Es.
  { apply Z.ltb_lt in Es. split; [discriminate | intros (_ & _ & _ & H); lia]. }
  apply Z.ltb_ge in Es. tauto.
Qed.

Lemma checkRules_None (i : nat) (rules : list ConfigRule.t) :
  Config.checkRules i rules = None <->
  forall rule, In rule rules -> Config.checkRule i rule = None.
Proof.
  revert i. induction rules as [| r rest IH]; intros i; simpl.
  - split; [intros _ rule [] | reflexivity].
  - destruct (Config.checkRule i r) eqn:E.
    + split; [discriminate |]. intros H. specialize (H r (or_introl eq_refl)).
      congruence.
    + rewrite IH. split.
      * intros H rule [<- | Hin]; [exact E |].
        apply checkRule_None. apply (checkRule_None (S i)). now apply H.
      * intros H rule Hin. apply checkRule_None. apply (checkRule_None i).
        apply H. now right.
Qed.

(** X7. [Validate] accepts a configuration exactly when the URL, the email
    and the token are set, a project is named in either form, and there is at
    least one rule, every rule having a name, a bucket, a threshold that is
    not below zero and a severity of at least 1. *)
Theorem Validate_accepts_iff (c : Config.t) :
  snd (Config.Validate c) = None <->
  Config.BaseURL (Config.Jira c) <> "" /\
  Config.Email (Config.Jira c) <> "" /\
  Config.APIToken (Config.Jira c) <> "" /\
  (Config.ProjectKeys (Config.Jira c) <> [] \/
   Config.ProjectKey (Config.Jira c) <> "") /\
  Config.SLARules c <> [] /\
  (forall rule, In rule (Config.SLARules c) ->
     ConfigRule.Name rule <> "" /\
     F64.ltb (ConfigRule.MaxAgeDays rule) F64.zero = false /\
     ConfigRule.Bucket rule <> "" /\
     1 <= ConfigRule.Severity rule).
Proof.
  unfold Config.Validate.
  destruct (String.eqb (Config.BaseURL (Config.Jira c)) "") eqn:E1.
  { apply String.eqb_eq in E1. split; [discriminate | tauto]. }
  apply String.eqb_neq in E1.
  destruct (String.eqb (Config.Email (Config.Jira c)) "") eqn:E2.
  { apply String.eqb_eq in E2. split; [discriminate | tauto]. }
  apply String.eqb_neq in E2.
  destruct (String.eqb (Config.APIToken (Config.Jira c)) "") eqn:E3.
  { apply String.eqb_eq in E3. split; [discriminate | tauto]. }
  apply String.eqb_neq in E3.
  destruct (len (Config.ProjectKeys (Config.Jira c)) =? 0) eqn:E4;
    destruct (String.eqb (Config.ProjectKey (Config.Jira c)) "") eqn:E5;
    simpl.
  - rewrite len_zero in E4. apply String.eqb_eq in E5.
    split; [discriminate | tauto].
  - rewrite len_zero in E4. apply String.eqb_neq in E5.
    destruct (len (Config.SLARules c) =? 0) eqn:E6; simpl.
    + rewrite len_zero in E6. split; [discriminate | tauto].
    + rewrite len_zero_false in E6. rewrite checkRules_None. split.
      * intros H.
        split; [exact E1 | split; [exact E2 | split; [exact E3 |]]].
        split; [right; assumption | split; [exact E6 |]].
        intros rule Hin. apply (checkRule_None 0), H, Hin.
      * intros (_ & _ & _ & _ & _ & H) rule Hin. apply checkRule_None, H, Hin.
  - rewrite len_zero_false in E4.
    destruct (len (Config.SLARules c) =? 0) eqn:E6; simpl.
    + rewrite len_zero in E6. split; [discriminate | tauto].
    + rewrite len_zero_false in E6. rewrite checkRules_None. split.
      * intros H.
        split; [exact E1 | split; [exact E2 | split; [exact E3 |]]].
        split; [left; assumption | split; [exact E6 |]].
        intros rule Hin. apply (checkRule_None 0), H, Hin.
      * intros (_ & _ & _ & _ & _ & H) rule Hin. apply checkRule_None, H, Hin.
  - rewrite len_zero_false in E4.
    destruct (len (Config.SLARules c) =? 0) eqn:E6; simpl.
    + rewrite len_zero in E6. split; [discriminate | tauto].
    + rewrite len_zero_false in E6. rewrite checkRules_None. split.
      * intros H.
        split; [exact E1 | split; [exact E2 | split; [exact E3 |]]].
        split; [left; assumption | split; [exact E6 |]].
        intros rule Hin. apply (checkRule_None 0), H, Hin.
      * intros (_ & _ & _ & _ & _ & H) rule Hin. apply checkRule_None, H, Hin.
Qed.

(** X8. A configuration that [Validate] accepts leaves the call with a
    non-empty list of project keys: the configured list when there is one,
    and otherwise the single older project key, which is ignored when both
    are given. Nothing else is changed. *)
Theorem Validate_migrates_project_key (c : Config.t) :
  snd (Config.Validate c) = None ->
  Config.ProjectKeys (Config.Jira (fst (Config.Validate c))) =
    match Config.ProjectKeys (Config.Jira c) with
    | [] => [Config.ProjectKey (Config.Jira c)]
    | keys => keys
    end /\
  Config.ProjectKeys (Config.Jira (fst (Config.Validate c))) <> [] /\
  Config.SLARules (fst (Config.Validate c)) = Config.SLARules c /\
  Config.BaseURL (Config.Jira (fst (Config.Validate c))) =
    Config.BaseURL (Config.Jira c) /\
  Config.Email (Config.Jira (fst (Config.Validate c))) =
    Config.Email (Config.Jira c) /\
  Config.APIToken (Config.Jira (fst (Config.Validate c))) =
    Config.APIToken (Config.Jira c) /\
  Config.ProjectKey (Config.Jira (fst (Config.Validate c))) =
    Config.ProjectKey (Config.Jira c).
Proof.
  unfold Config.Validate.
  destruct (String.eqb (Config.BaseURL (Config.Jira c)) ""); [discriminate |].
  destruct (String.eqb (Config.Email (Config.Jira c)) ""); [discriminate |].
  destruct (String.eqb (Config.APIToken (Config.Jira c)) ""); [discriminate |].
  destruct (len (Config.ProjectKeys (Config.Jira c)) =? 0) eqn:E4;
    destruct (String.eqb (Config.ProjectKey (Config.Jira c)) "") eqn:E5;
    simpl; try discriminate.
  all: destruct (len (Config.SLARules c) =? 0); simpl; try discriminate.
  all: intros _.
  - rewrite len_zero in E4. rewrite E4. repeat split; discriminate.
  - rewrite len_zero_false in E4.
    destruct (Config.ProjectKeys (Config.Jira c)); [contradiction |].
    repeat split; discriminate.
  - rewrite len_zero_false in E4.
    destruct (Config.ProjectKeys (Config.Jira c)); [contradiction |].
    repeat split; discriminate.
Qed.

Lemma Validate_migrates_witness :
  Config.ProjectKeys (Config.Jira (fst (Config.Validate Sample.config))) =
  ["TOOLS"].
Proof.
  exact (proj1 (Validate_migrates_project_key Sample.config eq_refl)).
Defined.

Lemma checkRules_Some (i : nat) (rules : list ConfigRule.t) (e : Config.Error) :
  Config.checkRules i rules = Some e ->
  exists k rule,
    nth_error rules k = Some rule /\
    Config.checkRule (i + k) rule = Some e /\
    forall j earlier, (j < k)%nat -> nth_error rules j = Some earlier ->
      Config.checkRule (i + j) earlier = None.
Proof.
  revert i. induction rules as [| r rest IH]; intros i; simpl.
  - discriminate.
  - destruct (Config.checkRule i r) eqn:E.
    + intros [= <-]. exists 0%nat, r. rewrite Nat.add_0_r.
      repeat split; [exact E |]. intros j earlier Hj. lia.
    + intros H. apply IH in H. destruct H as (k & rule & Hn & Hc & Hall).
      exists (S k), rule. rewrite <- plus_n_Sm. repeat split; [exact Hn | exact Hc |].
      intros [| j] earlier Hj Hnth; simpl in Hnth.
      * injection Hnth as <-. now rewrite Nat.add_0_r.
      * rewrite <- plus_n_Sm. apply (Hall j earlier); [lia | exact Hnth].
Qed.

Lemma checkRule_Some (k : nat) (rule : ConfigRule.t) (e : Config.Error) :
  Config.checkRule k rule = Some e <->
  (ConfigRule.Name rule = "" /\ e = Config.NameRequired k) \/
  (ConfigRule.Name rule <> "" /\
   F64.ltb (ConfigRule.MaxAgeDays rule) F64.zero = true /\
   e = Config.MaxAgeNegative k) \/
  (ConfigRule.Name rule <> "" /\
   F64.ltb (ConfigRule.MaxAgeDays rule) F64.zero = false /\
   ConfigRule.Bucket rule = "" /\ e = Config.BucketRequired k) \/
  (ConfigRule.Name rule <> "" /\
   F64.ltb (ConfigRule.MaxAgeDays rule) F64.zero = false /\
   ConfigRule.Bucket rule <> "" /\
   ConfigRule.Severity rule < 1 /\ e = Config.SeverityTooLow k).
Proof.
  unfold Config.checkRule.
  destruct (String.eqb (ConfigRule.Name rule) "") eqn:En.
  { apply String.eqb_eq in En. split.
    - intros [= <-]. left. split; [exact En | reflexivity].
    - intros [[_ ->] | [[H _] | [[H _] | [H _]]]];
        [reflexivity | contradiction ..]. }
  apply String.eqb_neq in En.
  destruct (F64.ltb (ConfigRule.MaxAgeDays rule) F64.zero) eqn:El.
  { split.
    - intros [= <-]. right. left. repeat split; assumption.
    - intros [[H _] | [(_ & _ & ->) | [(_ & H & _) | (_ & H & _)]]];
        [contradiction | reflexivity | discriminate ..]. }
  destruct (String.eqb (ConfigRule.Bucket rule) "") eqn:Eb.
  { apply String.eqb_eq in Eb. split.
    - intros [= <-]. right. right. left. repeat split; assumption.
    - intros [[H _] | [(_ & H & _) | [(_ & _ & _ & ->) | (_ & _ & H & _)]]];
        [contradiction | discriminate | reflexivity | contradiction]. }
  apply String.eqb_neq in Eb.
  destruct (ConfigRule.Severity rule <? 1) eqn:Es.
  { apply Z.ltb_lt in Es. split.
    - intros [= <-]. right. right. right. repeat split; assumption.
    - intros [[H _] | [(_ & H & _) | [(_ & _ & H & _) | (_ & _ & _ & _ & ->)]]];
        [contradiction | discriminate | contradiction | reflexivity]. }
  apply Z.ltb_ge in Es. split; [discriminate |].
  intros [[H _] | [(_ & H & _) | [(_ & _ & H & _) | (_ & _ & _ & H & _)]]];
    [contradiction | discriminate | contradiction | lia].
Qed.

Lemma checkRules_Some_inv (i : nat) (rules : list ConfigRule.t)
  (e : Config.Error) (k : nat) (rule : ConfigRule.t) :
  nth_error rules k = Some rule ->
  Config.checkRule (i + k) rule = Some e ->
  (forall j earlier, (j < k)%nat -> nth_error rules j = Some earlier ->
     Config.checkRule (i + j) earlier = None) ->
  Config.checkRules i rules = Some e.
Proof.
  revert i k. induction rules as [| r rest IH]; intros i k Hn Hc Hall.
  - destruct k; discriminate.
  - destruct k as [| k]; simpl in Hn |- *.
    + injection Hn as ->. rewrite Nat.add_0_r in Hc. now rewrite Hc.
    + rewrite <- (Nat.add_0_r i) at 1.
      rewrite (Hall 0%nat r ltac:(lia) eq_refl).
      apply (IH (S i) k Hn).
      * now rewrite <- plus_n_Sm in Hc.
      * intros j earlier Hj Hnth.
        pose proof (Hall (S j) earlier ltac:(lia) Hnth) as H.
        now rewrite <- plus_n_Sm in H.
Qed.

(** The error [Validate] returns, check by check. *)
Lemma Validate_error (c : Config.t) :
  snd (Config.Validate c) =
  if String.eqb (Config.BaseURL (Config.Jira c)) ""
  then Some Config.BaseURLRequired
  else if String.eqb (Config.Email (Config.Jira c)) ""
  then Some Config.EmailRequired
  else if String.eqb (Config.APIToken (Config.Jira c)) ""
  then Some Config.APITokenRequired
  else if (len (Config.ProjectKeys (Config.Jira c)) =? 0) &&
          String.eqb (Config.ProjectKey (Config.Jira c)) ""
  then Some Config.ProjectRequired
  else if len (Config.SLARules c) =? 0 then Some Config.RuleRequired
  else Config.checkRules 0 (Config.SLARules c).
Proof.
  unfold Config.Validate.
  destruct (String.eqb (Config.BaseURL (Config.Jira c)) ""); [reflexivity |].
  destruct (String.eqb (Config.Email (Config.Jira c)) ""); [reflexivity |].
  destruct (String.eqb (Config.APIToken (Config.Jira c)) ""); [reflexivity |].
  destruct (len (Config.ProjectKeys (Config.Jira c)) =? 0);
    destruct (String.eqb (Config.ProjectKey (Config.Jira c)) ""); simpl;
    try reflexivity.
  all: destruct (len (Config.SLARules c) =? 0); reflexivity.
Qed.

(** X9. [Validate] reports the first failure in a fixed order: the base URL,
    the email, the API token, the project, the empty rule list, and only
    then the rules. A rule error is returned only when the Jira section is in
    order; it carries the index of the first rule, in configured order, that
    fails a check, and it is the first check that this rule fails, in the
    order name, threshold, bucket, severity; every rule before it passes all
    four. *)
Theorem Validate_reports_first_bad_rule (c : Config.t) (e : Config.Error) :
  snd (Config.Validate c) = Some e <->
  (Config.BaseURL (Config.Jira c) = "" /\ e = Config.BaseURLRequired) \/
  (Config.BaseURL (Config.Jira c) <> "" /\
   Config.Email (Config.Jira c) = "" /\ e = Config.EmailRequired) \/
  (Config.BaseURL (Config.Jira c) <> "" /\
   Config.Email (Config.Jira c) <> "" /\
   Config.APIToken (Config.Jira c) = "" /\ e = Config.APITokenRequired) \/
  (Config.BaseURL (Config.Jira c) <> "" /\
   Config.Email (Config.Jira c) <> "" /\
   Config.APIToken (Config.Jira c) <> "" /\
   Config.ProjectKeys (Config.Jira c) = [] /\
   Config.ProjectKey (Config.Jira c) = "" /\ e = Config.ProjectRequired) \/
  (Config.BaseURL (Config.Jira c) <> "" /\
   Config.Email (Config.Jira c) <> "" /\
   Config.APIToken (Config.Jira c) <> "" /\
   (Config.ProjectKeys (Config.Jira c) <> [] \/
    Config.ProjectKey (Config.Jira c) <> "") /\
   Config.SLARules c = [] /\ e = Config.RuleRequired) \/
  (Config.BaseURL (Config.Jira c) <> "" /\
   Config.Email (Config.Jira c) <> "" /\
   Config.APIToken (Config.Jira c) <> "" /\
   (Config.ProjectKeys (Config.Jira c) <> [] \/
    Config.ProjectKey (Config.Jira c) <> "") /\
   exists k rule,
     nth_error (Config.SLARules c) k = Some rule /\
     ((ConfigRule.Name rule = "" /\ e = Config.NameRequired k) \/
      (ConfigRule.Name rule <> "" /\
       F64.ltb (ConfigRule.MaxAgeDays rule) F64.zero = true /\
       e = Config.MaxAgeNegative k) \/
      (ConfigRule.Name rule <> "" /\
       F64.ltb (ConfigRule.MaxAgeDays rule) F64.zero = false /\
       ConfigRule.Bucket rule = "" /\ e = Config.BucketRequired k) \/
      (ConfigRule.Name rule <> "" /\
       F64.ltb (ConfigRule.MaxAgeDays rule) F64.zero = false /\
       ConfigRule.Bucket rule <> "" /\
       ConfigRule.Severity rule < 1 /\ e = Config.SeverityTooLow k)) /\
     forall j earlier, (j < k)%nat ->
       nth_error (Config.SLARules c) j = Some earlier ->
       ConfigRule.Name earlier <> "" /\
       F64.ltb (ConfigRule.MaxAgeDays earlier) F64.zero = false /\
       ConfigRule.Bucket earlier <> "" /\
       1 <= ConfigRule.Severity earlier).
Proof.
  rewrite Validate_error.
  destruct (String.eqb (Config.BaseURL (Config.Jira c)) "") eqn:E1.
  { apply String.eqb_eq in E1. split.
    - intros [= <-]. left. split; [exact E1 | reflexivity].
    - intros [[_ ->] | [[H _] | [[H _] | [[H _] | [[H _] | [H _]]]]]];
        [reflexivity | contradiction ..]. }
  apply String.eqb_neq in E1.
  destruct (String.eqb (Config.Email (Config.Jira c)) "") eqn:E2.
  { apply String.eqb_eq in E2. split.
    - intros [= <-]. right. left. repeat split; assumption.
    - intros [[H _] | [(_ & _ & ->) | [(_ & H & _) | [(_ & H & _) |
              [(_ & H & _) | (_ & H & _)]]]]];
        [contradiction | reflexivity | contradiction ..]. }
  apply String.eqb_neq in E2.
  destruct (String.eqb (Config.APIToken (Config.Jira c)) "") eqn:E3.
  { apply String.eqb_eq in E3. split.
    - intros [= <-]. right. right. left. repeat split; assumption.
    - intros [[H _] | [(_ & H & _) | [(_ & _ & _ & ->) | [(_ & _ & H & _) |
              [(_ & _ & H & _) | (_ & _ & H & _)]]]]];
        [contradiction | contradiction | reflexivity | contradiction ..]. }
  apply String.eqb_neq in E3.
  assert (Hproj : ((len (Config.ProjectKeys (Config.Jira c)) =? 0) &&
                   String.eqb (Config.ProjectKey (Config.Jira c)) "") = true <->
                  Config.ProjectKeys (Config.Jira c) = [] /\
                  Config.ProjectKey (Config.Jira c) = "")
    by (rewrite andb_true_iff, len_zero, String.eqb_eq; reflexivity).
  destruct ((len (Config.ProjectKeys (Config.Jira c)) =? 0) &&
            String.eqb (Config.ProjectKey (Config.Jira c)) "") eqn:E4.
  { destruct (proj1 Hproj eq_refl) as [Hk Hp]. split.
    - intros [= <-]. right. right. right. left. repeat split; assumption.
    - intros [[H _] | [(_ & H & _) | [(_ & _ & H & _) |
              [(_ & _ & _ & _ & _ & ->) | [(_ & _ & _ & H & _) |
               (_ & _ & _ & H & _)]]]]];
        [contradiction | contradiction | contradiction | reflexivity | |];
        destruct H; contradiction. }
  assert (Hsome : Config.ProjectKeys (Config.Jira c) <> [] \/
                  Config.ProjectKey (Config.Jira c) <> "").
  { destruct (Config.ProjectKeys (Config.Jira c)) as [| x l];
      [| left; discriminate].
    right. intros Hp. assert (Hboth : false = true); [| discriminate].
    apply Hproj. split; [reflexivity | exact Hp]. }
  assert (Hnot : ~ (Config.ProjectKeys (Config.Jira c) = [] /\
                    Config.ProjectKey (Config.Jira c) = ""))
    by (intros H; apply Hproj in H; discriminate).
  destruct (len (Config.SLARules c) =? 0) eqn:E5.
  { apply len_zero in E5. split.
    - intros [= <-]. right. right. right. right. left.
      repeat split; assumption.
    - intros [[H _] | [(_ & H & _) | [(_ & _ & H & _) |
              [(_ & _ & _ & Hk & Hp & _) | [(_ & _ & _ & _ & _ & ->) |
               (_ & _ & _ & _ & k & rule & Hn & _)]]]]];
        [contradiction | contradiction | contradiction | | reflexivity |].
      + exfalso. apply Hnot. split; assumption.
      + rewrite E5 in Hn. destruct k; discriminate. }
  apply len_zero_false in E5. split.
  - intros Hc. right. right. right. right. right.
    split; [exact E1 | split; [exact E2 | split; [exact E3 |
      split; [exact Hsome |]]]].
    apply checkRules_Some in Hc. destruct Hc as (k & rule & Hn & Hk & Hall).
    exists k, rule. split; [exact Hn | split].
    + apply checkRule_Some. exact Hk.
    + intros j earlier Hj Hnth. apply (checkRule_None j).
      exact (Hall j earlier Hj Hnth).
  - intros [[H _] | [(_ & H & _) | [(_ & _ & H & _) |
            [(_ & _ & _ & Hk & Hp & _) | [(_ & _ & _ & _ & H & _) |
             (_ & _ & _ & _ & k & rule & Hn & Hk & Hall)]]]]];
      [contradiction | contradiction | contradiction | | contradiction |].
    + exfalso. apply Hnot. split; assumption.
    + apply (checkRules_Some_inv 0 _ e k rule Hn).
      * apply checkRule_Some. exact Hk.
      * intros j earlier Hj Hnth. apply checkRule_None.
        exact (Hall j earlier Hj Hnth).
Qed.

Lemma Validate_reports_witness :
  snd (Config.Validate Sample.badConfig) = Some (Config.BucketRequired 1).
Proof.
  apply (proj2 (Validate_reports_first_bad_rule Sample.badConfig
                  (Config.BucketRequired 1))).
  do 5 right.
  split; [discriminate | split; [discriminate | split; [discriminate |]]].
  split; [left; discriminate |].
  exists 1%nat, (ConfigRule.mk "No bucket" "" [] Sample.half "" 0).
  split; [reflexivity | split].
  - right. right. left.
    split; [discriminate | split; [reflexivity | split; reflexivity]].
  - intros [| j] earlier Hj Hnth; [| lia].
    injection Hnth as <-.
    split; [discriminate | split; [reflexivity | split; [discriminate |]]].
    simpl. lia.
Defined.

(** ** Bugs updated after the evaluation time *)

Lemma binary_round_aux_sign (s : bool) (m e : Z) (l : location) :
  match binary_round_aux F64.prec F64.emax s m e l with
  | S754_zero s' | S754_finite s' _ _ | S754_infinity s' => s' = s
  | S754_nan => True
  end.
Proof.
  unfold binary_round_aux.
  destruct (shr_fexp F64.prec F64.emax m e l) as [mrs' e'].
  destruct (shr_fexp F64.prec F64.emax _ e' loc_Exact) as [mrs'' e''].
  destruct (shr_m mrs''); [reflexivity | | exact I].
  destruct (e'' <=? F64.emax - F64.prec); reflexivity.
Qed.

Lemma binary_round_sign (s : bool) (m : positive) (e : Z) :
  match binary_round F64.prec F64.emax s m e with
  | S754_zero s' | S754_finite s' _ _ | S754_infinity s' => s' = s
  | S754_nan => True
  end.
Proof.
  unfold binary_round.
  destruct (shl_align m e _) as [mz ez]. apply binary_round_aux_sign.
Qed.

Lemma notPositive_round_aux (m e : Z) (l : location) :
  notPositive (binary_round_aux F64.prec F64.emax true m e l) = true.
Proof.
  pose proof (binary_round_aux_sign true m e l) as H.
  destruct (binary_round_aux F64.prec F64.emax true m e l); simpl;
    congruence.
Qed.

Lemma notPositive_of_int (n : Z) : n <= 0 -> notPositive (F64.of_int n) = true.
Proof.
  intros Hn. unfold F64.of_int, binary_normalize.
  destruct n as [| p | p]; [reflexivity | lia |].
  pose proof (binary_round_sign true p 0) as H.
  destruct (binary_round F64.prec F64.emax true p 0); simpl; congruence.
Qed.

(** Dividing by a positive finite number keeps the sign. *)
Lemma notPositive_div (x : float64) (m : positive) (e : Z) :
  notPositive x = true ->
  notPositive (F64.div x (S754_finite false m e)) = true.
Proof.
  unfold F64.div, SFdiv. destruct x as [s | s | | s mx ex]; simpl;
    intros H; try reflexivity.
  - now rewrite xorb_false_r.
  - subst s.
    destruct (SFdiv_core_binary F64.prec F64.emax (Z.pos mx) ex (Z.pos m) e)
      as [[mz ez] lz].
    apply notPositive_round_aux.
Qed.

Lemma notPositive_add (x y : float64) :
  notPositive x = true -> notPositive y = true ->
  notPositive (F64.add x y) = true.
Proof.
  unfold F64.add, SFadd.
  destruct x as [sx | sx | | sx mx ex], y as [sy | sy | | sy my ey]; simpl;
    intros Hx Hy; subst; try reflexivity.
  - destruct sx, sy; reflexivity.
  - unfold binary_normalize.
    set (a := fst (shl_align mx ex (Z.min ex ey))).
    set (b := fst (shl_align my ey (Z.min ex ey))).
    change (cond_Zopp true (Z.pos a) + cond_Zopp true (Z.pos b))
      with (Z.neg (a + b)).
    pose proof (binary_round_sign true (a + b) (Z.min ex ey)) as H.
    unfold F64.prec, F64.emax in *.
    destruct (binary_round 53 1024 true (a + b) (Z.min ex ey));
      simpl; congruence.
Qed.

Lemma notPositive_Hours (d : Time.Duration) :
  d <= 0 -> notPositive (Time.Hours d) = true.
Proof.
  intros Hd. unfold Time.Hours. apply notPositive_add.
  - apply notPositive_of_int. unfold Time.Hour.
    apply Z.quot_le_upper_bound; lia.
  - change (F64.of_int Time.Hour)
      with (S754_finite false 7372800000000000 (-11)).
    apply notPositive_div, notPositive_of_int.
    pose proof (Z.rem_nonpos d Time.Hour). unfold Time.Hour in *. lia.
Qed.

Lemma notPositive_AgeDays (now : Time.t) (bug : Bug) :
  Time.wall now <= Time.wall (Updated bug) ->
  notPositive (AgeDays now bug) = true.
Proof.
  intros H. unfold AgeDays.
  change (F64.of_int 24) with (S754_finite false 6755399441055744 (-48)).
  apply notPositive_div, notPositive_Hours.
  unfold Age, Time.Since, Time.Sub, Time.minDuration, Time.maxDuration. lia.
Qed.

(** A threshold that is not below zero is not below anything that is not
    positive. *)
Lemma not_below_notPositive (limit x : float64) :
  F64.ltb limit F64.zero = false -> notPositive x = true ->
  F64.gtb x limit = false.
Proof.
  unfold F64.gtb, F64.ltb, F64.zero, SFltb, SFcompare.
  destruct limit as [sl | sl | | sl ml el], x as [sx | sx | | sx mx ex];
    simpl; intros Hl Hx; subst; try reflexivity;
    destruct sl; try discriminate; reflexivity.
Qed.

(** X10. A bug whose last update is not earlier than the evaluation time
    violates no rule whose threshold is not below zero, however the rule's
    criteria match; this covers every rule of a validated configuration and,
    in particular, a threshold of zero days. *)
Theorem Violates_not_before_update (now : Time.t) (r : SLARule.t) (bug : Bug) :
  Time.wall now <= Time.wall (Updated bug) ->
  F64.ltb (SLARule.MaxAgeDays r) F64.zero = false ->
  Violates now r bug = false.
Proof.
  intros Hnow Hlimit. unfold Violates.
  rewrite (not_below_notPositive _ _ Hlimit (notPositive_AgeDays _ _ Hnow)).
  apply andb_false_r.
Qed.

Lemma Violates_not_before_update_witness :
  Violates Sample.now Sample.urgent Sample.ahead = false.
Proof.
  apply Violates_not_before_update.
  - vm_compute. discriminate.
  - reflexivity.
Defined.

(** ** From a validated configuration to the report *)

(** X11. With the rules of a configuration that [Validate] accepts, every
    bucket [Evaluate] returns has a name that is not empty and a severity of
    at least 1. *)
Theorem validated_buckets_named (c : Config.t) (now : Time.t)
  (bugs : list Bug) (b : Bucket) :
  snd (Config.Validate c) = None ->
  In b (Buckets (Evaluate now
                   (NewEvaluator (Config.SLARules (fst (Config.Validate c))))
                   bugs)) ->
  Name b <> "" /\ 1 <= Severity b.
Proof.
  intros Hv Hb.
  assert (Hrules : Config.SLARules (fst (Config.Validate c)) = Config.SLARules c).
  { unfold Config.Validate.
    repeat match goal with
           | |- context [if ?x then _ else _] => destruct x; simpl
           end; reflexivity. }
  rewrite Hrules in Hb. clear Hrules.
  assert (Hall : forall rule, In rule (Config.SLARules c) ->
                   Config.checkRule 0 rule = None).
  { revert Hv. unfold Config.Validate.
    repeat match goal with
           | |- context [if ?x then _ else _] => destruct x; simpl
           end; try discriminate.
    all: intros H; exact (proj1 (checkRules_None 0 _) H). }
  apply Evaluate_first_rule in Hb.
  destruct Hb as (bug & r & _ & _ & Hr & Hn & Hs).
  unfold NewEvaluator in Hr. apply in_map_iff in Hr.
  destruct Hr as (rule & <- & Hin). simpl in Hn, Hs.
  apply Hall, checkRule_None in Hin. rewrite <- Hn, Hs. tauto.
Qed.

Lemma validated_buckets_witness :
  Name (mkBucket "URGENT" 1 [Sample.issue1]) <> "" /\
  1 <= Severity (mkBucket "URGENT" 1 [Sample.issue1]).
Proof.
  apply (validated_buckets_named Sample.config Sample.now
           [Sample.issue1; Sample.issue3]).
  - reflexivity.
  - vm_compute. left. reflexivity.
Defined.

(** ** Report helpers *)

Lemma substring_prefix_length (n : nat) (s : string) :
  (n <= String.length s)%nat -> String.length (substring 0 n s) = n.
Proof.
  revert s. induction n as [| n IH]; intros s Hn.
  - destruct s; reflexivity.
  - destruct s as [| c s]; simpl in *; [lia |]. rewrite IH; [reflexivity | lia].
Qed.

Lemma append_length (a b : string) :
  String.length (String.append a b) = (String.length a + String.length b)%nat.
Proof. induction a as [| c a IH]; simpl; [reflexivity | now rewrite IH]. Qed.

(** X12. [truncateString] panics exactly when the bound is negative;
    otherwise the result is as long as the shorter of the string and the
    bound, so never longer than the bound, and a string that fits is returned
    unchanged. *)
Theorem truncateString_length (s : string) (maxLen : Z) :
  match truncateString s maxLen with
  | Some r =>
      0 <= maxLen /\
      Z.of_nat (String.length r) = Z.min (Z.of_nat (String.length s)) maxLen /\
      (Z.of_nat (String.length s) <= maxLen -> r = s)
  | None => maxLen < 0
  end.
Proof.
  unfold truncateString.
  destruct (Z.of_nat (String.length s) <=? maxLen) eqn:E1.
  { apply Z.leb_le in E1. repeat split; lia. }
  apply Z.leb_gt in E1.
  destruct (maxLen <=? 3) eqn:E2.
  - destruct (0 <=? maxLen) eqn:E3.
    + apply Z.leb_le in E3. repeat split; [exact E3 | | lia].
      rewrite substring_prefix_length; lia.
    + apply Z.leb_gt in E3. exact E3.
  - apply Z.leb_gt in E2. repeat split; [lia | | lia].
    rewrite append_length, substring_prefix_length by lia. simpl. lia.
Qed.

(** ** The project banner of the check command *)

(** X13. With more than three configured project keys, the banner block of
    [runCheck] prints the first three keys and the count of the others, and
    in doing so overwrites the configured slice: its fourth key is replaced
    by the banner's last entry, the other keys staying as they were. The
    Jira client that is created afterwards reads the slice in this state. *)
Theorem projectNames_overwrites_fourth_key (h : GoSlice.Heap)
  (projectKeys : GoSlice.t) :
  GoSlice.wf h projectKeys ->
  (3 < GoSlice.len projectKeys)%nat ->
  exists h' names,
    projectNames h projectKeys = Some (h', names) /\
    GoSlice.elems h' names =
      firstn 3 (GoSlice.elems h projectKeys) ++
      [moreLabel (GoSlice.len projectKeys - 3)] /\
    GoSlice.elems h' projectKeys =
      firstn 3 (GoSlice.elems h projectKeys) ++
      moreLabel (GoSlice.len projectKeys - 3) ::
      skipn 4 (GoSlice.elems h projectKeys).
Proof.
  intros [(a & Ha & Hcap) Hlen] Hmore.
  destruct projectKeys as [p n c]. simpl in *. subst c.
  destruct n as [| [| [| [| n]]]]; try lia.
  destruct a as [| a0 [| a1 [| a2 [| a3 rest]]]]; simpl in Hlen; try lia.
  unfold projectNames, GoSlice.upto, GoSlice.append. simpl.
  eexists _, _. split; [reflexivity |].
  unfold GoSlice.elems, GoSlice.array. simpl.
  rewrite lookup_insert_eq, Ha. simpl.
  split; reflexivity.
Qed.

Lemma projectNames_witness :
  exists h' names,
    projectNames Sample.keysHeap Sample.keys = Some (h', names) /\
    GoSlice.elems h' names = ["A"; "B"; "C"; "... +2 more"] /\
    GoSlice.elems h' Sample.keys = ["A"; "B"; "C"; "... +2 more"; "E"].
Proof.
  assert (Hwf : GoSlice.wf Sample.keysHeap Sample.keys).
  { split; [| simpl; lia]. exists ["A"; "B"; "C"; "D"; "E"].
    split; reflexivity. }
  assert (Hmore : (3 < GoSlice.len Sample.keys)%nat) by (simpl; lia).
  destruct (projectNames_overwrites_fourth_key _ _ Hwf Hmore)
    as (h' & names & H1 & H2 & H3).
  exists h', names. split; [exact H1 | split].
  - rewrite H2. reflexivity.
  - rewrite H3. reflexivity.
Defined.

(** ** The monthly series of the trend analyzer *)

Lemma series_months (now : Time.t) (goal : float64) (bugs : list Bug) :
  map Month (MonthlyData (Analyze now goal bugs)) =
  sortedMonths (groupByMonth bugs).
Proof. unfold Analyze. cbn [MonthlyData]. apply monthlyLoop_months. Qed.

Lemma sortedMonths_of_bug (bugs : list Bug) (month : Time.t) :
  In month (sortedMonths (groupByMonth bugs)) <->
  exists b, In b bugs /\ monthKey b = month.
Proof.
  split; [apply sortedMonths_monthKey |].
  intros (b & Hb & Hk). apply sortedMonths_In. rewrite groupByMonth_lookup.
  assert (Hin : In b (List.filter (fun b => bool_decide (monthKey b = month))
                                  bugs)).
  { apply List.filter_In. split; [exact Hb |]. now apply bool_decide_eq_true. }
  destruct (List.filter _ bugs); [destruct Hin | eexists; reflexivity].
Qed.

Lemma monthKey_zone (b : Bug) : Time.zone (monthKey b) = 0.
Proof. reflexivity. Qed.

Lemma strictly_sorted (l : list Time.t) :
  (forall m, In m l -> Time.zone m = 0) ->
  Sorted monthLe l -> NoDup l ->
  StronglySorted (fun a b => Time.Before a b = true) l.
Proof.
  intros Hz Hs Hnd.
  assert (Htrans : Relations_1.Transitive monthLe)
    by (intros a b c; unfold monthLe; lia).
  apply (Sorted.Sorted_StronglySorted Htrans) in Hs.
  induction Hs as [| a l Hs IH Hall]; constructor.
  - apply IH.
    + intros m Hm. apply Hz. now right.
    + now apply NoDup_cons_1_2 in Hnd.
  - apply List.Forall_forall. intros b Hb.
    rewrite List.Forall_forall in Hall. specialize (Hall b Hb).
    unfold Time.Before, monthLe in *. apply Z.ltb_lt.
    assert (Hneq : a <> b).
    { intros ->. apply NoDup_cons_1_1 in Hnd. apply Hnd.
      now apply list_elem_of_In. }
    assert (Hw : Time.wall a <> Time.wall b).
    { intros Hw. apply Hneq. destruct a as [wa za], b as [wb zb].
      pose proof (Hz _ (or_introl eq_refl)) as Ha.
      pose proof (Hz _ (or_intror Hb)) as Hb'. simpl in *. congruence. }
    lia.
Qed.

(** X14. The monthly series has an entry for exactly the months in which
    some input bug was created, each once and in strictly chronological
    order; a month without a created bug has no entry, and the series is
    empty, the case in which the report says that there is no data, only for
    an empty input. *)
Theorem series_covers_creation_months (now : Time.t) (goal : float64)
  (bugs : list Bug) :
  (forall month,
     In month (map Month (MonthlyData (Analyze now goal bugs))) <->
     exists b, In b bugs /\ monthKey b = month) /\
  StronglySorted (fun a b => Time.Before a b = true)
                 (map Month (MonthlyData (Analyze now goal bugs))) /\
  (MonthlyData (Analyze now goal bugs) = [] <-> bugs = []).
Proof.
  split; [| split].
  - intros month. rewrite series_months. apply sortedMonths_of_bug.
  - pose proof (series_chronological now goal bugs) as [Hs Hnd].
    apply strictly_sorted; [| exact Hs | exact Hnd].
    intros m Hm. rewrite series_months in Hm.
    apply sortedMonths_monthKey in Hm. destruct Hm as (b & _ & <-).
    apply monthKey_zone.
  - split.
    + intros Hnil. destruct bugs as [| b rest]; [reflexivity | exfalso].
      assert (Hin : In (monthKey b)
                       (map Month (MonthlyData (Analyze now goal (b :: rest))))).
      { rewrite series_months. apply sortedMonths_of_bug.
        exists b. split; [left |]; reflexivity. }
      rewrite Hnil in Hin. exact Hin.
    + intros ->. reflexivity.
Qed.

Lemma monthlyLoop_created (bugs : list Bug) (grouped : gmap Time.t (list Bug))
  (months : list Time.t) (prev : Z) :
  map TotalCreated (monthlyLoop bugs grouped months prev) =
  map (fun month => len (default [] (grouped !! month))) months.
Proof.
  revert prev. induction months as [| m rest IH]; intros prev; simpl.
  - reflexivity.
  - now rewrite IH.
Qed.

Lemma group_is_filter (bugs : list Bug) (month : Time.t) :
  default [] (groupByMonth bugs !! month) =
  List.filter (fun b => bool_decide (monthKey b = month)) bugs.
Proof.
  rewrite groupByMonth_lookup.
  destruct (List.filter _ bugs); reflexivity.
Qed.

Lemma one_key_hit (keys : list Time.t) (k : Time.t) :
  NoDup keys -> In k keys ->
  fold_right Z.add 0
    (map (fun month => if bool_decide (k = month) then 1 else 0) keys) = 1.
Proof.
  induction keys as [| a keys IH]; intros Hnd Hin; [destruct Hin |].
  simpl. pose proof (NoDup_cons_1_1 _ _ Hnd) as Hna.
  apply NoDup_cons_1_2 in Hnd.
  assert (Hzero : forall l, ~ In k l ->
            fold_right Z.add 0
              (map (fun month => if bool_decide (k = month) then 1 else 0) l)
            = 0).
  { induction l as [| x l IHl]; intros Hn; simpl; [reflexivity |].
    rewrite bool_decide_eq_false_2 by (intros ->; apply Hn; now left).
    rewrite IHl by (intros H; apply Hn; now right). reflexivity. }
  destruct Hin as [-> | Hin].
  - rewrite bool_decide_eq_true_2 by reflexivity.
    rewrite Hzero; [reflexivity |].
    intros H. apply Hna. now apply list_elem_of_In.
  - rewrite bool_decide_eq_false_2
      by (intros ->; apply Hna; now apply list_elem_of_In).
    now rewrite IH.
Qed.

Lemma groups_partition (keys : list Time.t) (bugs : list Bug) :
  NoDup keys -> (forall b, In b bugs -> In (monthKey b) keys) ->
  fold_right Z.add 0
    (map (fun month =>
            len (List.filter (fun b => bool_decide (monthKey b = month)) bugs))
         keys) = len bugs.
Proof.
  intros Hnd. induction bugs as [| b bugs IH]; intros Hall.
  - clear Hnd Hall. simpl.
    induction keys as [| k keys IHk]; simpl; [reflexivity |].
    rewrite IHk. reflexivity.
  - assert (Hsplit : forall l,
      fold_right Z.add 0
        (map (fun month =>
                len (List.filter (fun b => bool_decide (monthKey b = month))
                                 (b :: bugs))) l) =
      fold_right Z.add 0
        (map (fun month => if bool_decide (monthKey b = month) then 1 else 0) l)
      + fold_right Z.add 0
          (map (fun month =>
                  len (List.filter (fun b => bool_decide (monthKey b = month))
                                   bugs)) l)).
    { induction l as [| k l IHl]; [reflexivity |].
      cbn [map fold_right]. rewrite IHl. cbn [List.filter]. unfold len.
      destruct (bool_decide (monthKey b = k)); simpl length; lia. }
    rewrite Hsplit.
    rewrite IH by (intros b' Hb'; apply Hall; now right).
    rewrite one_key_hit by (try exact Hnd; apply Hall; now left).
    unfold len. simpl length. lia.
Qed.

(** X15. The created counts of the series add up to the number of input
    bugs: every bug is counted in exactly one month. *)
Theorem series_created_total (now : Time.t) (goal : float64)
  (bugs : list Bug) :
  fold_right Z.add 0 (map TotalCreated (MonthlyData (Analyze now goal bugs))) =
  len bugs.
Proof.
  pose proof (series_chronological now goal bugs) as [_ Hnd].
  rewrite series_months in Hnd.
  unfold Analyze. cbn [MonthlyData]. rewrite monthlyLoop_created.
  rewrite (map_ext
             (fun month => len (default [] (groupByMonth bugs !! month)))
             (fun month =>
                len (List.filter (fun b => bool_decide (monthKey b = month))
                                 bugs)))
    by (intros month; now rewrite group_is_filter).
  apply groups_partition; [exact Hnd |].
  intros b Hb. apply sortedMonths_of_bug. now exists b.
Qed.

Lemma filter_andb {A : Type} (f g : A -> bool) (l : list A) :
  List.filter g (List.filter f l) = List.filter (fun x => f x && g x) l.
Proof.
  induction l as [| a l IH]; simpl; [reflexivity |].
  destruct (f a); simpl; [destruct (g a); now rewrite IH | exact IH].
Qed.

Lemma buildPriorityBreakdown_lookup (l : list Bug) (p : string) :
  buildPriorityBreakdown l !! p =
  match List.filter (fun b => String.eqb (Priority b) p) l with
  | [] => None
  | hits => Some (len hits)
  end.
Proof.
  unfold buildPriorityBreakdown.
  induction l as [| x l IH] using rev_ind; [reflexivity |].
  rewrite fold_left_app, List.filter_app. simpl.
  destruct (String.eqb (Priority x) p) eqn:E.
  - apply String.eqb_eq in E. subst p. rewrite lookup_insert_eq, IH.
    destruct (List.filter _ l) as [| h hits]; simpl; [reflexivity |].
    f_equal. unfold len. simpl length. rewrite length_app. simpl length. lia.
  - apply String.eqb_neq in E. rewrite lookup_insert_ne by exact E.
    rewrite IH, app_nil_r. reflexivity.
Qed.

Lemma monthlyLoop_priority (bugs : list Bug) (grouped : gmap Time.t (list Bug))
  (months : list Time.t) (prev : Z) (s : MonthlyBugStats) :
  In s (monthlyLoop bugs grouped months prev) ->
  ByPriority s = buildPriorityBreakdown (default [] (grouped !! Month s)).
Proof.
  revert prev. induction months as [| m rest IH]; intros prev; simpl.
  - intros [].
  - intros [<- | Hin]; [reflexivity | exact (IH _ Hin)].
Qed.

(** X16. In every month of the series, the priority breakdown maps a
    priority to the number of input bugs created in that month with that
    priority, and has no entry for a priority without such a bug. *)
Theorem ByPriority_counts (now : Time.t) (goal : float64) (bugs : list Bug)
  (s : MonthlyBugStats) (p : string) :
  In s (MonthlyData (Analyze now goal bugs)) ->
  ByPriority s !! p =
  match List.filter (fun b => bool_decide (monthKey b = Month s) &&
                              String.eqb (Priority b) p) bugs with
  | [] => None
  | hits => Some (len hits)
  end.
Proof.
  unfold Analyze. cbn [MonthlyData]. intros Hs.
  rewrite (monthlyLoop_priority _ _ _ _ _ Hs).
  rewrite buildPriorityBreakdown_lookup, group_is_filter, filter_andb.
  reflexivity.
Qed.

Lemma ByPriority_witness :
  ByPriority Sample.firstMonth !! "High" = Some 125.
Proof.
  assert (Hin : In Sample.firstMonth
                   (MonthlyData (Analyze Sample.now Sample.goal924
                                         Sample.history)))
    by (vm_compute; left; reflexivity).
  rewrite (ByPriority_counts _ _ _ _ "High" Hin).
  vm_compute. reflexivity.
Defined.

(** ** Resolutions in the last second of a month *)

Lemma month_index_step (a : Z) :
  Time.days_from_civil (a / 12) (a mod 12 + 1) 1 <
  Time.days_from_civil ((a + 1) / 12) ((a + 1) mod 12 + 1) 1.
Proof.
  assert (Hm : 1 <= a mod 12 + 1 <= 12) by TimeFacts.divlia.
  pose proof (TimeFacts.next_month_later (a / 12) (a mod 12 + 1) Hm) as H.
  replace ((a + 1) / 12) with (a / 12 + (a mod 12 + 1) / 12)
    by TimeFacts.divlia.
  replace ((a + 1) mod 12) with ((a mod 12 + 1) mod 12) by TimeFacts.divlia.
  exact H.
Qed.

Lemma month_index_mono (a b : Z) :
  a <= b ->
  Time.days_from_civil (a / 12) (a mod 12 + 1) 1 <=
  Time.days_from_civil (b / 12) (b mod 12 + 1) 1.
Proof.
  intros Hab. replace b with (a + (b - a)) by lia.
  assert (Hk : 0 <= b - a) by lia. revert Hk.
  generalize (b - a). intros k Hk. pattern k.
  apply natlike_ind; [| | exact Hk].
  - rewrite Z.add_0_r. lia.
  - intros x Hx IH. pose proof (month_index_step (a + x)) as Hs.
    replace (a + Z.succ x) with (a + x + 1) by lia. lia.
Qed.

Lemma month_start_wall (y m : Z) :
  Time.wall (Time.Date y m 1 0 0 0 0) =
  Time.days_from_civil ((12 * y + m - 1) / 12) ((12 * y + m - 1) mod 12 + 1) 1
  * 86400000000000.
Proof.
  unfold Time.Date, Time.DateIn. cbv zeta. simpl Time.wall.
  replace (y + (m - 1) / 12) with ((12 * y + m - 1) / 12) by TimeFacts.divlia.
  replace ((m - 1) mod 12) with ((12 * y + m - 1) mod 12) by TimeFacts.divlia.
  unfold Time.nanosPerSecond. lia.
Qed.

(** X17. A resolution timestamp after 23:59:59.000 on the last day of a
    month and before the start of the next month is counted as a resolution
    in no month of the series. *)
Theorem resolved_in_last_second_uncounted (now : Time.t) (goal : float64)
  (bugs : list Bug) (s : MonthlyBugStats) (b : Bug) (d : Time.t) (y m : Z) :
  In s (MonthlyData (Analyze now goal bugs)) ->
  ResolutionDate b = Some d ->
  1 <= m <= 12 ->
  Time.wall (monthEnd (Time.Date y m 1 0 0 0 0)) < Time.wall d ->
  Time.wall d < Time.wall (Time.Date y (m + 1) 1 0 0 0 0) ->
  resolvedIn (Month s) b = false.
Proof.
  intros Hs Hd Hm Hafter Hbefore.
  assert (Hmonth : In (Month s) (map Month (MonthlyData (Analyze now goal bugs))))
    by (apply in_map; exact Hs).
  rewrite series_months in Hmonth.
  apply sortedMonths_monthKey in Hmonth. destruct Hmonth as (b' & _ & Hk).
  rewrite <- Hk. unfold monthKey.
  set (y' := Time.Year (Created b')). set (m' := Time.Month (Created b')).
  assert (Hm' : 1 <= m' <= 12) by apply TimeFacts.civil_month_range.
  pose proof (TimeFacts.monthEnd_of_month_start y' m' Hm') as [He' _].
  pose proof (TimeFacts.monthEnd_of_month_start y m Hm) as [He _].
  unfold resolvedIn. rewrite Hd. unfold Time.Before, Time.After.
  rewrite month_start_wall in He', He, Hbefore.
  rewrite month_start_wall.
  unfold Time.nanosPerSecond in *.
  replace (12 * y' + (m' + 1) - 1) with (12 * y' + m' - 1 + 1) in He' by lia.
  replace (12 * y + (m + 1) - 1) with (12 * y + m - 1 + 1) in He, Hbefore by lia.
  destruct (Z.lt_trichotomy (12 * y' + m') (12 * y + m)) as [Hlt | [Heq | Hgt]].
  - pose proof (month_index_mono (12 * y' + m' - 1 + 1) (12 * y + m - 1)
                  ltac:(lia)) as Hmono.
    pose proof (month_index_step (12 * y + m - 1)) as Hstep.
    replace (_ <? Time.wall d) with true by (symmetry; apply Z.ltb_lt; lia).
    apply andb_false_r.
  - assert (Hy : y' = y) by lia. assert (Hmm : m' = m) by lia.
    rewrite Hy, Hmm in *.
    replace (_ <? Time.wall d) with true by (symmetry; apply Z.ltb_lt; lia).
    apply andb_false_r.
  - pose proof (month_index_mono (12 * y + m - 1 + 1) (12 * y' + m' - 1)
                  ltac:(lia)) as Hmono.
    replace (Time.wall d <? _) with true by (symmetry; apply Z.ltb_lt; lia).
    reflexivity.
Qed.

Lemma resolved_in_last_second_witness :
  resolvedIn (Month Sample.firstMonth) Sample.lateResolved = false.
Proof.
  assert (Hin : In Sample.firstMonth
                   (MonthlyData (Analyze Sample.now Sample.goal924
                                         Sample.history)))
    by (vm_compute; left; reflexivity).
  apply (resolved_in_last_second_uncounted _ _ _ _ _ Sample.lastHalfSecond
           2023 6 Hin).
  - reflexivity.
  - lia.
  - vm_compute. reflexivity.
  - vm_compute. reflexivity.
Defined.

(** ** Sprint ids and sprint statistics *)

Lemma sprintIdSet_lookup (bugs : list Bug) (id : string) :
  is_Some (fold_left
             (fun (m : gmap string bool) bug =>
                if negb (String.eqb (SprintID bug) "")
                then <[SprintID bug := true]> m else m)
             bugs ∅ !! id) <->
  id <> "" /\ exists b, In b bugs /\ SprintID b = id.
Proof.
  induction bugs as [| b l IH] using rev_ind.
  - simpl. rewrite lookup_empty. split.
    + intros [x Hx]. discriminate.
    + intros [_ (b & [] & _)].
  - rewrite fold_left_app. simpl.
    destruct (String.eqb (SprintID b) "") eqn:E; simpl.
    + apply String.eqb_eq in E. rewrite IH. split.
      * intros [Hid (c & Hc & Hs)]. split; [exact Hid |].
        exists c. split; [apply in_or_app; now left | exact Hs].
      * intros [Hid (c & Hc & Hs)]. split; [exact Hid |].
        exists c. split; [| exact Hs].
        apply in_app_or in Hc. destruct Hc as [Hc | [<- | []]]; [exact Hc |].
        congruence.
    + apply String.eqb_neq in E.
      destruct (decide (SprintID b = id)) as [<- | Hne].
      * rewrite lookup_insert_eq. split; [| intros _; eexists; reflexivity].
        intros _. split; [exact E |].
        exists b. split; [apply in_or_app; right; now left | reflexivity].
      * rewrite lookup_insert_ne by exact Hne. rewrite IH. split.
        -- intros [Hid (c & Hc & Hs)]. split; [exact Hid |].
           exists c. split; [apply in_or_app; now left | exact Hs].
        -- intros [Hid (c & Hc & Hs)]. split; [exact Hid |].
           exists c. split; [| exact Hs].
           apply in_app_or in Hc. destruct Hc as [Hc | [<- | []]]; [exact Hc |].
           contradiction.
Qed.

Lemma In_keys {V : Type} (m : gmap string V) (k : string) :
  In k (map fst (map_to_list m)) <-> is_Some (m !! k).
Proof.
  rewrite in_map_iff. split.
  - intros ([k' v] & <- & Hin). exists v.
    apply elem_of_map_to_list. now apply list_elem_of_In.
  - intros [v Hv]. exists (k, v). split; [reflexivity |].
    apply list_elem_of_In. now apply elem_of_map_to_list.
Qed.

Lemma ExtractSprintIDs_In (bugs : list Bug) (id : string) :
  In id (ExtractSprintIDs bugs) <->
  id <> "" /\ exists b, In b bugs /\ SprintID b = id.
Proof.
  unfold ExtractSprintIDs. rewrite In_keys. apply sprintIdSet_lookup.
Qed.

(** X18. [ExtractSprintIDs] returns every non-empty sprint id of the input
    exactly once, and returns nothing exactly when [countBugsWithSprints]
    is 0, the count logged in that case. *)
Theorem ExtractSprintIDs_distinct (bugs : list Bug) :
  NoDup (ExtractSprintIDs bugs) /\
  (forall id, In id (ExtractSprintIDs bugs) <->
              id <> "" /\ exists b, In b bugs /\ SprintID b = id) /\
  (ExtractSprintIDs bugs = [] <-> countBugsWithSprints bugs = 0).
Proof.
  split; [apply NoDup_fst_map_to_list | split; [apply ExtractSprintIDs_In |]].
  unfold countBugsWithSprints. rewrite count_fold. split.
  - intros Hnil.
    destruct (List.filter _ bugs) as [| b l] eqn:E; [reflexivity | exfalso].
    assert (Hb : In b (List.filter
                         (fun bug => negb (String.eqb (SprintID bug) "")) bugs))
      by (rewrite E; left; reflexivity).
    apply List.filter_In in Hb. destruct Hb as [Hb Hs].
    apply negb_true_iff, String.eqb_neq in Hs.
    assert (Hin : In (SprintID b) (ExtractSprintIDs bugs))
      by (apply ExtractSprintIDs_In; split; [exact Hs | now exists b]).
    rewrite Hnil in Hin. exact Hin.
  - intros Hzero.
    destruct (ExtractSprintIDs bugs) as [| id ids] eqn:E; [reflexivity |].
    exfalso.
    assert (Hin : In id (ExtractSprintIDs bugs)) by (rewrite E; left; reflexivity).
    apply ExtractSprintIDs_In in Hin. destruct Hin as [Hid (b & Hb & Hs)].
    assert (Hf : In b (List.filter
                         (fun bug => negb (String.eqb (SprintID bug) "")) bugs)).
    { apply List.filter_In. split; [exact Hb |].
      apply negb_true_iff, String.eqb_neq. congruence. }
    destruct (List.filter _ bugs); [destruct Hf |].
    unfold len in Hzero. simpl length in Hzero. lia.
Qed.

Section SprintFurther.

Context {Regexp : Type}.
Variable Compile : string -> option Regexp.
Variable MatchString : Regexp -> string -> bool.
Variable QuoteMeta : string -> string.

Lemma nameLe_total : Total nameLe.
Proof. intros a b. unfold nameLe. apply String.leb_total. Qed.

Lemma CalculateSprintStats_Permutation (sprintIssues : list Bug)
  (prefix pattern : string) :
  Permutation
    (CalculateSprintStats Compile MatchString QuoteMeta
                          sprintIssues prefix pattern)
    (map (fun kv =>
            statsOfSprint
              (snd (groupBySprint MatchString
                      (nameFilterOf Compile QuoteMeta prefix pattern)
                      sprintIssues))
              (fst kv) (snd kv))
         (map_to_list
            (fst (groupBySprint MatchString
                    (nameFilterOf Compile QuoteMeta prefix pattern)
                    sprintIssues)))).
Proof.
  unfold CalculateSprintStats.
  destruct (groupBySprint MatchString _ sprintIssues) as [groups names].
  simpl. apply merge_sort_Permutation.
Qed.

(** X19. The sprint statistics come sorted by sprint name, in the byte order
    of the names, and no sprint id has two entries. *)
Theorem CalculateSprintStats_sorted (sprintIssues : list Bug)
  (prefix pattern : string) :
  Sorted nameLe (CalculateSprintStats Compile MatchString QuoteMeta
                                      sprintIssues prefix pattern) /\
  NoDup (map Sprint.SprintID
             (CalculateSprintStats Compile MatchString QuoteMeta
                                   sprintIssues prefix pattern)).
Proof.
  split.
  - unfold CalculateSprintStats.
    destruct (groupBySprint MatchString _ sprintIssues) as [groups names].
    apply (@Sorted_merge_sort _ nameLe _ nameLe_total).
  - rewrite (Permutation_map Sprint.SprintID
               (CalculateSprintStats_Permutation sprintIssues prefix pattern)).
    rewrite map_map. simpl. apply NoDup_fst_map_to_list.
Qed.

Lemma sprintNames_lookup (nameFilter : option Regexp)
  (sprintIssues : list Bug) (id : string) :
  snd (groupBySprint MatchString nameFilter sprintIssues) !! id =
  option_map SprintName
    (last (issuesOfSprint MatchString nameFilter id sprintIssues)).
Proof.
  unfold groupBySprint, issuesOfSprint.
  induction sprintIssues as [| b l IH] using rev_ind; [apply lookup_empty |].
  rewrite fold_left_app, List.filter_app. simpl.
  unfold groupStep at 1. unfold inSprint at 2.
  destruct (String.eqb (SprintID b) "") eqn:E; simpl.
  - rewrite app_nil_r. exact IH.
  - destruct (passesFilter MatchString nameFilter (SprintName b)) eqn:P; simpl.
    + destruct (decide (SprintID b = id)) as [<- | Hne].
      * rewrite lookup_insert_eq, String.eqb_refl. simpl.
        rewrite last_snoc. reflexivity.
      * rewrite lookup_insert_ne by exact Hne.
        apply String.eqb_neq in Hne. rewrite Hne, app_nil_r. exact IH.
    + rewrite andb_false_r, app_nil_r. exact IH.
Qed.

(** X20. Every entry of the sprint statistics stands for at least one issue,
    so its bug percentage is always the computed quotient
    (bugs / total) x 100 and never the default; the entry carries the sprint
    name of the last issue of the sprint that passed the name filter. *)
Theorem sprint_entry_name_and_percentage (sprintIssues : list Bug)
  (prefix pattern : string) (s : Sprint.SprintStats) :
  In s (CalculateSprintStats Compile MatchString QuoteMeta
                             sprintIssues prefix pattern) ->
  0 < Sprint.TotalCount s /\
  Sprint.BugPercentage s =
    F64.mul (F64.div (F64.of_int (Sprint.BugCount s))
                     (F64.of_int (Sprint.TotalCount s)))
            (F64.of_int 100) /\
  exists issue,
    last (issuesOfSprint MatchString
            (nameFilterOf Compile QuoteMeta prefix pattern)
            (Sprint.SprintID s) sprintIssues) = Some issue /\
    Sprint.SprintName s = SprintName issue.
Proof.
  intros Hs. apply CalculateSprintStats_In in Hs.
  destruct Hs as (id & issues & Hl & ->).
  rewrite groupBySprint_lookup in Hl.
  assert (Hissues : issuesOfSprint MatchString
                      (nameFilterOf Compile QuoteMeta prefix pattern)
                      id sprintIssues = issues /\ issues <> []).
  { destruct (issuesOfSprint _ _ id sprintIssues); [discriminate |].
    injection Hl as <-. split; [reflexivity | discriminate]. }
  destruct Hissues as [Heq Hne].
  assert (Hpos : 0 < bugCount (tally issues) + otherCount (tally issues)).
  { rewrite tally_spec. cbn [bugCount otherCount].
    rewrite filter_partition_length. unfold len.
    destruct issues; [contradiction | simpl length; lia]. }
  unfold statsOfSprint.
  cbn [Sprint.TotalCount Sprint.BugPercentage Sprint.BugCount
       Sprint.SprintName Sprint.SprintID].
  split; [exact Hpos | split].
  - apply Z.ltb_lt in Hpos. rewrite Hpos. reflexivity.
  - rewrite sprintNames_lookup, Heq.
    destruct (last issues) as [issue |] eqn:E.
    + exists issue. split; reflexivity.
    + apply last_None in E. contradiction.
Qed.

Lemma sumStoryPoints_zero (issues : list Bug) :
  (forall issue, In issue issues -> StoryPoints issue = F64.zero) ->
  sumStoryPoints issues = F64.zero.
Proof.
  unfold sumStoryPoints. intros Hz.
  induction issues as [| x l IH] using rev_ind; [reflexivity |].
  rewrite fold_left_app. simpl. rewrite IH.
  - rewrite (Hz x) by (apply in_or_app; right; now left). reflexivity.
  - intros issue Hin. apply Hz, in_or_app. now left.
Qed.

(** X21. When none of the issues counted for a sprint carries story points,
    the entry's story point totals and its points percentage are exactly 0:
    the quotient 0/0 is not formed. *)
Theorem sprint_without_estimates (sprintIssues : list Bug)
  (prefix pattern : string) (s : Sprint.SprintStats) :
  In s (CalculateSprintStats Compile MatchString QuoteMeta
                             sprintIssues prefix pattern) ->
  (forall issue,
     In issue (issuesOfSprint MatchString
                 (nameFilterOf Compile QuoteMeta prefix pattern)
                 (Sprint.SprintID s) sprintIssues) ->
     StoryPoints issue = F64.zero) ->
  Sprint.TotalStoryPoints s = F64.zero /\
  Sprint.BugStoryPoints s = F64.zero /\
  Sprint.PointsPercentage s = F64.zero.
Proof.
  intros Hs. apply CalculateSprintStats_In in Hs.
  destruct Hs as (id & issues & Hl & ->).
  rewrite groupBySprint_lookup in Hl.
  assert (Heq : issuesOfSprint MatchString
                  (nameFilterOf Compile QuoteMeta prefix pattern)
                  id sprintIssues = issues).
  { destruct (issuesOfSprint _ _ id sprintIssues); [discriminate |].
    now injection Hl as <-. }
  unfold statsOfSprint.
  cbn [Sprint.TotalStoryPoints Sprint.BugStoryPoints Sprint.PointsPercentage
       Sprint.SprintID].
  rewrite Heq. intros Hz.
  rewrite tally_spec. cbn [totalStoryPoints bugStoryPoints].
  rewrite (sumStoryPoints_zero issues Hz).
  rewrite (sumStoryPoints_zero (List.filter isBug issues)).
  - repeat split.
  - intros issue Hin. apply List.filter_In in Hin. apply Hz, Hin.
Qed.

Lemma sprintNameMap_lookup (bugs : list Bug) (id : string) :
  sprintNameMap bugs !! id =
  if String.eqb id "" then None
  else option_map SprintName
         (find (fun b => String.eqb (SprintID b) id) (rev bugs)).
Proof.
  unfold sprintNameMap.
  induction bugs as [| b l IH] using rev_ind.
  - simpl. rewrite lookup_empty. now destruct (String.eqb id "").
  - rewrite fold_left_app, rev_app_distr. simpl.
    destruct (String.eqb (SprintID b) "") eqn:E; simpl.
    + apply String.eqb_eq in E. rewrite IH.
      destruct (String.eqb id "") eqn:Eid; [reflexivity |].
      rewrite E. rewrite String.eqb_sym, Eid. reflexivity.
    + destruct (String.eqb (SprintID b) id) eqn:Eb.
      * apply String.eqb_eq in Eb. subst id. rewrite lookup_insert_eq, E.
        reflexivity.
      * apply String.eqb_neq in Eb. rewrite lookup_insert_ne by exact Eb.
        exact IH.
Qed.

(** X22. [ExtractAndFilterSprints] decides on a sprint by the sprint name of
    the last input bug that carries its id: the id is returned, once, iff it
    is not empty and that name passes the filter. Names that earlier bugs
    give for the same id play no part. *)
Theorem ExtractAndFilterSprints_last_name (bugs : list Bug)
  (prefix pattern : string) :
  NoDup (ExtractAndFilterSprints Compile MatchString QuoteMeta
                                 bugs prefix pattern) /\
  (forall id,
     In id (ExtractAndFilterSprints Compile MatchString QuoteMeta
                                    bugs prefix pattern) <->
     id <> "" /\
     exists b,
       find (fun b => String.eqb (SprintID b) id) (rev bugs) = Some b /\
       passesFilter MatchString (nameFilterOf Compile QuoteMeta prefix pattern)
                    (SprintName b) = true).
Proof.
  unfold ExtractAndFilterSprints. split.
  - apply NoDup_ListNoDup.
    pose proof (NoDup_fst_map_to_list (sprintNameMap bugs)) as Hnd.
    apply NoDup_ListNoDup in Hnd.
    induction (map_to_list (sprintNameMap bugs)) as [| kv l IH]; simpl.
    + constructor.
    + simpl in Hnd. inversion Hnd as [| ? ? Hnotin Hrest]. subst.
      destruct (passesFilter _ _ (snd kv)); simpl; [| exact (IH Hrest)].
      constructor; [| exact (IH Hrest)].
      intros Hin. apply Hnotin. apply in_map_iff in Hin.
      destruct Hin as (kv' & Hk & Hin'). apply List.filter_In in Hin'.
      apply in_map_iff. exists kv'. split; [exact Hk | apply Hin'].
  - intros id. rewrite in_map_iff. split.
    + intros ([k name] & Hk & Hin). simpl in Hk. subst k.
      apply List.filter_In in Hin. destruct Hin as [Hin Hpass].
      apply list_elem_of_In, elem_of_map_to_list in Hin.
      rewrite sprintNameMap_lookup in Hin.
      destruct (String.eqb id "") eqn:Eid; [discriminate |].
      apply String.eqb_neq in Eid. split; [exact Eid |].
      destruct (find _ (rev bugs)) as [b |]; [| discriminate].
      exists b. split; [reflexivity |]. simpl in Hin, Hpass. congruence.
    + intros [Hid (b & Hfind & Hpass)].
      exists (id, SprintName b). split; [reflexivity |].
      apply List.filter_In. split; [| exact Hpass].
      apply list_elem_of_In, elem_of_map_to_list.
      rewrite sprintNameMap_lookup, Hfind.
      apply String.eqb_neq in Hid. now rewrite Hid.
Qed.

End SprintFurther.

Lemma sprint_entry_witness :
  0 < Sprint.TotalCount Sample.secondSprint /\
  Sprint.SprintName Sample.secondSprint = "TOOLS Sprint 1".
Proof.
  assert (Hin : In Sample.secondSprint
                   (CalculateSprintStats Sample.compilePrefix Sample.hasPrefix
                      Sample.quoteNothing Sample.sprintIssues "" "["))
    by (vm_compute; right; left; reflexivity).
  split.
  - exact (proj1 (sprint_entry_name_and_percentage Sample.compilePrefix
                    Sample.hasPrefix Sample.quoteNothing Sample.sprintIssues
                    "" "[" Sample.secondSprint Hin)).
  - vm_compute. reflexivity.
Defined.

Lemma sprint_without_estimates_witness :
  Sprint.TotalStoryPoints Sample.unestimatedSprint = F64.zero /\
  Sprint.BugStoryPoints Sample.unestimatedSprint = F64.zero /\
  Sprint.PointsPercentage Sample.unestimatedSprint = F64.zero.
Proof.
  assert (Hin : In Sample.unestimatedSprint
                   (CalculateSprintStats Sample.compilePrefix Sample.hasPrefix
                      Sample.quoteNothing Sample.unestimated "" ""))
    by (vm_compute; left; reflexivity).
  apply (sprint_without_estimates Sample.compilePrefix Sample.hasPrefix
           Sample.quoteNothing Sample.unestimated "" "" _ Hin).
  intros issue Hissue. vm_compute in Hissue.
  destruct Hissue as [<- | [<- | []]]; reflexivity.
Defined.

(** ** Invariants of the bucket group *)

(** X23. Sorting a bucket group that is already in ascending order of
    severity changes nothing; in particular sorting twice is sorting once. *)
Theorem Sort_idempotent (bg : BucketGroup) :
  Sort (Sort bg) = Sort bg /\
  (StronglySorted severityLe (Buckets bg) -> Sort bg = bg).
Proof.
  assert (Hfix : forall bs, StronglySorted severityLe bs -> sortBuckets bs = bs).
  { intros bs Hs. apply sorted_stable_unique.
    - apply sortBuckets_StronglySorted.
    - exact Hs.
    - intros s. apply sortBuckets_filter. }
  split.
  - unfold Sort. simpl. f_equal. apply Hfix, sortBuckets_StronglySorted.
  - intros Hs. destruct bg as [bs]. unfold Sort. simpl in *. f_equal.
    now apply Hfix.
Qed.

Lemma appendToNamed_names (name : string) (bug : Bug) (bs bs' : list Bucket) :
  appendToNamed name bug bs = Some bs' ->
  map Name bs' = map Name bs /\
  (Forall (fun b => Bugs b <> []) bs -> Forall (fun b => Bugs b <> []) bs').
Proof.
  revert bs'. induction bs as [| b rest IH]; intros bs'; simpl.
  - discriminate.
  - destruct (String.eqb (Name b) name).
    + intros [= <-]. split; [reflexivity |].
      intros H. inversion H; subst. constructor; [| assumption].
      simpl. intros Hnil. apply app_eq_nil in Hnil.
      destruct Hnil as [_ Hnil]. discriminate.
    + destruct (appendToNamed name bug rest) as [rest' |]; simpl;
        [| discriminate].
      intros [= <-]. destruct (IH rest' eq_refl) as [Hn Hb].
      split; [simpl; now rewrite Hn |].
      intros H. inversion H; subst. constructor; [assumption | now apply Hb].
Qed.

(** X24. [AddToBucket] and [Sort] keep two invariants of a bucket group: no
    two buckets share a name, and no bucket is empty. *)
Theorem bucket_invariants_kept (bucketName : string) (severity : Z)
  (bug : Bug) (bg : BucketGroup) :
  NoDup (map Name (Buckets bg)) ->
  Forall (fun b => Bugs b <> []) (Buckets bg) ->
  (NoDup (map Name (Buckets (AddToBucket bucketName severity bug bg))) /\
   Forall (fun b => Bugs b <> [])
          (Buckets (AddToBucket bucketName severity bug bg))) /\
  (NoDup (map Name (Buckets (Sort bg))) /\
   Forall (fun b => Bugs b <> []) (Buckets (Sort bg))).
Proof.
  intros Hnd Hne. split.
  - unfold AddToBucket.
    destruct (appendToNamed bucketName bug (Buckets bg)) as [bs' |] eqn:E.
    + apply appendToNamed_names in E. destruct E as [Hn Hb]. simpl.
      split; [now rewrite Hn | now apply Hb].
    + apply appendToNamed_None in E. simpl. split.
      * rewrite map_app. simpl. apply NoDup_ListNoDup.
        apply NoDup_ListNoDup in Hnd.
        apply (Permutation_NoDup
                 (Permutation_cons_append (map Name (Buckets bg)) bucketName)).
        constructor; [| exact Hnd].
        intros Hin. apply in_map_iff in Hin. destruct Hin as (c & Hc & Hin).
        rewrite List.Forall_forall in E. exact (E c Hin Hc).
      * apply Forall_app. split; [exact Hne |].
        constructor; [discriminate | constructor].
  - simpl. pose proof (sortBuckets_Permutation (Buckets bg)) as HP. split.
    + apply NoDup_ListNoDup.
      apply (Permutation_NoDup (Permutation_sym (Permutation_map Name HP))).
      now apply NoDup_ListNoDup.
    + rewrite List.Forall_forall in *. intros b Hb. apply Hne.
      apply (Permutation_in _ HP). exact Hb.
Qed.

Lemma bucket_invariants_witness :
  NoDup (map Name (Buckets (AddToBucket "URGENT" 1 Sample.issue1
                              (mkGroup [mkBucket "STALE" 3 [Sample.issue3]])))).
Proof.
  apply (bucket_invariants_kept "URGENT" 1 Sample.issue1
           (mkGroup [mkBucket "STALE" 3 [Sample.issue3]])).
  - simpl. apply NoDup_ListNoDup. constructor; [intros [] | constructor].
  - simpl. constructor; [discriminate | constructor].
Defined.

(** ** The totals under the sprint table *)

Lemma sprintSummary_sums (l : list Sprint.SprintStats) :
  sprintSummary l =
  (fold_right Z.add 0 (map Sprint.BugCount l),
   fold_right Z.add 0 (map Sprint.OtherCount l)).
Proof.
  unfold sprintSummary.
  assert (H : forall a b,
             fold_left
               (fun totals s =>
                  (fst totals + Sprint.BugCount s,
                   snd totals + Sprint.OtherCount s)) l (a, b) =
             (a + fold_right Z.add 0 (map Sprint.BugCount l),
              b + fold_right Z.add 0 (map Sprint.OtherCount l))).
  { induction l as [| s l IH]; intros a b; simpl.
    - f_equal; lia.
    - rewrite IH. f_equal; lia. }
  rewrite H. reflexivity.
Qed.

Lemma sum_Permutation (l1 l2 : list Z) :
  Permutation l1 l2 -> fold_right Z.add 0 l1 = fold_right Z.add 0 l2.
Proof. induction 1; simpl; lia. Qed.

Lemma one_id_hit (keys : list string) (k : string) :
  NoDup keys -> In k keys ->
  fold_right Z.add 0
    (map (fun id => if String.eqb k id then 1 else 0) keys) = 1.
Proof.
  assert (Hzero : forall l, ~ In k l ->
            fold_right Z.add 0
              (map (fun id => if String.eqb k id then 1 else 0) l) = 0).
  { induction l as [| x l IHl]; intros Hn; simpl; [reflexivity |].
    destruct (String.eqb k x) eqn:E.
    - apply String.eqb_eq in E. exfalso. apply Hn. now left.
    - rewrite IHl by (intros H; apply Hn; now right). reflexivity. }
  induction keys as [| a keys IH]; intros Hnd Hin; [destruct Hin |].
  simpl. pose proof (NoDup_cons_1_1 _ _ Hnd) as Hna.
  apply NoDup_cons_1_2 in Hnd.
  destruct (String.eqb k a) eqn:E.
  - apply String.eqb_eq in E. subst a. rewrite Hzero; [reflexivity |].
    intros H. apply Hna. now apply list_elem_of_In.
  - apply String.eqb_neq in E. destruct Hin as [-> | Hin]; [contradiction |].
    now rewrite IH.
Qed.

Lemma partition_by_id (P : Bug -> bool) (keys : list string) (l : list Bug) :
  NoDup keys ->
  (forall x, In x l -> P x = true -> In (SprintID x) keys) ->
  fold_right Z.add 0
    (map (fun id =>
            len (List.filter (fun x => P x && String.eqb (SprintID x) id) l))
         keys) = len (List.filter P l).
Proof.
  intros Hnd. induction l as [| x l IH]; intros Hall.
  - clear Hnd Hall. simpl.
    induction keys as [| k keys IHk]; simpl; [reflexivity |].
    rewrite IHk. reflexivity.
  - assert (Hsplit : forall ks,
      fold_right Z.add 0
        (map (fun id =>
                len (List.filter
                       (fun x => P x && String.eqb (SprintID x) id) (x :: l)))
             ks) =
      fold_right Z.add 0
        (map (fun id => if P x && String.eqb (SprintID x) id then 1 else 0) ks)
      + fold_right Z.add 0
          (map (fun id =>
                  len (List.filter
                         (fun x => P x && String.eqb (SprintID x) id) l))
               ks)).
    { induction ks as [| k ks IHk]; [reflexivity |].
      cbn [map fold_right]. rewrite IHk. cbn [List.filter]. unfold len.
      destruct (P x && String.eqb (SprintID x) k); simpl length; lia. }
    rewrite Hsplit.
    rewrite IH by (intros y Hy; apply Hall; now right).
    cbn [List.filter]. destruct (P x) eqn:Px; simpl andb.
    + rewrite one_id_hit; [| exact Hnd | apply Hall; [now left | exact Px]].
      unfold len. simpl length. lia.
    + assert (Hz : forall ks : list string,
                fold_right Z.add 0 (map (fun _ => 0) ks) = 0)
        by (induction ks as [| k ks IHk]; simpl; [reflexivity | now rewrite IHk]).
      rewrite Hz. lia.
Qed.

Section SprintSummary.

Context {Regexp : Type}.
Variable Compile : string -> option Regexp.
Variable MatchString : Regexp -> string -> bool.
Variable QuoteMeta : string -> string.

Lemma group_counts (nameFilter : option Regexp) (sprintIssues : list Bug)
  (g : Bug -> bool) :
  fold_right Z.add 0
    (map (fun kv : string * list Bug => len (List.filter g (snd kv)))
         (map_to_list (fst (groupBySprint MatchString nameFilter sprintIssues))))
  = len (List.filter
           (fun issue =>
              negb (String.eqb (SprintID issue) "") &&
              passesFilter MatchString nameFilter (SprintName issue) &&
              g issue)
           sprintIssues).
Proof.
  set (groups := fst (groupBySprint MatchString nameFilter sprintIssues)).
  set (P := fun issue =>
              negb (String.eqb (SprintID issue) "") &&
              passesFilter MatchString nameFilter (SprintName issue) &&
              g issue).
  rewrite <- (partition_by_id P (map fst (map_to_list groups)) sprintIssues).
  - rewrite map_map. f_equal. apply map_ext_in. intros [id issues] Hin.
    apply list_elem_of_In, elem_of_map_to_list in Hin.
    subst groups. rewrite groupBySprint_lookup in Hin. simpl.
    assert (Heq : issues = issuesOfSprint MatchString nameFilter id sprintIssues).
    { destruct (issuesOfSprint _ _ id sprintIssues); [discriminate |].
      now injection Hin as <-. }
    rewrite Heq. unfold issuesOfSprint. rewrite filter_andb.
    f_equal. apply filter_ext. intros issue. subst P. unfold inSprint. simpl.
    destruct (negb (String.eqb (SprintID issue) ""));
      destruct (String.eqb (SprintID issue) id);
      destruct (passesFilter MatchString nameFilter (SprintName issue));
      destruct (g issue); reflexivity.
  - apply NoDup_fst_map_to_list.
  - intros issue Hin HP. apply In_keys. subst groups.
    rewrite groupBySprint_lookup.
    assert (Hm : In issue (issuesOfSprint MatchString nameFilter
                             (SprintID issue) sprintIssues)).
    { apply List.filter_In. split; [exact Hin |]. subst P. simpl in HP.
      unfold inSprint. rewrite String.eqb_refl.
      destruct (negb (String.eqb (SprintID issue) "")); [| discriminate].
      destruct (passesFilter MatchString nameFilter (SprintName issue));
        [reflexivity | discriminate]. }
    destruct (issuesOfSprint _ _ (SprintID issue) sprintIssues);
      [destruct Hm | eexists; reflexivity].
Qed.

(** X25. The totals printed under the sprint table count every input issue
    that carries a sprint id and whose sprint name passes the filter exactly
    once: the bug total is the number of those of type "Bug", the other
    total the number of the rest. *)
Theorem sprintSummary_counts_issues (sprintIssues : list Bug)
  (prefix pattern : string) :
  sprintSummary (CalculateSprintStats Compile MatchString QuoteMeta
                                      sprintIssues prefix pattern) =
  (len (List.filter
          (fun issue =>
             negb (String.eqb (SprintID issue) "") &&
             passesFilter MatchString
               (nameFilterOf Compile QuoteMeta prefix pattern)
               (SprintName issue) &&
             isBug issue)
          sprintIssues),
   len (List.filter
          (fun issue =>
             negb (String.eqb (SprintID issue) "") &&
             passesFilter MatchString
               (nameFilterOf Compile QuoteMeta prefix pattern)
               (SprintName issue) &&
             negb (isBug issue))
          sprintIssues)).
Proof.
  rewrite sprintSummary_sums.
  pose proof (CalculateSprintStats_Permutation Compile MatchString QuoteMeta
                sprintIssues prefix pattern) as HP.
  rewrite (sum_Permutation _ _ (Permutation_map Sprint.BugCount HP)).
  rewrite (sum_Permutation _ _ (Permutation_map Sprint.OtherCount HP)).
  rewrite !map_map. unfold statsOfSprint. cbn [Sprint.BugCount Sprint.OtherCount].
  rewrite <- !group_counts. f_equal.
  - f_equal. apply map_ext. intros kv. now rewrite tally_spec.
  - f_equal. apply map_ext. intros kv. now rewrite tally_spec.
Qed.

End SprintSummary.

(** ** The order of the report *)

(** X26. [Evaluate] returns one bucket for every bucket name that the input
    uses, in ascending order of severity and, among buckets of one severity,
    in the order in which the input first sends a bug to them. *)
Theorem Evaluate_order (now : Time.t) (rules : list SLARule.t)
  (bugs : list Bug) :
  Buckets (Evaluate now rules bugs) =
  stableSortBySeverity
    (map (bucketOf now rules bugs) (bucketNames now rules bugs)).
Proof.
  unfold Evaluate. simpl. rewrite collect_closed_form.
  apply sorted_stable_unique.
  - apply sortBuckets_StronglySorted.
  - apply stableSort_StronglySorted.
  - intros s. now rewrite sortBuckets_filter, stableSort_filter.
Qed.
